(** * MovieLens + OMDb pipeline: a shallow embedding of [etl.py] and
    [enrich_missing.py]

  The development follows the two scripts function by function.

  - [Py]        : the Python values the scripts manipulate (parsed JSON,
                  truthiness, [dict.get], [str.lower], [in], [split],
                  [int]) and the exceptions they can raise.
  - [Normalizer]: [clean_omdb_response] (the same text in both scripts).
  - [Sql]       : the relational store behind [conn.execute].
  - [World]     : the state of a run (cache dict, rate-limit flag,
                  requests sent, store, cache file, printed lines) and
                  the computations over it.
  - [Etl]       : [etl.py].
  - [Enrich]    : [enrich_missing.py].
  - [Runs]      : sequences of lookups, for either script.
  - [Samples]   : small environments and stores to run the functions on.

  The properties come after the definitions.

  A character is a code point below 256: strings are the texts of
  Python's [str] that stay within Latin-1, and the character classes
  ([isspace], the regex classes, [lower]) are Python's on that range.
  Wall-clock time ([time.sleep], progress timings) has no counterpart
  here. *)

From Stdlib Require Import ZArith List String Ascii Bool Lia QArith.
From Stdlib Require Import Sorting.Sorted Sorting.Permutation.
From stdpp Require Import base option gmap sets list strings pretty.

Local Open Scope string_scope.
Local Open Scope Z_scope.

Set Warnings "-register-all".

(* ===================================================================== *)
(** ** Python values, exceptions and string primitives                   *)
(* ===================================================================== *)

Module Py.

(** The exceptions that the modelled fragments can raise.
    [IntegrityError] carries the driver's message. *)
Inductive exn : Type :=
| AttributeError
| TypeError
| KeyError
| OverflowError
| InterfaceError
| IntegrityError (msg : string).

(** Outcome of a Python expression or statement: a value, or a raised
    exception. *)
Inductive result (A : Type) : Type :=
| Ok (a : A)
| Raise (e : exn).
Arguments Ok {A} a.
Arguments Raise {A} e.

#[export] Instance result_ret : MRet result := fun A a => Ok a.
#[export] Instance result_bind : MBind result := fun A B f m =>
  match m with
  | Ok a => f a
  | Raise e => Raise e
  end.

#[export] Instance result_fmap : FMap result := fun A B f m =>
  match m with
  | Ok a => Ok (f a)
  | Raise e => Raise e
  end.

Definition raises {A} (m : result A) : bool :=
  match m with Ok _ => false | Raise _ => true end.

(** What [json.loads] / [Response.json()] produce.  [JNull] is [None];
    a [JDict] keeps its items in order, as a Python [dict] does.
    Numbers are integers here: a float behaves like an integer in every
    operation below (truthy unless zero, not a container, no [.get]). *)
Inductive json : Type :=
| JNull
| JBool (b : bool)
| JNum (z : Z)
| JStr (s : string)
| JList (l : list json)
| JDict (d : list (string * json)).

(** [bool(v)] *)
Definition truthy (v : json) : bool :=
  match v with
  | JNull => false
  | JBool b => b
  | JNum z => negb (z =? 0)
  | JStr s => negb (String.eqb s "")
  | JList l => match l with [] => false | _ => true end
  | JDict d => match d with [] => false | _ => true end
  end.

(** [v == "literal"]: only a [str] equals a [str]. *)
Definition eq_str (v : json) (lit : string) : bool :=
  match v with
  | JStr s => String.eqb s lit
  | _ => false
  end.

(** Lookup in the item list of a dict. *)
Fixpoint assoc (k : string) (d : list (string * json)) : option json :=
  match d with
  | [] => None
  | (k', v) :: d' => if String.eqb k k' then Some v else assoc k d'
  end.

(** [d.get(k)] on an actual dict: [None] when the key is missing. *)
Definition dict_get (d : list (string * json)) (k : string) : json :=
  default JNull (assoc k d).

(** [v.get(k)]: only a dict has the method. *)
Definition get (v : json) (k : string) : result json :=
  match v with
  | JDict d => Ok (dict_get d k)
  | _ => Raise AttributeError
  end.

(** [v.get(k, dflt)] *)
Definition get_default (v : json) (k : string) (dflt : json) : result json :=
  match v with
  | JDict d => Ok (default dflt (assoc k d))
  | _ => Raise AttributeError
  end.

(** *** Characters *)

Definition code (c : ascii) : N := N_of_ascii c.

(** [c.isspace()], which is also the class [\s] of [re] and what
    [strip], [split] and [int] skip: TAB, LF, VT, FF, CR, FS, GS, RS,
    US, SPACE, NEL (U+0085) and the no-break space (U+00A0). *)
Definition isspace (c : ascii) : bool :=
  let n := code c in
  ((9 <=? n) && (n <=? 13) || (28 <=? n) && (n <=? 32)
   || (n =? 133) || (n =? 160))%N.

Definition isdigit (c : ascii) : bool :=
  let n := code c in ((48 <=? n) && (n <=? 57))%N.

Definition digit_value (c : ascii) : Z := Z.of_N (code c) - 48.

(** The capital letters below 256 are A-Z and U+00C0-U+00DE without the
    multiplication sign U+00D7; each has its small letter 32 further. *)
Definition lower_char (c : ascii) : ascii :=
  let n := code c in
  if ((65 <=? n) && (n <=? 90)
      || (192 <=? n) && (n <=? 222) && negb (n =? 215))%N
  then ascii_of_N (n + 32) else c.

(** *** Strings *)

(** [s.lower()] *)
Fixpoint lower (s : string) : string :=
  match s with
  | EmptyString => EmptyString
  | String c s' => String (lower_char c) (lower s')
  end.

Fixpoint startswith (s p : string) : bool :=
  match p, s with
  | EmptyString, _ => true
  | String a p', String b s' => Ascii.eqb a b && startswith s' p'
  | String _ _, EmptyString => false
  end.

(** [p in s] for two strings. *)
Fixpoint str_in (p s : string) : bool :=
  startswith s p ||
  match s with
  | EmptyString => false
  | String _ s' => str_in p s'
  end.

(** [lit in v] for a string literal and an arbitrary value: substring
    test on a [str], element test on a list, key test on a dict, and
    [TypeError] ("argument of type ... is not iterable") otherwise. *)
Definition contains (lit : string) (v : json) : result bool :=
  match v with
  | JStr s => Ok (str_in lit s)
  | JList l => Ok (existsb (fun x => eq_str x lit) l)
  | JDict d => Ok (existsb (fun kv => String.eqb (fst kv) lit) d)
  | JNull | JBool _ | JNum _ => Raise TypeError
  end.

Fixpoint lstrip (s : string) : string :=
  match s with
  | String c s' => if isspace c then lstrip s' else s
  | EmptyString => EmptyString
  end.

Fixpoint take_word (s : string) : string :=
  match s with
  | String c s' => if isspace c then EmptyString else String c (take_word s')
  | EmptyString => EmptyString
  end.

(** [s.split()[0]]; [None] stands for the [IndexError] of an input
    without any word. *)
Definition first_word (s : string) : option string :=
  match lstrip s with
  | EmptyString => None
  | s' => Some (take_word s')
  end.

Fixpoint rev_string (s acc : string) : string :=
  match s with
  | EmptyString => acc
  | String c s' => rev_string s' (String c acc)
  end.

Definition rstrip (s : string) : string :=
  rev_string (lstrip (rev_string s EmptyString)) EmptyString.

(** [s.strip()] *)
Definition strip (s : string) : string := rstrip (lstrip s).

(** The digit part of an integer literal accepted by [int(str)]: decimal
    digits, with single underscores allowed between two digits. *)
Fixpoint digits (s : string) (acc : Z) (after_digit : bool) : option Z :=
  match s with
  | EmptyString => if after_digit then Some acc else None
  | String c s' =>
      if isdigit c then digits s' (10 * acc + digit_value c) true
      else if Ascii.eqb c "_" then
        if after_digit then digits s' acc false else None
      else None
  end.

(** The default of [sys.int_max_str_digits]: a decimal literal with more
    digits is refused by [int]. *)
Definition max_str_digits : nat := 4300%nat.

(** The number of digits of a literal; underscores do not count. *)
Fixpoint count_digits (s : string) : nat :=
  match s with
  | EmptyString => 0%nat
  | String c s' => ((if isdigit c then 1 else 0) + count_digits s')%nat
  end.

Definition bounded_digits (s : string) : option Z :=
  if (count_digits s <=? max_str_digits)%nat then digits s 0 false else None.

(** [int(s)] in base 10; [None] stands for its [ValueError], that of a
    text that is no literal and that of a literal with too many
    digits. *)
Definition int (s : string) : option Z :=
  match strip s with
  | String "-" s' => Z.opp <$> bounded_digits s'
  | String "+" s' => bounded_digits s'
  | s' => bounded_digits s'
  end.

End Py.

Import Py.

(* ===================================================================== *)
(** ** Response Normalizer: [clean_omdb_response]                        *)
(* ===================================================================== *)

(** [etl.py] (lines 123-153) and [enrich_missing.py] (lines 86-116) carry
  the same function text; it is embedded once. *)

Module Normalizer.

(** The canonical partial-record: the dict returned by
    [clean_omdb_response].  The first four fields hold whatever Python
    value the response had ([JNull] for [None]). *)
Record record : Type := {
  imdb_id : json;
  director : json;
  plot : json;
  box_office : json;
  released : option string;
  runtime_minutes : option Z
}.

(** [x if x and x != "N/A" else None] *)
Definition unless_na (x : json) : json :=
  if truthy x && negb (eq_str x "N/A") then x else JNull.

(** Lines 132-137: the [if] is evaluated outside the [try]; the [try]
    protects [int(runtime.split()[0])] only.  A list or a dict has no
    [split], so the [except] branch leaves [None]. *)
Definition parse_runtime (runtime : json) : result (option Z) :=
  if truthy runtime then
    has_min ← contains "min" runtime;
    if has_min : bool then
      Ok (match runtime with
          | JStr s => first_word s ≫= Py.int
          | _ => None
          end)
    else Ok None
  else Ok None.

Section Released.

(** [datetime.strptime(text, fmt).date().isoformat()] of the standard
    library, with [None] for the [ValueError] of a text that does not
    match the format. *)
Variable strptime_iso : string -> string -> option string.

(** One turn of the [for fmt in ...] loop: the bare [except] also
    absorbs the [TypeError] of a value that is not a [str]. *)
Definition try_format (released : json) (fmt : string) : option string :=
  match released with
  | JStr s => strptime_iso s fmt
  | _ => None
  end.

Fixpoint first_format (released : json) (fmts : list string) : option string :=
  match fmts with
  | [] => None
  | fmt :: fmts' =>
      match try_format released fmt with
      | Some d => Some d
      | None => first_format released fmts'
      end
  end.

Definition parse_released (released : json) : option string :=
  if truthy released && negb (eq_str released "N/A")
  then first_format released ["%d %b %Y"; "%Y-%m-%d"]
  else None.

Definition clean_omdb_response (r : json) : result (option record) :=
  if negb (truthy r) then Ok None else
  response ← get r "Response";
  if eq_str response "False" then Ok None else
  imdb_id ← get r "imdbID";
  director ← get r "Director";
  plot ← get r "Plot";
  box_office ← get r "BoxOffice";
  released ← get r "Released";
  runtime ← get r "Runtime";
  runtime_minutes ← parse_runtime runtime;
  let released_date := parse_released released in
  Ok (Some {| imdb_id := imdb_id;
              director := unless_na director;
              plot := unless_na plot;
              box_office := unless_na box_office;
              released := released_date;
              runtime_minutes := runtime_minutes |}).

End Released.

(** A reference instance of the date parser for the two layouts that the
    API documents, in their zero-padded form: ["01 Jan 1995"] and
    ["1995-01-01"].  It only serves to run the functions on examples;
    no statement below depends on it. *)
Fixpoint decimal (s : string) (acc : Z) : option Z :=
  match s with
  | EmptyString => Some acc
  | String c s' =>
      if isdigit c then decimal s' (10 * acc + digit_value c) else None
  end.

Definition months : list (string * Z) :=
  [("jan", 1); ("feb", 2); ("mar", 3); ("apr", 4); ("may", 5); ("jun", 6);
   ("jul", 7); ("aug", 8); ("sep", 9); ("oct", 10); ("nov", 11); ("dec", 12)].

Definition month_number (name : string) : option Z :=
  snd <$> find (fun kv => String.eqb (fst kv) (lower name)) months.

Definition leap (y : Z) : bool :=
  (y mod 4 =? 0) && (negb (y mod 100 =? 0) || (y mod 400 =? 0)).

Definition days_in_month (y m : Z) : Z :=
  if m =? 2 then (if leap y then 29 else 28)
  else if (m =? 4) || (m =? 6) || (m =? 9) || (m =? 11) then 30
  else 31.

Definition two_digits (n : Z) : string :=
  if n <? 10 then "0" +:+ pretty n else pretty n.

Definition isoformat (y m d : Z) : option string :=
  if (1 <=? y) && (1 <=? m) && (m <=? 12) && (1 <=? d) && (d <=? days_in_month y m)
  then Some (pretty y +:+ "-" +:+ two_digits m +:+ "-" +:+ two_digits d)
  else None.

Definition strptime_reference (text fmt : string) : option string :=
  if String.eqb fmt "%d %b %Y" then
    if (String.length text =? 11)%nat
       && String.eqb (substring 2 1 text) " "
       && String.eqb (substring 6 1 text) " "
    then
      d ← decimal (substring 0 2 text) 0;
      m ← month_number (substring 3 3 text);
      y ← decimal (substring 7 4 text) 0;
      if 1000 <=? y then isoformat y m d else None
    else None
  else if String.eqb fmt "%Y-%m-%d" then
    if (String.length text =? 10)%nat
       && String.eqb (substring 4 1 text) "-"
       && String.eqb (substring 7 1 text) "-"
    then
      y ← decimal (substring 0 4 text) 0;
      m ← decimal (substring 5 2 text) 0;
      d ← decimal (substring 8 2 text) 0;
      if 1000 <=? y then isoformat y m d else None
    else None
  else None.

End Normalizer.

(* ===================================================================== *)
(** ** The relational store                                              *)
(* ===================================================================== *)

(** The scripts hand SQL text to SQLite; [schema.sql] and the engine are
  not among the sources.  The tables and the effect of each statement
  are modelled here from the statement texts in the scripts and from
  sections 3 and 4.4 of the specification.  A statement that fails
  leaves the tables as they were (SQLite aborts the statement, not the
  transaction).  Column affinities are not modelled: a bound value is
  stored as it is. *)

Module Sql.

Inductive value : Type :=
| Null
| Int (z : Z)
| Text (s : string).

Definition value_eqb (a b : value) : bool :=
  match a, b with
  | Null, Null => true
  | Int x, Int y => x =? y
  | Text x, Text y => String.eqb x y
  | _, _ => false
  end.

Definition is_null (v : value) : bool :=
  match v with Null => true | _ => false end.

(** [COALESCE(a, b)] *)
Definition coalesce (a b : value) : value :=
  if is_null a then b else a.

(** Modelled from the spec: a row of the [movies] table of [schema.sql],
    which is not among the sources.  The columns are those named by the
    statements of the two scripts; [id] is the primary key (the target
    of [ON CONFLICT(id)]) and [imdb_id] is unique when it is not [NULL]
    (section 3). *)
Record movie : Type := {
  id : Z;
  title : string;
  year : option Z;
  imdb_id : value;
  director : value;
  plot : value;
  box_office : value;
  released : value;
  runtime_minutes : value
}.

(** Modelled from the spec: a row of the [ratings] table of
    [schema.sql] (user id, movie id, rating value, timestamp).  The
    rating value is a float in the scripts; no modelled operation looks
    inside it. *)
Record rating : Type := {
  user_id : Z;
  movie_id : Z;
  rating_value : Q;
  timestamp : option Z
}.

(** Modelled from the spec: the four tables of [schema.sql], each in
    insertion order. *)
Record store : Type := {
  movies : list movie;
  ratings : list rating;
  genres : list (Z * string);
  movie_genres : list (Z * Z)
}.

Definition empty : store :=
  {| movies := []; ratings := []; genres := []; movie_genres := [] |}.

Definition with_movies (ms : list movie) (db : store) : store :=
  {| movies := ms; ratings := ratings db;
     genres := genres db; movie_genres := movie_genres db |}.

Definition with_ratings (rs : list rating) (db : store) : store :=
  {| movies := movies db; ratings := rs;
     genres := genres db; movie_genres := movie_genres db |}.

Definition with_genres (gs : list (Z * string)) (db : store) : store :=
  {| movies := movies db; ratings := ratings db;
     genres := gs; movie_genres := movie_genres db |}.

Definition with_movie_genres (mg : list (Z * Z)) (db : store) : store :=
  {| movies := movies db; ratings := ratings db;
     genres := genres db; movie_genres := mg |}.

(** *** Binding Python values to statement parameters *)

Definition int64 (z : Z) : bool := (- 2 ^ 63 <=? z) && (z <? 2 ^ 63).

(** The driver accepts [None], [bool], [int] and [str]; a list or a
    dict is refused, and an integer outside 64 bits overflows. *)
Definition bind (v : json) : result value :=
  match v with
  | JNull => Ok Null
  | JBool b => Ok (Int (if b then 1 else 0))
  | JNum z => if int64 z then Ok (Int z) else Raise OverflowError
  | JStr s => Ok (Text s)
  | JList _ | JDict _ => Raise InterfaceError
  end.

Definition bind_int (z : Z) : result Z :=
  if int64 z then Ok z else Raise OverflowError.

Definition bind_opt_int (o : option Z) : result (option Z) :=
  match o with
  | None => Ok None
  | Some z => Some <$> bind_int z
  end.

Definition of_opt_int (o : option Z) : value :=
  match o with None => Null | Some z => Int z end.

Definition of_opt_str (o : option string) : value :=
  match o with None => Null | Some s => Text s end.

(** *** The movies table *)

Definition find_movie (i : Z) (db : store) : option movie :=
  find (fun m => id m =? i) (movies db).

Fixpoint replace_row (row : movie) (ms : list movie) : list movie :=
  match ms with
  | [] => []
  | m :: ms' =>
      if id m =? id row then row :: ms' else m :: replace_row row ms'
  end.

(** Does another row already hold this non-null external ID? *)
Definition imdb_taken (db : store) (self : Z) (v : value) : bool :=
  negb (is_null v) &&
  existsb (fun m => negb (id m =? self) && value_eqb (imdb_id m) v) (movies db).

Definition unique_imdb_msg : string :=
  "UNIQUE constraint failed: movies.imdb_id".

(** *** [INSERT INTO movies ... ON CONFLICT(id) DO UPDATE SET ...] *)

(** The parameter dict [params] of [etl.py], lines 224-234. *)
Record upsert_params : Type := {
  p_id : Z;
  p_title : string;
  p_year : option Z;
  p_imdb_id : json;
  p_director : json;
  p_plot : json;
  p_box_office : json;
  p_released : option string;
  p_runtime : option Z
}.

(** The row named [excluded] in the statement: the bound [VALUES]. *)
Definition excluded_row (p : upsert_params) : result movie :=
  i ← bind_int (p_id p);
  y ← bind_opt_int (p_year p);
  imdb ← bind (p_imdb_id p);
  dir ← bind (p_director p);
  plo ← bind (p_plot p);
  box ← bind (p_box_office p);
  run ← bind_opt_int (p_runtime p);
  Ok {| id := i; title := p_title p; year := y;
        imdb_id := imdb; director := dir; plot := plo; box_office := box;
        released := of_opt_str (p_released p);
        runtime_minutes := of_opt_int run |}.

(** The [DO UPDATE SET] list.  [upsert_sql] (lines 213-221) assigns
    [imdb_id]; [fallback_sql] (lines 246-253) has no assignment to it. *)
Definition merged_row (sets_imdb : bool) (excluded old : movie) : movie :=
  {| id := id old;
     title := title excluded;
     year := year excluded;
     imdb_id := if sets_imdb
                then coalesce (imdb_id excluded) (imdb_id old)
                else imdb_id old;
     director := coalesce (director excluded) (director old);
     plot := coalesce (plot excluded) (plot old);
     box_office := coalesce (box_office excluded) (box_office old);
     released := coalesce (released excluded) (released old);
     runtime_minutes :=
       coalesce (runtime_minutes excluded) (runtime_minutes old) |}.

(** Modelled from the spec: what the engine does with [upsert_sql]
    ([sets_imdb = true]) and with [fallback_sql] ([sets_imdb = false]).
    A row with this [id] is merged, otherwise the bound row is appended;
    the write fails when it would give a second row the same non-null
    external ID. *)
Definition upsert (sets_imdb : bool) (p : upsert_params) (db : store)
  : result store :=
  excluded ← excluded_row p;
  match find_movie (id excluded) db with
  | Some old =>
      let row := merged_row sets_imdb excluded old in
      if sets_imdb && imdb_taken db (id row) (imdb_id row)
      then Raise (IntegrityError unique_imdb_msg)
      else Ok (with_movies (replace_row row (movies db)) db)
  | None =>
      if imdb_taken db (id excluded) (imdb_id excluded)
      then Raise (IntegrityError unique_imdb_msg)
      else Ok (with_movies (movies db ++ [excluded]) db)
  end.

(** *** [UPDATE movies SET ... WHERE id = :id] *)

Inductive column : Type :=
| ImdbId | Director | Plot | BoxOffice | Released | RuntimeMinutes.

Definition is_imdb_column (c : column) : bool :=
  match c with ImdbId => true | _ => false end.

Definition set_column (m : movie) (cv : column * value) : movie :=
  let v := snd cv in
  match fst cv with
  | ImdbId =>
      {| id := id m; title := title m; year := year m; imdb_id := v;
         director := director m; plot := plot m;
         box_office := box_office m; released := released m;
         runtime_minutes := runtime_minutes m |}
  | Director =>
      {| id := id m; title := title m; year := year m;
         imdb_id := imdb_id m; director := v; plot := plot m;
         box_office := box_office m; released := released m;
         runtime_minutes := runtime_minutes m |}
  | Plot =>
      {| id := id m; title := title m; year := year m;
         imdb_id := imdb_id m; director := director m; plot := v;
         box_office := box_office m; released := released m;
         runtime_minutes := runtime_minutes m |}
  | BoxOffice =>
      {| id := id m; title := title m; year := year m;
         imdb_id := imdb_id m; director := director m; plot := plot m;
         box_office := v; released := released m;
         runtime_minutes := runtime_minutes m |}
  | Released =>
      {| id := id m; title := title m; year := year m;
         imdb_id := imdb_id m; director := director m; plot := plot m;
         box_office := box_office m; released := v;
         runtime_minutes := runtime_minutes m |}
  | RuntimeMinutes =>
      {| id := id m; title := title m; year := year m;
         imdb_id := imdb_id m; director := director m; plot := plot m;
         box_office := box_office m; released := released m;
         runtime_minutes := v |}
  end.

Fixpoint bind_all (sets : list (column * json))
  : result (list (column * value)) :=
  match sets with
  | [] => Ok []
  | (c, v) :: sets' =>
      v' ← bind v;
      rest ← bind_all sets';
      Ok ((c, v') :: rest)
  end.

(** Modelled from the spec: what the engine does with the [UPDATE] that
    [update_movie] builds.  No row with this [id]: nothing changes.
    Otherwise the assignments are applied to the row, and the write
    fails when it assigns an external ID that another row holds. *)
Definition update (i : Z) (sets : list (column * json)) (db : store)
  : result store :=
  i' ← bind_int i;
  assignments ← bind_all sets;
  match find_movie i' db with
  | None => Ok db
  | Some old =>
      let row := fold_left set_column assignments old in
      if existsb (fun cv => is_imdb_column (fst cv)) assignments
         && imdb_taken db i' (imdb_id row)
      then Raise (IntegrityError unique_imdb_msg)
      else Ok (with_movies (replace_row row (movies db)) db)
  end.

(** *** Genres *)

Definition next_genre_id (gs : list (Z * string)) : Z :=
  1 + fold_right Z.max 0 (map fst gs).

(** Modelled from the spec: [INSERT OR IGNORE INTO genres (name) VALUES
    (:name)] on a table with unique names and generated ids. *)
Definition insert_genre (name : string) (db : store) : store :=
  if existsb (fun g => String.eqb (snd g) name) (genres db) then db
  else with_genres (genres db ++ [(next_genre_id (genres db), name)]) db.

(** [SELECT id FROM genres WHERE name = :name], [scalar_one_or_none] *)
Definition select_genre_id (name : string) (db : store) : option Z :=
  fst <$> find (fun g => String.eqb (snd g) name) (genres db).

(** [INSERT OR IGNORE INTO movie_genres (movie_id, genre_id) ...] *)
Definition insert_movie_genre (m g : Z) (db : store) : store :=
  if existsb (fun mg => (fst mg =? m) && (snd mg =? g)) (movie_genres db)
  then db
  else with_movie_genres (movie_genres db ++ [(m, g)]) db.

(** *** Ratings *)

(** [SELECT id FROM movies] *)
Definition select_movie_ids (db : store) : list Z := map id (movies db).

Section Ratings.

(** The uniqueness constraint of the ratings table, which decides
    what [INSERT OR IGNORE] ignores. *)
Variable duplicate_rating : rating -> rating -> bool.

(** Modelled from the spec: [INSERT OR IGNORE INTO ratings (...) VALUES
    (...)]; a row that duplicates a stored one is ignored. *)
Definition insert_rating (r : rating) (db : store) : result store :=
  _ ← bind_int (user_id r);
  _ ← bind_int (movie_id r);
  _ ← bind_opt_int (timestamp r);
  if existsb (duplicate_rating r) (ratings db) then Ok db
  else Ok (with_ratings (ratings db ++ [r]) db).

End Ratings.

(** The integers of a rating row fit the driver's 64 bits. *)
Definition bindable_rating (r : rating) : bool :=
  int64 (user_id r) && int64 (movie_id r)
  && match timestamp r with
     | Some t => int64 t
     | None => true
     end.

(** *** The candidate query of [fetch_candidates] *)

(** [COUNT(r.rating)] over the rows joined to [m]; a stored rating
    value is never [NULL] here, so every joined row counts. *)
Definition rating_count (db : store) (m : movie) : nat :=
  length (List.filter (fun r => movie_id r =? id m) (ratings db)).

(** [WHERE (m.director IS NULL OR m.imdb_id IS NULL)] *)
Definition lacks_metadata (m : movie) : bool :=
  is_null (director m) || is_null (imdb_id m).

(** The inner join keeps a movie only if some rating row refers to it. *)
Definition joined (db : store) (m : movie) : bool :=
  existsb (fun r => movie_id r =? id m) (ratings db).

(** [a] may stand before [b] in the order of decreasing counts. *)
Definition by_count_desc (db : store) (a b : movie) : Prop :=
  (rating_count db b <= rating_count db a)%nat.

(** [ORDER BY cnt DESC]: SQL leaves the order of equal counts open; here a
    row is placed after the rows that have at least its count. *)
Fixpoint insert_by_count (db : store) (m : movie) (sorted : list movie)
  : list movie :=
  match sorted with
  | [] => [m]
  | x :: rest =>
      if (rating_count db x <? rating_count db m)%nat
      then m :: x :: rest
      else x :: insert_by_count db m rest
  end.

Definition order_by_count_desc (db : store) (ms : list movie) : list movie :=
  fold_right (insert_by_count db) [] ms.

(** [LIMIT n]: a negative [n] means no limit in SQLite. *)
Definition limit {A} (n : Z) (rows : list A) : list A :=
  if n <? 0 then rows else take (Z.to_nat n) rows.

(** Modelled from the spec: what the engine answers to the query text
    of [fetch_candidates] (lines 127-135): the movies joined to their
    ratings, restricted to those lacking director or external ID, one
    row per movie with its number of ratings, by decreasing number,
    cut at [batch]. *)
Definition select_candidates (batch : Z) (db : store)
  : list (Z * string * option Z * nat) :=
  limit batch
    (map (fun m => (id m, title m, year m, rating_count db m))
       (order_by_count_desc db
          (List.filter (fun m => lacks_metadata m && joined db m)
             (movies db)))).

(** *** The constraints of the movies table *)

(** [id] is the primary key. *)
Definition unique_ids (db : store) : Prop :=
  NoDup (map id (movies db)).

(** No two rows share an external ID that is not [NULL]. *)
Definition unique_imdb (db : store) : Prop :=
  forall a b, In a (movies db) -> In b (movies db) ->
    imdb_id a = imdb_id b -> imdb_id a <> Null -> id a = id b.

(** *** What a retried write is expected to leave *)

(** The assignments of an [UPDATE] without the one to [imdb_id]. *)
Definition without_imdb {V} (sets : list (column * V)) : list (column * V) :=
  List.filter (fun cv => negb (is_imdb_column (fst cv))) sets.

Definition column_of (o : option movie) (f : movie -> value) : value :=
  match o with
  | Some m => f m
  | None => Null
  end.

(** [row] carries every update of the bound values [excluded] over the
    stored row [old] (none for a new identifier), except for the
    external ID, which is the stored one. *)
Definition retried_row (excluded : movie) (old : option movie) (row : movie)
  : Prop :=
  id row = id excluded
  /\ title row = title excluded
  /\ year row = year excluded
  /\ imdb_id row = column_of old imdb_id
  /\ director row = coalesce (director excluded) (column_of old director)
  /\ plot row = coalesce (plot excluded) (column_of old plot)
  /\ box_office row = coalesce (box_office excluded) (column_of old box_office)
  /\ released row = coalesce (released excluded) (column_of old released)
  /\ runtime_minutes row
     = coalesce (runtime_minutes excluded) (column_of old runtime_minutes).

End Sql.

(* ===================================================================== *)
(** ** Run state                                                         *)
(* ===================================================================== *)

Module World.

(** A request to the OMDb endpoint (the [apikey] parameter is left
    out): [t=] with optional [y=], [s=]/[type=movie] with optional
    [y=], and [i=]. *)
Inductive request : Type :=
| ByTitle (t : string) (y : option Z)
| BySearch (s : string) (y : option Z)
| ById (i : json).

(** What [_session.get(...)] followed by [r.json()] can do: deliver a
    parsed document, deliver a body that is not JSON, or fail in
    [requests]. *)
Inductive reply : Type :=
| Json (j : json)
| NotJson (status_code : Z) (why : string)
| Failed (why : string).

Inductive statement : Type :=
| Upsert (p : Sql.upsert_params)
| UpsertFallback (p : Sql.upsert_params)
| Update (i : Z) (sets : list (Sql.column * json))
| InsertGenre (name : string)
| InsertMovieGenre (m g : Z)
| InsertRating (r : Sql.rating).

(** The lines written by [print] that the statements below refer to. *)
Inductive message : Type :=
| MoviesProcessed (n : nat)
| FilteredRatings (dropped : Z)
| RatingsInserted (n : Z)
| RateLimitDetected (error : json)
| Stopping
| NoCandidates
| Found (n : nat)
| Skipped (title : string)
| Enriched (movie_id : Z)
| IntegrityWarning
| Done (enriched skipped : Z).

(** What does not change during a run. *)
Record env : Type := {
  OMDB_API_KEY : option string;
  http : list request -> request -> reply;
  strptime_iso : string -> string -> option string;
  duplicate_rating : Sql.rating -> Sql.rating -> bool
}.

(** What a run reads and writes: the [cache] dict, the module global
    [OMDB_RATE_LIMITED], the requests sent so far (latest first), the
    store with the statements executed on it (latest first), the
    content of [omdb_cache.json] with the number of times it was
    written, and the printed lines (latest first). *)
Record world : Type := {
  cache : gmap string json;
  OMDB_RATE_LIMITED : bool;
  sent : list request;
  db : Sql.store;
  executed : list statement;
  cache_file : option (gmap string json);
  saves : nat;
  stdout : list message
}.

Definition with_cache (c : gmap string json) (w : world) : world :=
  {| cache := c; OMDB_RATE_LIMITED := OMDB_RATE_LIMITED w; sent := sent w;
     db := db w; executed := executed w; cache_file := cache_file w;
     saves := saves w; stdout := stdout w |}.

Definition with_rate_limited (b : bool) (w : world) : world :=
  {| cache := cache w; OMDB_RATE_LIMITED := b; sent := sent w;
     db := db w; executed := executed w; cache_file := cache_file w;
     saves := saves w; stdout := stdout w |}.

Definition with_sent (l : list request) (w : world) : world :=
  {| cache := cache w; OMDB_RATE_LIMITED := OMDB_RATE_LIMITED w; sent := l;
     db := db w; executed := executed w; cache_file := cache_file w;
     saves := saves w; stdout := stdout w |}.

Definition with_db (d : Sql.store) (w : world) : world :=
  {| cache := cache w; OMDB_RATE_LIMITED := OMDB_RATE_LIMITED w;
     sent := sent w; db := d; executed := executed w;
     cache_file := cache_file w; saves := saves w; stdout := stdout w |}.

Definition with_executed (l : list statement) (w : world) : world :=
  {| cache := cache w; OMDB_RATE_LIMITED := OMDB_RATE_LIMITED w;
     sent := sent w; db := db w; executed := l;
     cache_file := cache_file w; saves := saves w; stdout := stdout w |}.

Definition with_saved (c : gmap string json) (w : world) : world :=
  {| cache := cache w; OMDB_RATE_LIMITED := OMDB_RATE_LIMITED w;
     sent := sent w; db := db w; executed := executed w;
     cache_file := Some c; saves := S (saves w); stdout := stdout w |}.

Definition with_stdout (l : list message) (w : world) : world :=
  {| cache := cache w; OMDB_RATE_LIMITED := OMDB_RATE_LIMITED w;
     sent := sent w; db := db w; executed := executed w;
     cache_file := cache_file w; saves := saves w; stdout := l |}.

(** A computation that reads and writes the run state and may raise. *)
Definition io (A : Type) : Type := world -> result A * world.

#[export] Instance io_ret : MRet io := fun A a w => (Ok a, w).
#[export] Instance io_bind : MBind io := fun A B f m w =>
  match m w with
  | (Ok a, w') => f a w'
  | (Raise e, w') => (Raise e, w')
  end.

Definition raise {A} (e : exn) : io A := fun w => (Raise e, w).

Definition lift {A} (r : result A) : io A := fun w => (r, w).

Definition gets {A} (f : world -> A) : io A := fun w => (Ok (f w), w).

Definition modify (f : world -> world) : io unit := fun w => (Ok tt, f w).

(** [try: body / except: handler] *)
Definition try_except {A} (body : io A) (handler : exn -> io A) : io A :=
  fun w =>
    match body w with
    | (Raise e, w') => handler e w'
    | done => done
    end.

(** [with engine.begin() as conn: body]: commit on exit, roll the
    tables back when an exception leaves the block. *)
Definition transaction {A} (body : io A) : io A :=
  fun w =>
    match body w with
    | (Raise e, w') => (Raise e, with_db (db w) w')
    | done => done
    end.

Definition print (m : message) : io unit :=
  modify (fun w => with_stdout (m :: stdout w) w).

(** [conn.execute(statement, params)] for the writing statements. *)
Definition run_statement (E : env) (st : statement) (d : Sql.store)
  : result Sql.store :=
  match st with
  | Upsert p => Sql.upsert true p d
  | UpsertFallback p => Sql.upsert false p d
  | Update i sets => Sql.update i sets d
  | InsertGenre name => Ok (Sql.insert_genre name d)
  | InsertMovieGenre m g => Ok (Sql.insert_movie_genre m g d)
  | InsertRating r => Sql.insert_rating (duplicate_rating E) r d
  end.

Definition execute (E : env) (st : statement) : io unit :=
  fun w =>
    let w' := with_executed (st :: executed w) w in
    match run_statement E st (db w) with
    | Ok d => (Ok tt, with_db d w')
    | Raise e => (Raise e, w')
    end.

(** [load_cache(path)]: the file content, or an empty dict. *)
Definition load_cache : io unit :=
  modify (fun w => with_cache (default ∅ (cache_file w)) w).

(** [save_cache(cache, path)]: the whole file is rewritten.  A save that
    is reached is taken to complete.  A [write_text] that raises (a text
    that cannot be encoded as UTF-8, an error of the file system) ends
    the run there and leaves the file truncated; this has no counterpart
    here, so a run that ends normally here stands for a run in which
    every write went through. *)
Definition save_cache : io unit :=
  modify (fun w => with_saved (cache w) w).

(** A computation that never writes the cache file. *)
Definition keeps_file {A} (m : io A) : Prop :=
  forall w, saves (snd (m w)) = saves w
            /\ cache_file (snd (m w)) = cache_file w.

(** *** What the two [query_omdb] functions share *)

(** [f"{title}||{year}"] *)
Definition cache_key (title : string) (year : option Z) : string :=
  title +:+ "||" +:+
  match year with
  | None => "None"
  | Some y => pretty y
  end.

Definition failure (error : json) : json :=
  JDict [("Response", JStr "False"); ("Error", error)].

Definition skipped_response : json :=
  failure (JStr "fast-mode or rate-limited: skipped").

Definition no_key_response : json :=
  failure (JStr "No API key set").

(** [not OMDB_API_KEY] *)
Definition no_api_key (E : env) : bool :=
  match OMDB_API_KEY E with
  | None => true
  | Some k => String.eqb k ""
  end.

(** [if year: params["y"] = year] *)
Definition year_param (year : option Z) : option Z :=
  match year with
  | Some y => if y =? 0 then None else Some y
  | None => None
  end.

(** [cache[key] = v; return cache[key]] *)
Definition remember (key : string) (v : json) : io json :=
  modify (fun w => with_cache (<[key := v]> (cache w)) w);;
  mret v.

(** One network round trip; the reply is chosen by the environment from
    the requests sent before. *)
Definition send (E : env) (q : request) : io reply :=
  fun w => (Ok (http E (sent w) q), with_sent (q :: sent w) w).

(** [(data.get("Error") or "").lower()] *)
Definition error_text (data : json) : result string :=
  e ← get data "Error";
  if truthy e then
    match e with
    | JStr s => Ok (lower s)
    | _ => Raise AttributeError
    end
  else Ok "".

End World.

(* ===================================================================== *)
(** ** [etl.py]                                                          *)
(* ===================================================================== *)

Module Etl.
Import World.

(** [parse_title_and_year], lines 53-57.  The pattern asks for a title
    group (any characters but a line feed, as many as possible), one or
    more spaces, and a parenthesised group of four digits at the end of
    the text.  It is read here from the end: the end anchor also
    matches before one final line feed; then come the parenthesised
    digits; then at least one space; and what the title group takes may
    not contain a line feed.  Stripping the title group gives the same
    text whichever of the spaces it took. *)
Definition parse_title_and_year (title : string) : string * option Z :=
  let r := rev_string title EmptyString in
  let r := match r with
           | String c r' => if Ascii.eqb c "010" then r' else r
           | EmptyString => r
           end in
  match r with
  | String ")" (String d4 (String d3 (String d2 (String d1
      (String "(" (String sp before)))))) =>
      if isdigit d1 && isdigit d2 && isdigit d3 && isdigit d4
         && isspace sp
         && negb (str_in (String "010" EmptyString) (lstrip before))
      then (strip (rev_string (String sp before) EmptyString),
            Some (1000 * digit_value d1 + 100 * digit_value d2
                  + 10 * digit_value d3 + digit_value d4))
      else (title, None)
  | _ => (title, None)
  end.

(** [_call(params)], lines 78-83: any exception becomes a failure
    document carrying its text. *)
Definition document (r : reply) : json :=
  match r with
  | Json j => j
  | NotJson _ why => failure (JStr why)
  | Failed why => failure (JStr why)
  end.

Definition _call (E : env) (q : request) : io json :=
  r ← send E q;
  mret (document r).

(** Line 97: the markers of a rate limit or of a refused key. *)
Definition is_rate_limit (err : string) : bool :=
  str_in "limit" err || str_in "invalid api key" err.

(** Lines 107-116: the search result's first entry and its details. *)
Definition first_of (search_list : json) : result json :=
  match search_list with
  | JList (first :: _) => Ok first
  | JStr (String c _) => Ok (JStr (String c EmptyString))
  | JDict _ => Raise KeyError
  | _ => Raise TypeError
  end.

Definition search_fallback (E : env) (title : string) (year : option Z)
  : io (option json) :=
  search ← _call E (BySearch title (year_param year));
  response ← lift (get search "Response");
  found ← lift (get search "Search");
  if eq_str response "True" && truthy found then
    first ← lift (first_of found);
    imdb ← lift (get first "imdbID");
    if truthy imdb then
      detail ← _call E (ById imdb);
      detail_response ← lift (get detail "Response");
      if eq_str detail_response "True" then mret (Some detail)
      else mret None
    else mret None
  else mret None.

(** [query_omdb], lines 59-121, called with the [cache] of [main]. *)
Definition query_omdb (E : env) (title : string) (year : option Z)
    (fast : bool) : io json :=
  let key := cache_key title year in
  cached ← gets (fun w => cache w !! key);
  match cached with
  | Some v => mret v
  | None =>
    limited ← gets OMDB_RATE_LIMITED;
    if fast || limited then remember key skipped_response
    else if no_api_key E then remember key no_key_response
    else
      data ← _call E (ByTitle title (year_param year));
      err ← lift (error_text data);
      response ← lift (get data "Response");
      if eq_str response "True" then remember key data
      else if is_rate_limit err then
        modify (with_rate_limited true);;
        error ← lift (get_default data "Error"
                        (JStr "rate limited/invalid key"));
        remember key (failure error)
      else
        detail ← search_fallback E title year;
        match detail with
        | Some d => remember key d
        | None => remember key data
        end
  end.

(** A row of [movies.csv]. *)
Record movie_row : Type := {
  movieId : Z;
  raw_title : string;
  genres_raw : string
}.

(** [s.split("|")] *)
Fixpoint split_bar (s : string) : list string :=
  match s with
  | EmptyString => [EmptyString]
  | String c s' =>
      if Ascii.eqb c "|" then EmptyString :: split_bar s'
      else match split_bar s' with
           | w :: ws => String c w :: ws
           | [] => [String c EmptyString]
           end
  end.

(** Line 260 *)
Definition genre_list (genres_raw : string) : list string :=
  List.filter
    (fun g => negb (String.eqb g "")
              && negb (String.eqb g "(no genres listed)"))
    (split_bar genres_raw).

(** Lines 261-268, one genre. *)
Definition link_genre (E : env) (movie_id : Z) (g : string) : io unit :=
  execute E (InsertGenre g);;
  gid ← gets (fun w => Sql.select_genre_id g (db w));
  match gid with
  | Some i => if i =? 0 then mret tt
              else execute E (InsertMovieGenre movie_id i)
  | None => mret tt
  end.

Fixpoint link_genres (E : env) (movie_id : Z) (gs : list string) : io unit :=
  match gs with
  | [] => mret tt
  | g :: gs' => link_genre E movie_id g;; link_genres E movie_id gs'
  end.

(** Lines 203-208 and 224-234: [params]. *)
Definition params_of (movie_id : Z) (title : string) (year : option Z)
    (omdb : option Normalizer.record) : Sql.upsert_params :=
  {| Sql.p_id := movie_id;
     Sql.p_title := title;
     Sql.p_year := year;
     Sql.p_imdb_id := from_option Normalizer.imdb_id JNull omdb;
     Sql.p_director := from_option Normalizer.director JNull omdb;
     Sql.p_plot := from_option Normalizer.plot JNull omdb;
     Sql.p_box_office := from_option Normalizer.box_office JNull omdb;
     Sql.p_released := omdb ≫= Normalizer.released;
     Sql.p_runtime := omdb ≫= Normalizer.runtime_minutes |}.

(** Lines 241-242: [params.copy()] with ["imdb_id"] set to [None]. *)
Definition params_no_imdb (p : Sql.upsert_params) : Sql.upsert_params :=
  {| Sql.p_id := Sql.p_id p;
     Sql.p_title := Sql.p_title p;
     Sql.p_year := Sql.p_year p;
     Sql.p_imdb_id := JNull;
     Sql.p_director := Sql.p_director p;
     Sql.p_plot := Sql.p_plot p;
     Sql.p_box_office := Sql.p_box_office p;
     Sql.p_released := Sql.p_released p;
     Sql.p_runtime := Sql.p_runtime p |}.

(** [str(e)] of the wrapped driver error; SQLAlchemy appends the
    statement text and the parameters after the driver's message. *)
Definition str_of_integrity_error (msg : string) : string :=
  "(sqlite3.IntegrityError) " +:+ msg.

(** Lines 236-257: the write and its retry. *)
Definition upsert_movie (E : env) (params : Sql.upsert_params) : io unit :=
  try_except (execute E (Upsert params))
    (fun e =>
       match e with
       | IntegrityError m =>
           let msg := lower (str_of_integrity_error m) in
           if str_in "imdb_id" msg
              || str_in "unique constraint failed: movies.imdb_id" msg
           then execute E (UpsertFallback (params_no_imdb params))
           else raise e
       | _ => raise e
       end).

(** The body of the loop over [movies_df], lines 194-268 (the progress
    line of lines 270-273 only reports timings). *)
Definition process_movie (E : env) (fast : bool) (row : movie_row) : io unit :=
  let movie_id := movieId row in
  let (title, year) := parse_title_and_year (raw_title row) in
  omdb_raw ← query_omdb E title year fast;
  omdb ← (if truthy omdb_raw
          then lift (Normalizer.clean_omdb_response (strptime_iso E) omdb_raw)
          else mret None);
  upsert_movie E (params_of movie_id title year omdb);;
  link_genres E movie_id (genre_list (genres_raw row)).

Fixpoint process_movies (E : env) (fast : bool) (rows : list movie_row)
  : io unit :=
  match rows with
  | [] => mret tt
  | row :: rows' => process_movie E fast row;; process_movies E fast rows'
  end.

(** Lines 173-174: [movies_df.head(limit)] when [limit] is truthy; a
    negative [limit] drops that many rows from the end. *)
Definition apply_limit {A} (limit : option Z) (rows : list A) : list A :=
  match limit with
  | None => rows
  | Some n =>
      if n =? 0 then rows
      else if 0 <? n then take (Z.to_nat n) rows
      else take (length rows - Z.to_nat (- n)) rows
  end.

(** Lines 188-277: the metadata phase. *)
Definition metadata_phase (E : env) (fast : bool) (rows : list movie_row)
  : io unit :=
  transaction (process_movies E fast rows);;
  save_cache;;
  print (MoviesProcessed (length rows)).

(** Lines 284-292 *)
Definition valid_movie_ids (d : Sql.store) (rows : list movie_row) : gset Z :=
  let existing_ids : gset Z := list_to_set (Sql.select_movie_ids d) in
  let processed_ids : gset Z := list_to_set (map movieId rows) in
  existing_ids ∪ processed_ids.

(** Line 296 *)
Definition filter_ratings (valid : gset Z) (ratings : list Sql.rating)
  : list Sql.rating :=
  List.filter (fun r => bool_decide (Sql.movie_id r ∈ valid)) ratings.

(** Lines 303-317 *)
Fixpoint insert_ratings (E : env) (rs : list Sql.rating) (inserted : Z)
  : io Z :=
  match rs with
  | [] => mret inserted
  | r :: rs' =>
      execute E (InsertRating r);;
      insert_ratings E rs' (inserted + 1)
  end.

(** Lines 279-321: the ratings phase; it returns [dropped] and
    [inserted]. *)
Definition ratings_phase (E : env) (rows : list movie_row)
    (ratings : list Sql.rating) : io (Z * Z) :=
  valid ← gets (fun w => valid_movie_ids (db w) rows);
  let original_ratings_count := Z.of_nat (length ratings) in
  let ratings_filtered := filter_ratings valid ratings in
  let filtered_count := Z.of_nat (length ratings_filtered) in
  let dropped := original_ratings_count - filtered_count in
  (if 0 <? dropped then print (FilteredRatings dropped) else mret tt);;
  inserted ← transaction (insert_ratings E ratings_filtered 0);
  print (RatingsInserted inserted);;
  mret (dropped, inserted).

(** [main], lines 161-322, on the parsed content of the two CSV files. *)
Definition main (E : env) (limit : option Z) (fast : bool)
    (movies_csv : list movie_row) (ratings_csv : list Sql.rating)
  : io (Z * Z) :=
  load_cache;;
  let rows := apply_limit limit movies_csv in
  metadata_phase E fast rows;;
  ratings_phase E rows ratings_csv.

End Etl.

(* ===================================================================== *)
(** ** [enrich_missing.py]                                               *)
(* ===================================================================== *)

Module Enrich.
Import World.

(** Lines 66-73: the document obtained from one round trip. *)
Definition document (r : reply) : json :=
  match r with
  | Json j => j
  | NotJson status_code _ =>
      failure (JStr ("HTTP " +:+ pretty status_code))
  | Failed why => failure (JStr ("Network error: " +:+ why))
  end.

(** Line 76: the markers of a rate limit or of a refused key. *)
Definition is_rate_limit (err : string) : bool :=
  str_in "request limit" err || str_in "limit reached" err
  || str_in "invalid api key" err.

(** [query_omdb], lines 48-84, called with the [cache] of [main]. *)
Definition query_omdb (E : env) (title : string) (year : option Z)
    (fast : bool) : io json :=
  let key := cache_key title year in
  cached ← gets (fun w => cache w !! key);
  match cached with
  | Some v => mret v
  | None =>
    limited ← gets OMDB_RATE_LIMITED;
    if fast || limited then remember key skipped_response
    else if no_api_key E then remember key no_key_response
    else
      r ← send E (ByTitle title (year_param year));
      let data := document r in
      err ← lift (error_text data);
      if is_rate_limit err
      then
        modify (with_rate_limited true);;
        error ← lift (get_default data "Error"
                        (JStr "rate limited/invalid key"));
        v ← remember key (failure error);
        print (RateLimitDetected error);;
        mret v
      else remember key data
  end.

(** [fetch_candidates], lines 118-139.  The driver binds [batch] to
    the parameter of [LIMIT] before the query runs, and refuses an
    integer outside 64 bits. *)
Definition fetch_candidates (batch : Z) : io (list (Z * string * option Z)) :=
  bound ← lift (Sql.bind_int batch);
  rows ← gets (fun w => Sql.select_candidates bound (db w));
  mret (map (fun r => (r.1.1.1, r.1.1.2, r.1.2)) rows).

(** Lines 147-160: the [fields] list with the values put in [params]. *)
Definition fields_of (data : Normalizer.record) : list (Sql.column * json) :=
  (if truthy (Normalizer.imdb_id data)
   then [(Sql.ImdbId, Normalizer.imdb_id data)] else [])
  ++ (if truthy (Normalizer.director data)
      then [(Sql.Director, Normalizer.director data)] else [])
  ++ (if truthy (Normalizer.plot data)
      then [(Sql.Plot, Normalizer.plot data)] else [])
  ++ (if truthy (Normalizer.box_office data)
      then [(Sql.BoxOffice, Normalizer.box_office data)] else [])
  ++ match Normalizer.released data with
     | Some d => if String.eqb d "" then [] else [(Sql.Released, JStr d)]
     | None => []
     end
  ++ match Normalizer.runtime_minutes data with
     | Some n => [(Sql.RuntimeMinutes, JNum n)]
     | None => []
     end.

(** [update_movie], lines 141-167 *)
Definition update_movie (E : env) (movie_id : Z) (data : Normalizer.record)
  : io bool :=
  match fields_of data with
  | [] => mret false
  | fields => execute E (Update movie_id fields);; mret true
  end.

(** Line 209: [omdb.copy()] with ["imdb_id"] set to [None]. *)
Definition data_no_imdb (omdb : Normalizer.record) : Normalizer.record :=
  {| Normalizer.imdb_id := JNull;
     Normalizer.director := Normalizer.director omdb;
     Normalizer.plot := Normalizer.plot omdb;
     Normalizer.box_office := Normalizer.box_office omdb;
     Normalizer.released := Normalizer.released omdb;
     Normalizer.runtime_minutes := Normalizer.runtime_minutes omdb |}.

(** Line 208: the condition of the retry. *)
Definition has_other_fields (omdb : Normalizer.record) : bool :=
  truthy (Normalizer.director omdb)
  || truthy (Normalizer.plot omdb)
  || truthy (Normalizer.box_office omdb)
  || match Normalizer.released omdb with
     | Some d => negb (String.eqb d "")
     | None => false
     end
  || match Normalizer.runtime_minutes omdb with
     | Some _ => true
     | None => false
     end.

(** Lines 196-212: the update and its retry; [conn.commit()] ends the
    implicit transaction and changes no table.  The result is the pair
    of counters [(enriched, skipped)]. *)
Definition write_record (E : env) (movie_id : Z) (omdb : Normalizer.record)
    (enriched skipped : Z) : io (Z * Z) :=
  try_except
    (updated ← update_movie E movie_id omdb;
     if updated : bool
     then print (Enriched movie_id);; mret (enriched + 1, skipped)
     else mret (enriched, skipped + 1))
    (fun e =>
       match e with
       | IntegrityError _ =>
           print IntegrityWarning;;
           if has_other_fields omdb then
             update_movie E movie_id (data_no_imdb omdb);;
             mret (enriched + 1, skipped)
           else mret (enriched, skipped)
       | _ => raise e
       end).

(** The body of the loop over the candidates, lines 189-214, after the
    rate-limit test of lines 186-188. *)
Definition process_candidate (E : env) (fast : bool)
    (candidate : Z * string * option Z) (enriched skipped : Z)
  : io (Z * Z) :=
  let '(movie_id, title, year) := candidate in
  omdb_raw ← query_omdb E title year fast;
  omdb ← (if truthy omdb_raw
          then lift (Normalizer.clean_omdb_response (strptime_iso E) omdb_raw)
          else mret None);
  match omdb with
  | None =>
      print (Skipped title);;
      mret (enriched, skipped + 1)
  | Some data =>
      counters ← write_record E movie_id data enriched skipped;
      save_cache;;
      mret counters
  end.

(** Lines 185-214 *)
Fixpoint enrich_loop (E : env) (fast : bool)
    (candidates : list (Z * string * option Z)) (enriched skipped : Z)
  : io (Z * Z) :=
  match candidates with
  | [] => mret (enriched, skipped)
  | candidate :: rest =>
      limited ← gets OMDB_RATE_LIMITED;
      if limited && negb fast then
        print Stopping;;
        mret (enriched, skipped)
      else
        counters ← process_candidate E fast candidate enriched skipped;
        enrich_loop E fast rest counters.1 counters.2
  end.

(** [main], lines 169-217; it returns [(enriched, skipped)]. *)
Definition main (E : env) (batch : Z) (fast : bool) : io (Z * Z) :=
  load_cache;;
  candidates ← fetch_candidates batch;
  match candidates with
  | [] => print NoCandidates;; mret (0, 0)
  | _ =>
      print (Found (length candidates));;
      counters ← enrich_loop E fast candidates 0 0;
      save_cache;;
      print (Done counters.1 counters.2);;
      mret counters
  end.

End Enrich.

(* ===================================================================== *)
(** ** Sequences of lookups                                              *)
(* ===================================================================== *)

Module Runs.
Import World.

Inductive script : Type := FullLoad | EnrichOnly.

Definition query_omdb (s : script)
  : env -> string -> option Z -> bool -> io json :=
  match s with
  | FullLoad => Etl.query_omdb
  | EnrichOnly => Enrich.query_omdb
  end.

Definition document (s : script) : reply -> json :=
  match s with
  | FullLoad => Etl.document
  | EnrichOnly => Enrich.document
  end.

Definition is_rate_limit (s : script) : string -> bool :=
  match s with
  | FullLoad => Etl.is_rate_limit
  | EnrichOnly => Enrich.is_rate_limit
  end.

(** Lookups made one after the other in the same run, each with its
    title, year and [fast] flag; the results are collected in order. *)
Fixpoint lookups (s : script) (E : env)
    (calls : list (string * option Z * bool)) : io (list json) :=
  match calls with
  | [] => mret []
  | (title, year, fast) :: calls' =>
      v ← query_omdb s E title year fast;
      vs ← lookups s E calls';
      mret (v :: vs)
  end.

(** What a lookup answers without the network: the cached value of the
    key, or else the synthetic skipped failure, which it caches. *)
Definition offline_answer (c : gmap string json) (key : string) : json :=
  default skipped_response (c !! key).

Fixpoint offline_answers (c : gmap string json)
    (calls : list (string * option Z * bool)) : list json :=
  match calls with
  | [] => []
  | (title, year, _) :: calls' =>
      let key := cache_key title year in
      let v := offline_answer c key in
      v :: offline_answers (<[key := v]> c) calls'
  end.

Fixpoint offline_cache (c : gmap string json)
    (calls : list (string * option Z * bool)) : gmap string json :=
  match calls with
  | [] => c
  | (title, year, _) :: calls' =>
      let key := cache_key title year in
      offline_cache (<[key := offline_answer c key]> c) calls'
  end.

End Runs.

(* ===================================================================== *)
(** ** Text helpers and the statement splitter                           *)
(* ===================================================================== *)

Module Text.

(** Every character of [s] passes the test [P]. *)
Fixpoint all_chars (P : ascii -> bool) (s : string) : bool :=
  match s with
  | EmptyString => true
  | String c s' => P c && all_chars P s'
  end.

Definition is_not (a c : ascii) : bool := negb (Ascii.eqb c a).

Definition not_space (c : ascii) : bool := negb (isspace c).

(** The characters of the decimal text of an integer. *)
Definition digit_or_dash (c : ascii) : bool := isdigit c || Ascii.eqb c "-".

(** [s.split(sep)] for a separator of one character. *)
Fixpoint split_char (sep : ascii) (s : string) : list string :=
  match s with
  | EmptyString => [EmptyString]
  | String c s' =>
      if Ascii.eqb c sep then EmptyString :: split_char sep s'
      else match split_char sep s' with
           | w :: ws => String c w :: ws
           | [] => [String c EmptyString]
           end
  end.

(** [[s.strip() for s in sql_text.split(';') if s.strip()]]: the
    statement splitter of [run_queries.py] (line 23) and of the schema
    application of [etl.py] (line 184). *)
Definition statements (sql_text : string) : list string :=
  map strip
    (List.filter (fun s => negb (String.eqb (strip s) ""))
       (split_char ";" sql_text)).

End Text.

(* ===================================================================== *)
(** ** Relations between the states before and after a computation       *)
(* ===================================================================== *)

Module Frame.
Import World.

(** Whatever its outcome, [m] takes a state to one related by [R]. *)
Definition steps (R : world -> world -> Prop) {A} (m : io A) : Prop :=
  forall w, R w (snd (m w)).

(** The entries of [omdb_cache.json]; none when the file is missing. *)
Definition file_content (w : world) : gmap string json :=
  default ∅ (cache_file w).

(** The identity of a movie row: what the enrichment reads and never
    writes. *)
Definition identity (m : Sql.movie) : Z * string * option Z :=
  (Sql.id m, Sql.title m, Sql.year m).

(** Once the entries of the cache file are in the cache, they stay in
    the cache and in the file. *)
Definition file_kept (w w' : world) : Prop :=
  (forall k v, file_content w !! k = Some v -> cache w !! k = Some v) ->
  (forall k v, file_content w' !! k = Some v -> cache w' !! k = Some v)
  /\ (forall k v, file_content w !! k = Some v -> file_content w' !! k = Some v).

(** The same movies in the same order, each with its identity, and the
    other three tables as they were. *)
Definition rows_kept (d d' : Sql.store) : Prop :=
  map identity (Sql.movies d') = map identity (Sql.movies d)
  /\ Sql.ratings d' = Sql.ratings d
  /\ Sql.genres d' = Sql.genres d
  /\ Sql.movie_genres d' = Sql.movie_genres d.

(** No row of any table is deleted: every movie identifier, rating,
    genre and association of [d] is in [d']. *)
Definition rows_grow (d d' : Sql.store) : Prop :=
  (forall i, In i (map Sql.id (Sql.movies d)) ->
             In i (map Sql.id (Sql.movies d')))
  /\ (forall r, In r (Sql.ratings d) -> In r (Sql.ratings d'))
  /\ (forall g, In g (Sql.genres d) -> In g (Sql.genres d'))
  /\ (forall mg, In mg (Sql.movie_genres d) -> In mg (Sql.movie_genres d')).

(** A relation between stores, read between the stores of two states. *)
Definition on_store (Q : Sql.store -> Sql.store -> Prop) (w w' : world)
  : Prop :=
  Q (db w) (db w').

(** Every rating refers to a stored movie. *)
Definition foreign_key (d : Sql.store) : Prop :=
  forall r, In r (Sql.ratings d) ->
            In (Sql.movie_id r) (map Sql.id (Sql.movies d)).

(** [w'] differs from [w] at most in the log of executed statements. *)
Definition only_logged (w w' : world) : Prop :=
  w' = with_executed (executed w') w.

(** The genre [g] is in the genres table and, unless its identifier is
    falsy, associated with the movie. *)
Definition linked (movie_id : Z) (g : string) (d : Sql.store) : Prop :=
  existsb (fun x => String.eqb (snd x) g) (Sql.genres d) = true
  /\ forall i, Sql.select_genre_id g d = Some i ->
       (i =? 0) = true
       \/ existsb (fun mg => (fst mg =? movie_id) && (snd mg =? i))
            (Sql.movie_genres d) = true.

(** The constraints of the four tables: the primary key and the unique
    external ID of the movies, unique names and identifiers of the
    genres, and no association stored twice. *)
Definition consistent (d : Sql.store) : Prop :=
  Sql.unique_ids d /\ Sql.unique_imdb d
  /\ NoDup (map snd (Sql.genres d))
  /\ NoDup (map fst (Sql.genres d))
  /\ NoDup (Sql.movie_genres d).

(** The value of a metadata column in a row. *)
Definition get_column (c : Sql.column) (m : Sql.movie) : Sql.value :=
  match c with
  | Sql.ImdbId => Sql.imdb_id m
  | Sql.Director => Sql.director m
  | Sql.Plot => Sql.plot m
  | Sql.BoxOffice => Sql.box_office m
  | Sql.Released => Sql.released m
  | Sql.RuntimeMinutes => Sql.runtime_minutes m
  end.

(** The metadata columns, in the order in which [update_movie] lists
    them. *)
Definition columns : list Sql.column :=
  [Sql.ImdbId; Sql.Director; Sql.Plot; Sql.BoxOffice; Sql.Released;
   Sql.RuntimeMinutes].

(** The value that [update_movie] binds for a column, when the field of
    the record is present. *)
Definition field_of (data : Normalizer.record) (c : Sql.column) : option json :=
  match c with
  | Sql.ImdbId =>
      if truthy (Normalizer.imdb_id data)
      then Some (Normalizer.imdb_id data) else None
  | Sql.Director =>
      if truthy (Normalizer.director data)
      then Some (Normalizer.director data) else None
  | Sql.Plot =>
      if truthy (Normalizer.plot data)
      then Some (Normalizer.plot data) else None
  | Sql.BoxOffice =>
      if truthy (Normalizer.box_office data)
      then Some (Normalizer.box_office data) else None
  | Sql.Released =>
      match Normalizer.released data with
      | Some d => if String.eqb d "" then None else Some (JStr d)
      | None => None
      end
  | Sql.RuntimeMinutes => JNum <$> Normalizer.runtime_minutes data
  end.

(** The largest number of requests that one lookup sends. *)
Definition request_bound (s : Runs.script) : nat :=
  match s with
  | Runs.FullLoad => 3
  | Runs.EnrichOnly => 1
  end.

End Frame.

(* ===================================================================== *)
(** ** Sample environments and states                                    *)
(* ===================================================================== *)

Module Samples.
Import World.

(** An endpoint that answers every request with the rate-limit error. *)
Definition limit_reached : json :=
  failure (JStr "Request limit reached!").

Definition toy_story : json :=
  JDict [("Title", JStr "Toy Story"); ("Released", JStr "22 Nov 1995");
         ("Runtime", JStr "81 min"); ("Director", JStr "John Lasseter");
         ("Plot", JStr "N/A"); ("BoxOffice", JStr "N/A");
         ("imdbID", JStr "tt0114709"); ("Response", JStr "True")].

Definition same_user_and_movie (a b : Sql.rating) : bool :=
  (Sql.user_id a =? Sql.user_id b) && (Sql.movie_id a =? Sql.movie_id b).

Definition limited_env : env :=
  {| OMDB_API_KEY := Some "k";
     http := fun _ _ => Json limit_reached;
     strptime_iso := Normalizer.strptime_reference;
     duplicate_rating := same_user_and_movie |}.

(** An endpoint that knows one film. *)
Definition toy_story_env : env :=
  {| OMDB_API_KEY := Some "k";
     http := fun _ q =>
       match q with
       | ByTitle "Toy Story" _ => Json toy_story
       | _ => Json (failure (JStr "Movie not found!"))
       end;
     strptime_iso := Normalizer.strptime_reference;
     duplicate_rating := same_user_and_movie |}.

Definition fresh (d : Sql.store) : world :=
  {| cache := ∅; OMDB_RATE_LIMITED := false; sent := [];
     db := d; executed := []; cache_file := None; saves := 0%nat;
     stdout := [] |}.

(** A store where movie 1 already holds the external ID of the film
    that the endpoint knows, and movie 2 has no metadata yet. *)
Definition bare_movie (i : Z) (t : string) (y : option Z) : Sql.movie :=
  {| Sql.id := i; Sql.title := t; Sql.year := y; Sql.imdb_id := Sql.Null;
     Sql.director := Sql.Null; Sql.plot := Sql.Null;
     Sql.box_office := Sql.Null; Sql.released := Sql.Null;
     Sql.runtime_minutes := Sql.Null |}.

Definition holder : Sql.movie :=
  Sql.set_column (bare_movie 1 "Toy Story" (Some 1995))
    (Sql.ImdbId, Sql.Text "tt0114709").

Definition rating_of (user movie : Z) : Sql.rating :=
  {| Sql.user_id := user; Sql.movie_id := movie;
     Sql.rating_value := 4 # 1; Sql.timestamp := Some 964982703 |}.

Definition one_movie : Sql.store :=
  Sql.with_movies [holder] Sql.empty.

Definition two_movies : Sql.store :=
  Sql.with_ratings [rating_of 7 2]
    (Sql.with_movies [holder; bare_movie 2 "Toy Story" (Some 1995)] Sql.empty).

(** A store for the candidate query.  Movies 1, 2 and 3 lack metadata
    and have one, three and two ratings; movie 4 has ratings and its
    metadata; movie 5 lacks metadata and has no rating. *)
Definition rated_movies : Sql.store :=
  Sql.with_ratings
    [rating_of 7 1; rating_of 7 2; rating_of 8 2; rating_of 9 2;
     rating_of 7 3; rating_of 8 3; rating_of 7 4; rating_of 8 4;
     rating_of 9 4; rating_of 10 4]
    (Sql.with_movies
       [bare_movie 1 "Heat" (Some 1995);
        bare_movie 2 "Toy Story" (Some 1995);
        Sql.set_column (bare_movie 3 "Casino" (Some 1995))
          (Sql.ImdbId, Sql.Text "tt0112641");
        Sql.set_column
          (Sql.set_column (bare_movie 4 "Jumanji" (Some 1995))
             (Sql.ImdbId, Sql.Text "tt0113497"))
          (Sql.Director, Sql.Text "Joe Johnston");
        bare_movie 5 "Sabrina" (Some 1995)]
       Sql.empty).

Definition toy_story_record : Normalizer.record :=
  {| Normalizer.imdb_id := JStr "tt0114709";
     Normalizer.director := JStr "John Lasseter";
     Normalizer.plot := JNull;
     Normalizer.box_office := JNull;
     Normalizer.released := Some "1995-11-22";
     Normalizer.runtime_minutes := Some 81 |}.

Definition second_copy : Etl.movie_row :=
  {| Etl.movieId := 2; Etl.raw_title := "Toy Story (1995)";
     Etl.genres_raw := "Animation|Children" |}.

(** The state after the lookup of the film from a fresh state. *)
Definition looked_up (d : Sql.store) : world :=
  with_sent [ByTitle "Toy Story" (Some 1995)]
    (with_cache {[ "Toy Story||1995" := toy_story ]} (fresh d)).

End Samples.

(* ===================================================================== *)
(** * Properties                                                         *)
(* ===================================================================== *)

Import World.

(** ** Response Normalizer *)

Section NormalizerFacts.

Variable strptime_iso : string -> string -> option string.

Lemma unless_na_marker : Normalizer.unless_na (JStr "N/A") = JNull.
Proof. reflexivity. Qed.

Lemma parse_runtime_marker : Normalizer.parse_runtime (JStr "N/A") = Ok None.
Proof. reflexivity. Qed.

Lemma parse_released_marker :
  Normalizer.parse_released strptime_iso (JStr "N/A") = None.
Proof. reflexivity. Qed.

(** Every field but the external ID goes through the marker test. *)
Lemma clean_marker_fields (d : list (string * json)) (rec : Normalizer.record) :
  Normalizer.clean_omdb_response strptime_iso (JDict d) = Ok (Some rec) ->
  (dict_get d "Director" = JStr "N/A" -> Normalizer.director rec = JNull)
  /\ (dict_get d "Plot" = JStr "N/A" -> Normalizer.plot rec = JNull)
  /\ (dict_get d "BoxOffice" = JStr "N/A" -> Normalizer.box_office rec = JNull)
  /\ (dict_get d "Released" = JStr "N/A" -> Normalizer.released rec = None)
  /\ (dict_get d "Runtime" = JStr "N/A" -> Normalizer.runtime_minutes rec = None)
  /\ Normalizer.imdb_id rec = dict_get d "imdbID".
Proof.
  unfold Normalizer.clean_omdb_response. cbn [get mbind result_bind].
  destruct (negb (truthy (JDict d))); [discriminate|].
  destruct (eq_str (dict_get d "Response") "False"); [discriminate|].
  destruct (Normalizer.parse_runtime (dict_get d "Runtime")) as [rt|e] eqn:Hrt;
    cbn; [|discriminate].
  intros [= <-]; cbn.
  repeat split; try (intros ->; reflexivity).
  intros Hna. rewrite Hna in Hrt. cbn in Hrt. congruence.
Qed.

(** The only test made outside a [try] is ["min" in runtime]. *)
Lemma parse_runtime_ok (runtime : json) :
  raises (Normalizer.parse_runtime runtime) = true <->
  (exists z, runtime = JNum z /\ z <> 0) \/ runtime = JBool true.
Proof.
  unfold Normalizer.parse_runtime.
  destruct runtime as [|b|z|s|l|d]; cbn.
  - split; [discriminate|]. intros [(z & ? & _)|?]; discriminate.
  - destruct b; cbn; split; auto; try discriminate.
    intros [(z & ? & _)|?]; discriminate.
  - destruct (Z.eqb_spec z 0); cbn; split; eauto; try discriminate.
    intros [(z' & [= <-] & Hz)|?]; [contradiction|discriminate].
  - destruct (negb (String.eqb s "")); cbn;
      [destruct (str_in "min" s); cbn|];
      (split; [discriminate|]; intros [(z & ? & _)|?]; discriminate).
  - destruct l; cbn; [|destruct (_ || _); cbn];
      (split; [discriminate|]; intros [(z & ? & _)|?]; discriminate).
  - destruct d; cbn; [|destruct (_ || _); cbn];
      (split; [discriminate|]; intros [(z & ? & _)|?]; discriminate).
Qed.

(** On a dict, the normalizer raises exactly when the ["Runtime"] value
    is a non-zero number or [True]. *)
Lemma clean_raises_iff (d : list (string * json)) :
  raises (Normalizer.clean_omdb_response strptime_iso (JDict d)) = true <->
  d <> [] /\ eq_str (dict_get d "Response") "False" = false
  /\ raises (Normalizer.parse_runtime (dict_get d "Runtime")) = true.
Proof.
  unfold Normalizer.clean_omdb_response. cbn [get mbind result_bind].
  destruct d as [|kv d']; cbn [truthy negb].
  - cbn. split; [discriminate|]. intros [H _]. congruence.
  - destruct (eq_str _ "False"); cbn [raises].
    + split; [discriminate|]. intros (_ & ? & _). discriminate.
    + destruct (Normalizer.parse_runtime _); cbn; split; auto;
        intros (_ & _ & ?); auto; discriminate.
Qed.

(** A document whose ["Runtime"] is text (or missing) is always
    normalized: no date or runtime text makes the function raise. *)
Lemma clean_total_on_text (d : list (string * json)) :
  (dict_get d "Runtime" = JNull \/ exists s, dict_get d "Runtime" = JStr s) ->
  exists o, Normalizer.clean_omdb_response strptime_iso (JDict d) = Ok o.
Proof.
  intros Hrt.
  destruct (Normalizer.clean_omdb_response strptime_iso (JDict d))
    as [o|e] eqn:Hc; [eauto|].
  assert (Hr : raises (Normalizer.clean_omdb_response strptime_iso (JDict d))
               = true) by (rewrite Hc; reflexivity).
  apply clean_raises_iff in Hr as (_ & _ & Hr).
  apply parse_runtime_ok in Hr as [(z & Hz & _)|Hb];
    destruct Hrt as [Hn|(s & Hs)]; congruence.
Qed.

(** C3: each scalar field equal to the marker ["N/A"] is meant to become
    absent, the external ID included.  On the response below the
    external ID of the record is the marker text itself: [imdbID] is
    copied without the test that its sibling fields go through. *)
Theorem clean_omdb_response_keeps_marker_as_external_id :
  Normalizer.clean_omdb_response strptime_iso
    (JDict [("Response", JStr "True"); ("imdbID", JStr "N/A");
            ("Director", JStr "N/A")])
  = Ok (Some {| Normalizer.imdb_id := JStr "N/A";
                Normalizer.director := JNull;
                Normalizer.plot := JNull;
                Normalizer.box_office := JNull;
                Normalizer.released := None;
                Normalizer.runtime_minutes := None |}).
Proof. reflexivity. Qed.

(** C5: the normalizer is meant to return a record or absent on any
    document and never to raise.  On a document whose ["Runtime"] is
    the number 142 it raises [TypeError]: the membership test on the
    runtime is evaluated before the protected block is entered. *)
Theorem clean_omdb_response_raises_on_numeric_runtime :
  Normalizer.clean_omdb_response strptime_iso
    (JDict [("Response", JStr "True"); ("Runtime", JNum 142)])
  = Raise TypeError.
Proof. reflexivity. Qed.

End NormalizerFacts.

(** ** The Client *)

Ltac io_unfold :=
  unfold remember, print, save_cache, load_cache, send, execute,
    try_except, transaction, gets, modify, lift, raise,
    mbind, mret, io_bind, io_ret in *.

Lemma remember_spec (key : string) (v : json) (w : world) :
  remember key v w = (Ok v, with_cache (<[key := v]> (cache w)) w).
Proof. reflexivity. Qed.

Lemma query_hit (s : Runs.script) (E : env) (title : string) (year : option Z)
    (fast : bool) (w : world) (v : json) :
  cache w !! cache_key title year = Some v ->
  Runs.query_omdb s E title year fast w = (Ok v, w).
Proof.
  intros Hhit. destruct s; cbn [Runs.query_omdb];
    unfold Etl.query_omdb, Enrich.query_omdb; io_unfold.
  all: rewrite Hhit; reflexivity.
Qed.

Lemma query_offline (s : Runs.script) (E : env) (title : string)
    (year : option Z) (fast : bool) (w : world) :
  cache w !! cache_key title year = None ->
  fast || OMDB_RATE_LIMITED w = true ->
  Runs.query_omdb s E title year fast w
  = (Ok skipped_response,
     with_cache (<[cache_key title year := skipped_response]> (cache w)) w).
Proof.
  intros Hmiss Hoff. destruct s; cbn [Runs.query_omdb];
    unfold Etl.query_omdb, Enrich.query_omdb; io_unfold.
  all: rewrite Hmiss, Hoff; reflexivity.
Qed.

Lemma query_no_key (s : Runs.script) (E : env) (title : string)
    (year : option Z) (fast : bool) (w : world) :
  cache w !! cache_key title year = None ->
  fast || OMDB_RATE_LIMITED w = false ->
  no_api_key E = true ->
  Runs.query_omdb s E title year fast w
  = (Ok no_key_response,
     with_cache (<[cache_key title year := no_key_response]> (cache w)) w).
Proof.
  intros Hmiss Hon Hkey. destruct s; cbn [Runs.query_omdb];
    unfold Etl.query_omdb, Enrich.query_omdb; io_unfold.
  all: rewrite Hmiss, Hon, Hkey; reflexivity.
Qed.

Lemma query_caches_result (s : Runs.script) (E : env) (title : string)
    (year : option Z) (fast : bool) (w w1 : world) (v : json) :
  Runs.query_omdb s E title year fast w = (Ok v, w1) ->
  cache w1 !! cache_key title year = Some v.
Proof.
  destruct s; cbn [Runs.query_omdb];
    unfold Etl.query_omdb, Enrich.query_omdb, Etl.search_fallback, Etl._call;
    io_unfold; intros H.
  all: repeat (case_match; simplify_eq/=); try done.
  all: try apply lookup_insert_eq.
Qed.

Lemma with_cache_same (w : world) : with_cache (cache w) w = w.
Proof. destruct w; reflexivity. Qed.

(** Without the network a lookup answers from the cache, or with the
    synthetic skipped failure, and sends nothing. *)
Lemma query_degraded (s : Runs.script) (E : env) (title : string)
    (year : option Z) (fast : bool) (w : world) :
  fast || OMDB_RATE_LIMITED w = true ->
  let key := cache_key title year in
  let v := Runs.offline_answer (cache w) key in
  Runs.query_omdb s E title year fast w
  = (Ok v, with_cache (<[key := v]> (cache w)) w).
Proof.
  intros Hoff key v. subst v. unfold Runs.offline_answer.
  destruct (cache w !! key) as [v|] eqn:Hc; cbn [default].
  - rewrite (query_hit _ _ _ _ _ _ v Hc).
    rewrite insert_id by exact Hc. by rewrite with_cache_same.
  - by apply query_offline.
Qed.

Lemma lookups_degraded (s : Runs.script) (E : env)
    (calls : list (string * option Z * bool)) (w : world) :
  OMDB_RATE_LIMITED w = true ->
  Runs.lookups s E calls w
  = (Ok (Runs.offline_answers (cache w) calls),
     with_cache (Runs.offline_cache (cache w) calls) w).
Proof.
  revert w. induction calls as [|[[title year] fast] calls IH]; intros w Hlim.
  - cbn. by rewrite with_cache_same.
  - cbn [Runs.lookups Runs.offline_answers Runs.offline_cache].
    unfold mbind at 1, io_bind at 1.
    rewrite query_degraded by (rewrite Hlim; apply orb_true_r).
    cbn zeta. unfold mbind at 1, io_bind at 1.
    rewrite IH by exact Hlim. reflexivity.
Qed.

Lemma marker_not_empty (s : Runs.script) (err : string) :
  Runs.is_rate_limit s err = true -> err <> "".
Proof. intros H ->. destruct s; discriminate. Qed.

(** The lookup that meets a marker sets the flag and caches the failure. *)
Lemma query_sets_flag (s : Runs.script) (E : env) (title : string)
    (year : option Z) (w : world) (d : list (string * json)) (err : string) :
  cache w !! cache_key title year = None ->
  OMDB_RATE_LIMITED w = false ->
  no_api_key E = false ->
  Runs.document s (http E (sent w) (ByTitle title (year_param year))) = JDict d ->
  (s = Runs.FullLoad -> eq_str (dict_get d "Response") "True" = false) ->
  error_text (JDict d) = Ok err ->
  Runs.is_rate_limit s err = true ->
  exists w1,
    Runs.query_omdb s E title year false w
    = (Ok (failure (dict_get d "Error")), w1)
    /\ OMDB_RATE_LIMITED w1 = true
    /\ sent w1 = ByTitle title (year_param year) :: sent w
    /\ cache w1 = <[cache_key title year := failure (dict_get d "Error")]> (cache w).
Proof.
  intros Hmiss Hflag Hkey Hdoc Hresp Herr Hmark.
  assert (Hne := marker_not_empty _ _ Hmark).
  assert (Hsome : default (JStr "rate limited/invalid key") (Py.assoc "Error" d)
                  = dict_get d "Error").
  { unfold dict_get. destruct (Py.assoc "Error" d) as [e|] eqn:Ha; [reflexivity|].
    unfold error_text in Herr. cbn in Herr. unfold dict_get in Herr.
    rewrite Ha in Herr. cbn in Herr. congruence. }
  destruct s; cbn [Runs.query_omdb Runs.document Runs.is_rate_limit] in *;
    unfold Etl.query_omdb, Enrich.query_omdb, Etl._call; io_unfold;
    rewrite Hmiss, Hflag, Hkey; cbn [orb]; rewrite Hdoc, Herr.
  - cbn [get]. rewrite (Hresp eq_refl), Hmark. cbn [get_default].
    rewrite Hsome. eexists; repeat split; reflexivity.
  - rewrite Hmark. cbn [get_default]. rewrite Hsome.
    eexists; repeat split; reflexivity.
Qed.

(** C2 as stated does not hold: after the flag is set, a lookup whose key
    is already cached returns the cached value, here a success, and not
    the synthetic skipped failure. *)
Lemma degraded_lookup_returns_cached_success :
  let w0 := with_cache {[ "Toy Story||1995" := Samples.toy_story ]}
              (Samples.fresh Sql.empty) in
  let w1 := snd (Etl.query_omdb Samples.limited_env "Heat" (Some 1995) false w0) in
  OMDB_RATE_LIMITED w0 = false
  /\ OMDB_RATE_LIMITED w1 = true
  /\ fst (Etl.query_omdb Samples.limited_env "Toy Story" (Some 1995) false w1)
     = Ok Samples.toy_story
  /\ Samples.toy_story <> skipped_response.
Proof. repeat split. discriminate. Qed.

(** C2, amended: once a lookup's error text, lowered, contains a marker of
    the script (for the full load: on a response that is not a success),
    the flag is set; every later lookup of the run sends nothing, and
    returns the cached value of its key if there is one and the synthetic
    skipped failure otherwise. *)
Theorem rate_limit_degrade (s : Runs.script) (E : env) (title : string)
    (year : option Z) (w : world) (d : list (string * json)) (err : string)
    (calls : list (string * option Z * bool)) :
  cache w !! cache_key title year = None ->
  OMDB_RATE_LIMITED w = false ->
  no_api_key E = false ->
  Runs.document s (http E (sent w) (ByTitle title (year_param year))) = JDict d ->
  (s = Runs.FullLoad -> eq_str (dict_get d "Response") "True" = false) ->
  error_text (JDict d) = Ok err ->
  Runs.is_rate_limit s err = true ->
  exists w1 w2,
    Runs.query_omdb s E title year false w
    = (Ok (failure (dict_get d "Error")), w1)
    /\ OMDB_RATE_LIMITED w1 = true
    /\ Runs.lookups s E calls w1
       = (Ok (Runs.offline_answers (cache w1) calls), w2)
    /\ sent w2 = sent w1
    /\ OMDB_RATE_LIMITED w2 = true.
Proof.
  intros Hmiss Hflag Hkey Hdoc Hresp Herr Hmark.
  destruct (query_sets_flag s E title year w d err) as (w1 & Hq & Hlim & _);
    try assumption.
  exists w1, (with_cache (Runs.offline_cache (cache w1) calls) w1).
  split; [exact Hq|]. split; [exact Hlim|].
  split; [by apply lookups_degraded|]. split; [reflexivity|exact Hlim].
Qed.

Lemma rate_limit_degrade_witness :
  let s := Runs.FullLoad in
  let E := Samples.limited_env in
  let w := with_cache {[ "Toy Story||1995" := Samples.toy_story ]}
             (Samples.fresh Sql.empty) in
  let d := [("Response", JStr "False");
            ("Error", JStr "Request limit reached!")] in
  let calls := [("Toy Story", Some 1995, false); ("Jumanji", Some 1995, false);
                ("Jumanji", Some 1995, false)] in
  (cache w !! cache_key "Heat" (Some 1995) = None
   /\ OMDB_RATE_LIMITED w = false
   /\ no_api_key E = false
   /\ Runs.document s (http E (sent w) (ByTitle "Heat" (year_param (Some 1995))))
      = JDict d
   /\ (s = Runs.FullLoad -> eq_str (dict_get d "Response") "True" = false)
   /\ error_text (JDict d) = Ok "request limit reached!"
   /\ Runs.is_rate_limit s "request limit reached!" = true)
  /\ exists w1 w2,
       Runs.query_omdb s E "Heat" (Some 1995) false w
       = (Ok (failure (dict_get d "Error")), w1)
       /\ OMDB_RATE_LIMITED w1 = true
       /\ Runs.lookups s E calls w1
          = (Ok (Runs.offline_answers (cache w1) calls), w2)
       /\ sent w2 = sent w1
       /\ OMDB_RATE_LIMITED w2 = true.
Proof.
  cbv zeta. split.
  - repeat split.
  - apply (rate_limit_degrade Runs.FullLoad Samples.limited_env "Heat"
             (Some 1995) _ _ "request limit reached!");
      solve [reflexivity | intros _; reflexivity].
Defined.

(** C4: a lookup that returns has written its result in the cache under
    its key; a second lookup of the key in the same cache returns the
    same value and leaves the run state, and so the list of requests
    sent, as it was. *)
Theorem second_lookup_is_cached (s : Runs.script) (E : env) (title : string)
    (year : option Z) (fast : bool) (w w1 : world) (v : json) :
  Runs.query_omdb s E title year fast w = (Ok v, w1) ->
  cache w1 !! cache_key title year = Some v
  /\ forall (E' : env) (fast' : bool),
       Runs.query_omdb s E' title year fast' w1 = (Ok v, w1)
       /\ sent (snd (Runs.query_omdb s E' title year fast' w1)) = sent w1.
Proof.
  intros Hfirst.
  assert (Hc := query_caches_result _ _ _ _ _ _ _ _ Hfirst).
  split; [exact Hc|]. intros E' fast'.
  rewrite (query_hit s E' title year fast' w1 v Hc). split; reflexivity.
Qed.

Lemma second_lookup_is_cached_witness :
  let E := Samples.toy_story_env in
  let w := Samples.fresh Sql.empty in
  let w1 := with_sent [ByTitle "Toy Story" (Some 1995)]
              (with_cache {[ "Toy Story||1995" := Samples.toy_story ]} w) in
  Runs.query_omdb Runs.FullLoad E "Toy Story" (Some 1995) false w
  = (Ok Samples.toy_story, w1)
  /\ cache w1 !! cache_key "Toy Story" (Some 1995) = Some Samples.toy_story
  /\ forall (E' : env) (fast' : bool),
       Runs.query_omdb Runs.FullLoad E' "Toy Story" (Some 1995) fast' w1
       = (Ok Samples.toy_story, w1)
       /\ sent (snd (Runs.query_omdb Runs.FullLoad E' "Toy Story" (Some 1995)
                       fast' w1)) = sent w1.
Proof.
  cbv zeta. split; [reflexivity|].
  apply (second_lookup_is_cached Runs.FullLoad Samples.toy_story_env
           "Toy Story" (Some 1995) false (Samples.fresh Sql.empty)).
  reflexivity.
Defined.

(** C9: the cache is looked up before the fast-mode, rate-limit and
    API-key tests, and the synthetic failures of these tests are cached.
    So a lookup that finds none of its key in the cache and runs in fast
    mode, under the flag or without a key caches a synthetic failure;
    and whenever the cache of a run, of this one or of a later one that
    loaded the saved file, holds this entry, the lookup returns it and
    sends nothing, whatever the mode, the flag and the key. *)
Theorem synthetic_failure_is_sticky (s : Runs.script) (E : env)
    (title : string) (year : option Z) (fast : bool) (w : world) :
  cache w !! cache_key title year = None ->
  fast || OMDB_RATE_LIMITED w || no_api_key E = true ->
  exists v,
    (v = skipped_response \/ v = no_key_response)
    /\ Runs.query_omdb s E title year fast w
       = (Ok v, with_cache (<[cache_key title year := v]> (cache w)) w)
    /\ (forall (s' : Runs.script) (E' : env) (fast' : bool) (w' : world),
          cache w' !! cache_key title year = Some v ->
          Runs.query_omdb s' E' title year fast' w' = (Ok v, w'))
    /\ (forall (s' : Runs.script) (E' : env) (fast' : bool) (w' : world)
               (saved : gmap string json),
          cache_file w' = Some saved ->
          saved !! cache_key title year = Some v ->
          (load_cache;; Runs.query_omdb s' E' title year fast') w'
          = (Ok v, with_cache saved w')).
Proof.
  intros Hmiss Hoff.
  destruct (fast || OMDB_RATE_LIMITED w) eqn:Hfl; cbn [orb] in Hoff.
  - exists skipped_response. split; [by left|].
    split; [by apply query_offline|]. split.
    + intros s' E' fast' w' Hc. by apply query_hit.
    + intros s' E' fast' w' saved Hfile Hc.
      unfold load_cache, modify, mbind, io_bind. rewrite Hfile. cbn [default].
      by apply query_hit.
  - exists no_key_response. split; [by right|].
    split; [by apply query_no_key|]. split.
    + intros s' E' fast' w' Hc. by apply query_hit.
    + intros s' E' fast' w' saved Hfile Hc.
      unfold load_cache, modify, mbind, io_bind. rewrite Hfile. cbn [default].
      by apply query_hit.
Qed.

Lemma synthetic_failure_is_sticky_witness :
  let w := Samples.fresh Sql.empty in
  (cache w !! cache_key "Heat" (Some 1995) = None
   /\ true || OMDB_RATE_LIMITED w || no_api_key Samples.toy_story_env = true)
  /\ exists v,
       (v = skipped_response \/ v = no_key_response)
       /\ Runs.query_omdb Runs.EnrichOnly Samples.toy_story_env "Heat"
            (Some 1995) true w
          = (Ok v, with_cache (<[cache_key "Heat" (Some 1995) := v]> (cache w)) w)
       /\ (forall (s' : Runs.script) (E' : env) (fast' : bool) (w' : world),
             cache w' !! cache_key "Heat" (Some 1995) = Some v ->
             Runs.query_omdb s' E' "Heat" (Some 1995) fast' w' = (Ok v, w'))
       /\ (forall (s' : Runs.script) (E' : env) (fast' : bool) (w' : world)
                  (saved : gmap string json),
             cache_file w' = Some saved ->
             saved !! cache_key "Heat" (Some 1995) = Some v ->
             (load_cache;; Runs.query_omdb s' E' "Heat" (Some 1995) fast') w'
             = (Ok v, with_cache saved w')).
Proof.
  cbv zeta. split; [split; reflexivity|].
  apply (synthetic_failure_is_sticky Runs.EnrichOnly Samples.toy_story_env
           "Heat" (Some 1995) true (Samples.fresh Sql.empty)); reflexivity.
Defined.

(** ** The enrichment-only orchestrator *)

(** A lookup touches neither the store nor the cache file. *)
Lemma query_frame (s : Runs.script) (E : env) (title : string)
    (year : option Z) (fast : bool) (w : world) :
  let w' := snd (Runs.query_omdb s E title year fast w) in
  db w' = db w /\ executed w' = executed w
  /\ cache_file w' = cache_file w /\ saves w' = saves w.
Proof.
  destruct s; cbn [Runs.query_omdb];
    unfold Etl.query_omdb, Enrich.query_omdb, Etl.search_fallback, Etl._call;
    io_unfold.
  all: repeat (case_match; simplify_eq/=); done.
Qed.

Lemma clean_some_truthy (strptime_iso : string -> string -> option string)
    (raw : json) (data : Normalizer.record) :
  Normalizer.clean_omdb_response strptime_iso raw = Ok (Some data) ->
  truthy raw = true.
Proof.
  unfold Normalizer.clean_omdb_response.
  destruct (truthy raw); [reflexivity|discriminate].
Qed.

(** C10: when every field of the canonical partial-record is absent,
    [update_movie] executes no statement, leaves the run state, and so
    every movie row, as it was, and returns [False]; the loop body then
    adds one to [skipped] and nothing to [enriched]. *)
Theorem update_only_skips_empty_record (E : env) (movie_id : Z)
    (title : string) (year : option Z) (fast : bool) (enriched skipped : Z)
    (w w1 : world) (raw : json) (data : Normalizer.record) :
  Normalizer.imdb_id data = JNull ->
  Normalizer.director data = JNull ->
  Normalizer.plot data = JNull ->
  Normalizer.box_office data = JNull ->
  Normalizer.released data = None ->
  Normalizer.runtime_minutes data = None ->
  Enrich.query_omdb E title year fast w = (Ok raw, w1) ->
  Normalizer.clean_omdb_response (strptime_iso E) raw = Ok (Some data) ->
  Enrich.update_movie E movie_id data w1 = (Ok false, w1)
  /\ exists w2,
       Enrich.process_candidate E fast (movie_id, title, year) enriched skipped w
       = (Ok (enriched, skipped + 1), w2)
       /\ db w2 = db w /\ executed w2 = executed w.
Proof.
  intros Hi Hd Hp Hb Hr Hm Hq Hclean.
  assert (Hup : Enrich.update_movie E movie_id data w1 = (Ok false, w1)).
  { unfold Enrich.update_movie, Enrich.fields_of.
    rewrite Hi, Hd, Hp, Hb, Hr, Hm. reflexivity. }
  split; [exact Hup|].
  destruct (query_frame Runs.EnrichOnly E title year fast w) as (Hdb & Hex & _).
  cbn [Runs.query_omdb] in Hdb, Hex. rewrite Hq in Hdb, Hex. cbn [snd] in Hdb, Hex.
  unfold Enrich.process_candidate, Enrich.write_record.
  unfold mbind at 1, io_bind at 1. rewrite Hq.
  rewrite (clean_some_truthy _ _ _ Hclean).
  unfold mbind at 1, io_bind at 1, lift at 1. rewrite Hclean.
  unfold mbind at 1, io_bind at 1, try_except at 1.
  unfold mbind at 1, io_bind at 1. rewrite Hup.
  eexists. split; [reflexivity|]. split; assumption.
Qed.

Lemma update_only_skips_empty_record_witness :
  let E := Samples.toy_story_env in
  let raw := JDict [("Response", JStr "True")] in
  let data := {| Normalizer.imdb_id := JNull; Normalizer.director := JNull;
                 Normalizer.plot := JNull; Normalizer.box_office := JNull;
                 Normalizer.released := None;
                 Normalizer.runtime_minutes := None |} in
  let w := with_cache {[ "Heat||1995" := raw ]} (Samples.fresh Sql.empty) in
  (Enrich.query_omdb E "Heat" (Some 1995) false w = (Ok raw, w)
   /\ Normalizer.clean_omdb_response (strptime_iso E) raw = Ok (Some data))
  /\ Enrich.update_movie E 6 data w = (Ok false, w)
  /\ exists w2,
       Enrich.process_candidate E false (6, "Heat", Some 1995) 0 0 w
       = (Ok (0, 0 + 1), w2)
       /\ db w2 = db w /\ executed w2 = executed w.
Proof.
  cbv zeta. split; [split; reflexivity|].
  apply (update_only_skips_empty_record Samples.toy_story_env 6 "Heat"
           (Some 1995) false 0 0 _ _ (JDict [("Response", JStr "True")]));
    reflexivity.
Defined.

(** A candidate without usable metadata leaves the loop body before the
    cache is written to its file. *)
Lemma skipped_candidate_frame (E : env) (fast : bool) (movie_id : Z)
    (title : string) (year : option Z) (enriched skipped : Z)
    (w w1 : world) (raw : json) :
  Enrich.query_omdb E title year fast w = (Ok raw, w1) ->
  (if truthy raw
   then Normalizer.clean_omdb_response (strptime_iso E) raw
   else Ok None) = Ok None ->
  Enrich.process_candidate E fast (movie_id, title, year) enriched skipped w
  = (Ok (enriched, skipped + 1), with_stdout (Skipped title :: stdout w1) w1)
  /\ saves w1 = saves w /\ cache_file w1 = cache_file w.
Proof.
  intros Hq Hclean.
  destruct (query_frame Runs.EnrichOnly E title year fast w) as (_ & _ & Hf & Hs).
  cbn [Runs.query_omdb] in Hf, Hs. rewrite Hq in Hf, Hs. cbn [snd] in Hf, Hs.
  split; [|split; assumption].
  unfold Enrich.process_candidate.
  unfold mbind at 1, io_bind at 1. rewrite Hq.
  unfold mbind at 1, io_bind at 1.
  destruct (truthy raw).
  - unfold lift at 1. rewrite Hclean. reflexivity.
  - reflexivity.
Qed.

(** C8: in enrichment-only mode the cache is meant to be written to its
    file after every processed record, the skipped ones included.  The
    record below is looked up over the network, the failure is cached in
    memory, the record is counted as skipped, and the loop body ends
    without any write to the file. *)
Theorem skipped_record_is_not_flushed :
  let w := Samples.fresh Sql.empty in
  let r := Enrich.process_candidate Samples.toy_story_env false
             (6, "Heat", Some 1995) 0 0 w in
  fst r = Ok (0, 1)
  /\ sent (snd r) = [ByTitle "Heat" (Some 1995)]
  /\ cache (snd r) !! "Heat||1995" = Some (failure (JStr "Movie not found!"))
  /\ saves (snd r) = 0%nat
  /\ cache_file (snd r) = None.
Proof. repeat split. Qed.

(** ** The movies table *)

Section MoviesTable.

Implicit Types (ms : list Sql.movie) (row old m : Sql.movie) (i j : Z).

Lemma find_row_id ms i m :
  find (fun m => Sql.id m =? i) ms = Some m -> Sql.id m = i.
Proof. intros H. apply find_some in H as [_ H]. lia. Qed.

Lemma find_replace_same ms row old :
  find (fun m => Sql.id m =? Sql.id row) ms = Some old ->
  find (fun m => Sql.id m =? Sql.id row) (Sql.replace_row row ms) = Some row.
Proof.
  induction ms as [|m ms IH]; cbn; [discriminate|].
  destruct (Z.eqb_spec (Sql.id m) (Sql.id row)) as [Heq|Hne]; cbn.
  - intros _. by rewrite Z.eqb_refl.
  - intros H. destruct (Z.eqb_spec (Sql.id m) (Sql.id row)); [lia|]. by apply IH.
Qed.

Lemma find_replace_other ms row j :
  j <> Sql.id row ->
  find (fun m => Sql.id m =? j) (Sql.replace_row row ms)
  = find (fun m => Sql.id m =? j) ms.
Proof.
  intros Hj. induction ms as [|m ms IH]; cbn; [reflexivity|].
  destruct (Z.eqb_spec (Sql.id m) (Sql.id row)) as [Heq|Hne]; cbn.
  - destruct (Z.eqb_spec (Sql.id row) j); [lia|].
    destruct (Z.eqb_spec (Sql.id m) j); [lia|]. reflexivity.
  - destruct (Sql.id m =? j); [reflexivity|exact IH].
Qed.

Lemma find_append_new ms row :
  find (fun m => Sql.id m =? Sql.id row) ms = None ->
  find (fun m => Sql.id m =? Sql.id row) (ms ++ [row]) = Some row.
Proof.
  induction ms as [|m ms IH]; cbn.
  - intros _. by rewrite Z.eqb_refl.
  - destruct (Sql.id m =? Sql.id row); [discriminate|exact IH].
Qed.

Lemma find_append_other ms row j :
  j <> Sql.id row ->
  find (fun m => Sql.id m =? j) (ms ++ [row])
  = find (fun m => Sql.id m =? j) ms.
Proof.
  intros Hj. induction ms as [|m ms IH]; cbn.
  - destruct (Z.eqb_spec (Sql.id row) j); [lia|reflexivity].
  - destruct (Sql.id m =? j); [reflexivity|exact IH].
Qed.

Lemma replace_found_same ms old i :
  find (fun m => Sql.id m =? i) ms = Some old ->
  Sql.replace_row old ms = ms.
Proof.
  induction ms as [|m ms IH]; cbn; [discriminate|].
  destruct (Z.eqb_spec (Sql.id m) i) as [Heq|Hne].
  - intros [= <-]. by rewrite Z.eqb_refl.
  - intros H. assert (Sql.id old = i) by (by apply (find_row_id ms)).
    destruct (Z.eqb_spec (Sql.id m) (Sql.id old)); [lia|].
    f_equal. by apply IH.
Qed.

Lemma with_movies_same (d : Sql.store) : Sql.with_movies (Sql.movies d) d = d.
Proof. destruct d; reflexivity. Qed.

Lemma coalesce_null_r (v : Sql.value) : Sql.coalesce v Sql.Null = v.
Proof. destruct v; reflexivity. Qed.

Lemma bind_int_ok (z z' : Z) : Sql.bind_int z = Ok z' -> z' = z.
Proof. unfold Sql.bind_int. destruct (Sql.int64 z); congruence. Qed.

End MoviesTable.

(** ** The write and its retry, full load *)

Lemma bind_int_exn (z : Z) (e : exn) :
  Sql.bind_int z = Raise e -> e = OverflowError.
Proof. unfold Sql.bind_int. destruct (Sql.int64 z); congruence. Qed.

Lemma bind_opt_int_exn (o : option Z) (e : exn) :
  Sql.bind_opt_int o = Raise e -> e = OverflowError.
Proof.
  destruct o as [z|]; cbn; [|discriminate].
  destruct (Sql.bind_int z) eqn:Hz; cbn; [discriminate|].
  intros [= <-]. by apply (bind_int_exn z).
Qed.

Lemma bind_exn (v : json) (e : exn) :
  Sql.bind v = Raise e -> e = OverflowError \/ e = InterfaceError.
Proof.
  destruct v; cbn; try discriminate; try (intros [= <-]; auto).
  destruct (Sql.int64 z); [discriminate|]. intros [= <-]; auto.
Qed.

Ltac bind_cases :=
  repeat match goal with
    | |- context [mbind _ ?m] =>
        let H := fresh "Hbind" in
        destruct m eqn:H; cbn [mbind result_bind]
    end.

Lemma excluded_row_exn (p : Sql.upsert_params) (e : exn) :
  Sql.excluded_row p = Raise e -> e = OverflowError \/ e = InterfaceError.
Proof.
  unfold Sql.excluded_row. bind_cases; intros [= <-];
    eauto using bind_int_exn, bind_opt_int_exn, bind_exn.
Qed.

Lemma excluded_row_id (p : Sql.upsert_params) (excluded : Sql.movie) :
  Sql.excluded_row p = Ok excluded -> Sql.id excluded = Sql.p_id p.
Proof.
  unfold Sql.excluded_row. bind_cases; intros [= <-]. cbn.
  by apply bind_int_ok.
Qed.

Lemma excluded_row_no_imdb (p : Sql.upsert_params) (excluded : Sql.movie) :
  Sql.excluded_row p = Ok excluded ->
  Sql.excluded_row (Etl.params_no_imdb p)
  = Ok (Sql.set_column excluded (Sql.ImdbId, Sql.Null)).
Proof.
  unfold Sql.excluded_row.
  cbn [Etl.params_no_imdb Sql.p_id Sql.p_year Sql.p_imdb_id Sql.p_director
       Sql.p_plot Sql.p_box_office Sql.p_runtime Sql.p_title Sql.p_released].
  destruct (Sql.bind_int _); cbn [mbind result_bind]; [|discriminate].
  destruct (Sql.bind_opt_int (Sql.p_year p)); cbn [mbind result_bind];
    [|discriminate].
  destruct (Sql.bind (Sql.p_imdb_id p)); cbn [mbind result_bind Sql.bind];
    [|discriminate].
  destruct (Sql.bind (Sql.p_director p)); cbn [mbind result_bind];
    [|discriminate].
  destruct (Sql.bind (Sql.p_plot p)); cbn [mbind result_bind]; [|discriminate].
  destruct (Sql.bind (Sql.p_box_office p)); cbn [mbind result_bind];
    [|discriminate].
  destruct (Sql.bind_opt_int (Sql.p_runtime p)); cbn [mbind result_bind];
    [|discriminate].
  intros [= <-]. reflexivity.
Qed.

(** The row that the fallback statement writes. *)
Lemma upsert_fallback_ok (p : Sql.upsert_params) (d : Sql.store)
    (excluded : Sql.movie) :
  Sql.excluded_row p = Ok excluded ->
  exists d' row,
    Sql.upsert false (Etl.params_no_imdb p) d = Ok d'
    /\ Sql.find_movie (Sql.p_id p) d' = Some row
    /\ row = match Sql.find_movie (Sql.p_id p) d with
             | Some old =>
                 Sql.merged_row false
                   (Sql.set_column excluded (Sql.ImdbId, Sql.Null)) old
             | None => Sql.set_column excluded (Sql.ImdbId, Sql.Null)
             end
    /\ forall j, j <> Sql.p_id p -> Sql.find_movie j d' = Sql.find_movie j d.
Proof.
  intros Hex. assert (Hid := excluded_row_id _ _ Hex).
  unfold Sql.upsert. rewrite (excluded_row_no_imdb _ _ Hex).
  cbn [mbind result_bind Sql.set_column fst snd Sql.id]. rewrite Hid.
  unfold Sql.find_movie.
  destruct (find _ (Sql.movies d)) as [old|] eqn:Hfind.
  - assert (Hold := find_row_id _ _ _ Hfind).
    cbn [andb]. eexists _, _. split; [reflexivity|].
    cbn [Sql.movies Sql.with_movies].
    split; [|split; [reflexivity|]].
    + rewrite <- Hold in Hfind |- *.
      apply (find_replace_same _ (Sql.merged_row false _ old) old). exact Hfind.
    + intros j Hj. apply find_replace_other. cbn. lia.
  - cbn [Sql.imdb_taken Sql.imdb_id Sql.is_null negb andb].
    eexists _, _. split; [reflexivity|].
    cbn [Sql.movies Sql.with_movies].
    split; [|split; [reflexivity|]].
    + rewrite <- Hid in Hfind |- *.
      apply (find_append_new _ (Sql.set_column excluded (Sql.ImdbId, Sql.Null))).
      exact Hfind.
    + intros j Hj. apply find_append_other. cbn. lia.
Qed.

Lemma integrity_message_matches :
  let msg := lower (Etl.str_of_integrity_error Sql.unique_imdb_msg) in
  str_in "imdb_id" msg
  || str_in "unique constraint failed: movies.imdb_id" msg = true.
Proof. reflexivity. Qed.

Lemma upsert_raises_bound (p : Sql.upsert_params) (d : Sql.store) (m : string) :
  Sql.upsert true p d = Raise (IntegrityError m) ->
  exists excluded, Sql.excluded_row p = Ok excluded.
Proof.
  unfold Sql.upsert.
  destruct (Sql.excluded_row p) as [excluded|e] eqn:Hex; [eauto|].
  cbn. intros [= ->]. apply excluded_row_exn in Hex as [?|?]; discriminate.
Qed.

(** The retry of the full load. *)
Lemma etl_retry_spec (E : env) (p : Sql.upsert_params) (w : world) :
  run_statement E (Upsert p) (db w)
  = Raise (IntegrityError Sql.unique_imdb_msg) ->
  exists excluded w2 row,
    Sql.excluded_row p = Ok excluded
    /\ Etl.upsert_movie E p w = (Ok tt, w2)
    /\ executed w2
       = UpsertFallback (Etl.params_no_imdb p) :: Upsert p :: executed w
    /\ run_statement E (UpsertFallback (Etl.params_no_imdb p)) (db w)
       = Ok (db w2)
    /\ Sql.find_movie (Sql.p_id p) (db w2) = Some row
    /\ Sql.retried_row excluded (Sql.find_movie (Sql.p_id p) (db w)) row
    /\ forall j, j <> Sql.p_id p ->
         Sql.find_movie j (db w2) = Sql.find_movie j (db w).
Proof.
  cbn [run_statement]. intros Hraise.
  destruct (upsert_raises_bound _ _ _ Hraise) as [excluded Hex].
  destruct (upsert_fallback_ok p (db w) excluded Hex)
    as (d' & row & Hfb & Hfind & Hrow & Hother).
  exists excluded, (with_db d' (with_executed
    (UpsertFallback (Etl.params_no_imdb p) :: Upsert p :: executed w) w)), row.
  split; [exact Hex|]. split.
  { unfold Etl.upsert_movie, try_except, execute at 1.
    cbn [run_statement]. rewrite Hraise.
    rewrite integrity_message_matches.
    unfold execute. cbn [run_statement db with_executed]. rewrite Hfb.
    reflexivity. }
  split; [reflexivity|]. split; [exact Hfb|]. split; [exact Hfind|].
  split; [|exact Hother].
  assert (Hid := excluded_row_id _ _ Hex).
  subst row. unfold Sql.retried_row.
  destruct (Sql.find_movie (Sql.p_id p) (db w)) as [old|] eqn:Hold; cbn.
  - apply find_row_id in Hold. split; [lia|]. repeat split.
  - rewrite !coalesce_null_r. repeat split.
Qed.

Lemma link_genres_ok (E : env) (movie_id : Z) (gs : list string) (w : world) :
  exists w', Etl.link_genres E movie_id gs w = (Ok tt, w').
Proof.
  revert w. induction gs as [|g gs IH]; intros w; cbn; [by eexists|].
  unfold Etl.link_genre. io_unfold. cbn [run_statement].
  destruct (Sql.select_genre_id g _) as [i|]; [destruct (i =? 0)|];
    cbn [run_statement]; apply IH.
Qed.

(** The retry inside the loop body of the full load. *)
Lemma etl_body_survives (E : env) (fast : bool) (row : Etl.movie_row)
    (w w1 : world) (raw : json) (omdb : option Normalizer.record) :
  let ty := Etl.parse_title_and_year (Etl.raw_title row) in
  Etl.query_omdb E ty.1 ty.2 fast w = (Ok raw, w1) ->
  (if truthy raw
   then Normalizer.clean_omdb_response (strptime_iso E) raw
   else Ok None) = Ok omdb ->
  run_statement E (Upsert (Etl.params_of (Etl.movieId row) ty.1 ty.2 omdb)) (db w1)
  = Raise (IntegrityError Sql.unique_imdb_msg) ->
  exists w2, Etl.process_movie E fast row w = (Ok tt, w2).
Proof.
  intros ty Hq Hclean Hraise. subst ty.
  unfold Etl.process_movie.
  destruct (Etl.parse_title_and_year (Etl.raw_title row)) as [title year].
  cbn [fst snd] in *.
  unfold mbind at 1, io_bind at 1. rewrite Hq.
  unfold mbind at 1, io_bind at 1.
  assert (Hstep : (if truthy raw
                   then lift (Normalizer.clean_omdb_response (strptime_iso E) raw)
                   else mret None) w1 = (Ok omdb, w1)).
  { destruct (truthy raw); unfold lift, mret, io_ret; congruence. }
  rewrite Hstep.
  destruct (etl_retry_spec E _ w1 Hraise) as (_ & w2 & _ & _ & Hup & _).
  unfold mbind at 1, io_bind at 1. rewrite Hup.
  apply link_genres_ok.
Qed.

(** ** The write and its retry, enrichment only *)

Lemma fields_no_imdb (data : Normalizer.record) :
  Enrich.fields_of (Enrich.data_no_imdb data)
  = Sql.without_imdb (Enrich.fields_of data).
Proof.
  unfold Enrich.fields_of, Enrich.data_no_imdb, Sql.without_imdb.
  cbn [Normalizer.imdb_id Normalizer.director Normalizer.plot
       Normalizer.box_office Normalizer.released Normalizer.runtime_minutes
       truthy].
  destruct (truthy (Normalizer.imdb_id data)),
    (truthy (Normalizer.director data)), (truthy (Normalizer.plot data)),
    (truthy (Normalizer.box_office data)),
    (Normalizer.released data) as [rel|],
    (Normalizer.runtime_minutes data) as [n|];
    try destruct (String.eqb rel ""); reflexivity.
Qed.

Lemma no_other_fields (data : Normalizer.record) :
  Enrich.has_other_fields data = false ->
  Enrich.fields_of (Enrich.data_no_imdb data) = [].
Proof.
  unfold Enrich.has_other_fields, Enrich.fields_of, Enrich.data_no_imdb.
  cbn [Normalizer.imdb_id Normalizer.director Normalizer.plot
       Normalizer.box_office Normalizer.released Normalizer.runtime_minutes
       truthy].
  destruct (truthy (Normalizer.director data)),
    (truthy (Normalizer.plot data)),
    (truthy (Normalizer.box_office data)),
    (Normalizer.released data) as [rel|],
    (Normalizer.runtime_minutes data) as [n|];
    try destruct (String.eqb rel ""); cbn; congruence.
Qed.

Lemma some_other_fields (data : Normalizer.record) :
  Enrich.has_other_fields data = true ->
  Enrich.fields_of (Enrich.data_no_imdb data) <> [].
Proof.
  unfold Enrich.has_other_fields, Enrich.fields_of, Enrich.data_no_imdb.
  cbn [Normalizer.imdb_id Normalizer.director Normalizer.plot
       Normalizer.box_office Normalizer.released Normalizer.runtime_minutes
       truthy].
  destruct (truthy (Normalizer.director data)),
    (truthy (Normalizer.plot data)),
    (truthy (Normalizer.box_office data)),
    (Normalizer.released data) as [rel|],
    (Normalizer.runtime_minutes data) as [n|];
    try destruct (String.eqb rel ""); cbn; congruence.
Qed.

Lemma bind_all_without (sets : list (Sql.column * json))
    (bound : list (Sql.column * Sql.value)) :
  Sql.bind_all sets = Ok bound ->
  Sql.bind_all (Sql.without_imdb sets) = Ok (Sql.without_imdb bound).
Proof.
  revert bound. induction sets as [|[c v] sets IH]; intros bound; cbn.
  - intros [= <-]. reflexivity.
  - destruct (Sql.bind v) as [v'|] eqn:Hv; cbn; [|discriminate].
    destruct (Sql.bind_all sets) as [rest|]; cbn; [|discriminate].
    intros [= <-]. cbn. specialize (IH rest eq_refl).
    destruct (Sql.is_imdb_column c); cbn; [exact IH|].
    rewrite Hv. cbn. unfold Sql.without_imdb in IH. rewrite IH. reflexivity.
Qed.

Lemma without_imdb_has_none (bound : list (Sql.column * Sql.value)) :
  existsb (fun cv => Sql.is_imdb_column (fst cv)) (Sql.without_imdb bound)
  = false.
Proof.
  induction bound as [|[c v] bound IH]; cbn; [reflexivity|].
  destruct (Sql.is_imdb_column c) eqn:Hc; cbn; [exact IH|].
  rewrite Hc. exact IH.
Qed.

Lemma bind_all_exn (sets : list (Sql.column * json)) (e : exn) :
  Sql.bind_all sets = Raise e -> e = OverflowError \/ e = InterfaceError.
Proof.
  induction sets as [|[c v] sets IH]; cbn; [discriminate|].
  destruct (Sql.bind v) eqn:Hv; cbn.
  - destruct (Sql.bind_all sets); cbn; [discriminate|].
    intros [= <-]. by apply IH.
  - intros [= <-]. by apply (bind_exn v).
Qed.

(** The same [UPDATE] without its assignment to the external ID goes
    through whenever the full one met the uniqueness violation. *)
Lemma update_without_imdb_ok (i : Z) (sets : list (Sql.column * json))
    (d : Sql.store) (m : string) :
  Sql.update i sets d = Raise (IntegrityError m) ->
  exists bound old,
    Sql.bind_all sets = Ok bound
    /\ Sql.find_movie i d = Some old
    /\ Sql.update i (Sql.without_imdb sets) d
       = Ok (Sql.with_movies
               (Sql.replace_row
                  (fold_left Sql.set_column (Sql.without_imdb bound) old)
                  (Sql.movies d)) d).
Proof.
  unfold Sql.update.
  destruct (Sql.bind_int i) as [i'|e] eqn:Hi; cbn [mbind result_bind].
  2:{ intros [= ->]. apply bind_int_exn in Hi. discriminate. }
  apply bind_int_ok in Hi as ->.
  destruct (Sql.bind_all sets) as [bound|e] eqn:Hb; cbn [mbind result_bind].
  2:{ intros [= ->]. apply bind_all_exn in Hb as [?|?]; discriminate. }
  rewrite (bind_all_without _ _ Hb). cbn [mbind result_bind].
  destruct (Sql.find_movie i d) as [old|]; [|discriminate].
  intros _. exists bound, old. split; [reflexivity|]. split; [reflexivity|].
  by rewrite without_imdb_has_none.
Qed.

Lemma update_nil_no_integrity (i : Z) (d : Sql.store) (m : string) :
  Sql.update i [] d = Raise (IntegrityError m) -> False.
Proof.
  unfold Sql.update.
  destruct (Sql.bind_int i) as [i'|e] eqn:Hi; cbn [mbind result_bind Sql.bind_all].
  - destruct (Sql.find_movie i' d); cbn; discriminate.
  - intros [= ->]. apply bind_int_exn in Hi. discriminate.
Qed.

Lemma update_movie_runs (E : env) (movie_id : Z) (data : Normalizer.record)
    (w : world) :
  Enrich.fields_of data <> [] ->
  Enrich.update_movie E movie_id data w
  = (execute E (Update movie_id (Enrich.fields_of data));; mret true) w.
Proof.
  unfold Enrich.update_movie. destruct (Enrich.fields_of data); [done|reflexivity].
Qed.

(** The retry of the enrichment. *)
Lemma enrich_retry_spec (E : env) (movie_id : Z) (data : Normalizer.record)
    (enriched skipped : Z) (w : world) :
  run_statement E (Update movie_id (Enrich.fields_of data)) (db w)
  = Raise (IntegrityError Sql.unique_imdb_msg) ->
  exists counters w2,
    Enrich.write_record E movie_id data enriched skipped w = (Ok counters, w2)
    /\ Sql.update movie_id (Sql.without_imdb (Enrich.fields_of data)) (db w)
       = Ok (db w2)
    /\ cache w2 = cache w.
Proof.
  cbn [run_statement]. intros Hraise.
  destruct (update_without_imdb_ok _ _ _ _ Hraise) as (bound & old & Hb & Hold & Hup).
  assert (Hne : Enrich.fields_of data <> []).
  { intros Hnil. rewrite Hnil in Hraise.
    by apply update_nil_no_integrity in Hraise. }
  unfold Enrich.write_record, try_except.
  unfold mbind at 1, io_bind at 1.
  rewrite update_movie_runs by exact Hne.
  unfold mbind at 1, io_bind at 1, execute at 1.
  cbn [run_statement]. rewrite Hraise.
  unfold mbind at 1, io_bind at 1, print at 1, modify at 1.
  destruct (Enrich.has_other_fields data) eqn:Hother.
  - unfold mbind at 1, io_bind at 1.
    rewrite update_movie_runs by (by apply some_other_fields).
    unfold mbind at 1, io_bind at 1, execute at 1.
    cbn [run_statement db with_stdout with_executed].
    rewrite fields_no_imdb, Hup.
    eexists _, _. split; [reflexivity|]. split; reflexivity.
  - eexists _, _. split; [reflexivity|].
    cbn [db cache with_stdout with_executed]. split; [|reflexivity].
    rewrite Hup.
    assert (Hnone : Sql.without_imdb bound = []).
    { apply bind_all_without in Hb.
      rewrite <- fields_no_imdb, (no_other_fields _ Hother) in Hb.
      cbn in Hb. congruence. }
    rewrite Hnone. cbn [fold_left].
    unfold Sql.find_movie in Hold.
    rewrite (replace_found_same _ _ _ Hold). by rewrite with_movies_same.
Qed.

Lemma set_columns_id (bound : list (Sql.column * Sql.value)) (m : Sql.movie) :
  Sql.id (fold_left Sql.set_column bound m) = Sql.id m.
Proof.
  revert m. induction bound as [|[c v] bound IH]; intros m; cbn [fold_left];
    [reflexivity|].
  rewrite IH. destruct c; reflexivity.
Qed.

(** What the store holds after the retried [UPDATE]. *)
Lemma update_without_imdb_rows (i : Z) (bound : list (Sql.column * Sql.value))
    (old : Sql.movie) (d : Sql.store) :
  Sql.find_movie i d = Some old ->
  let d' := Sql.with_movies
              (Sql.replace_row
                 (fold_left Sql.set_column (Sql.without_imdb bound) old)
                 (Sql.movies d)) d in
  Sql.find_movie i d'
  = Some (fold_left Sql.set_column (Sql.without_imdb bound) old)
  /\ forall j, j <> i -> Sql.find_movie j d' = Sql.find_movie j d.
Proof.
  intros Hold d'. subst d'. unfold Sql.find_movie in *.
  cbn [Sql.movies Sql.with_movies].
  assert (Hid := find_row_id _ _ _ Hold).
  set (row := fold_left Sql.set_column (Sql.without_imdb bound) old).
  assert (Hrow : Sql.id row = i) by (unfold row; by rewrite set_columns_id).
  split.
  - rewrite <- Hrow in Hold |- *. by apply (find_replace_same _ row old).
  - intros j Hj. apply find_replace_other. lia.
Qed.

Lemma enrich_body_survives (E : env) (fast : bool) (movie_id : Z)
    (title : string) (year : option Z) (enriched skipped : Z)
    (w w1 w2 : world) (raw : json) (data : Normalizer.record)
    (counters : Z * Z) :
  Enrich.query_omdb E title year fast w = (Ok raw, w1) ->
  Normalizer.clean_omdb_response (strptime_iso E) raw = Ok (Some data) ->
  Enrich.write_record E movie_id data enriched skipped w1 = (Ok counters, w2) ->
  Enrich.process_candidate E fast (movie_id, title, year) enriched skipped w
  = (Ok counters, with_saved (cache w2) w2).
Proof.
  intros Hq Hclean Hwrite.
  unfold Enrich.process_candidate.
  unfold mbind at 1, io_bind at 1. rewrite Hq.
  rewrite (clean_some_truthy _ _ _ Hclean).
  unfold mbind at 1, io_bind at 1, lift at 1. rewrite Hclean.
  unfold mbind at 1, io_bind at 1. rewrite Hwrite. reflexivity.
Qed.

(** C1: when the write of a record raises the uniqueness violation on the
    external ID, the engine runs the write again with the external ID
    absent: in the full load the fallback statement, which leaves the
    stored external ID and applies every other update of the record; in
    the enrichment the same [UPDATE] without its assignment to the
    external ID.  Other rows are untouched, and the loop body of the
    orchestrator returns without raising. *)
Theorem uniqueness_violation_is_retried :
  (forall (E : env) (fast : bool) (row : Etl.movie_row) (w w1 : world)
          (raw : json) (omdb : option Normalizer.record),
     let ty := Etl.parse_title_and_year (Etl.raw_title row) in
     let params := Etl.params_of (Etl.movieId row) ty.1 ty.2 omdb in
     Etl.query_omdb E ty.1 ty.2 fast w = (Ok raw, w1) ->
     (if truthy raw
      then Normalizer.clean_omdb_response (strptime_iso E) raw
      else Ok None) = Ok omdb ->
     run_statement E (Upsert params) (db w1)
     = Raise (IntegrityError Sql.unique_imdb_msg) ->
     exists excluded w2 w3 stored,
       Sql.excluded_row params = Ok excluded
       /\ Etl.upsert_movie E params w1 = (Ok tt, w2)
       /\ executed w2
          = UpsertFallback (Etl.params_no_imdb params) :: Upsert params
            :: executed w1
       /\ Sql.find_movie (Etl.movieId row) (db w2) = Some stored
       /\ Sql.retried_row excluded
            (Sql.find_movie (Etl.movieId row) (db w1)) stored
       /\ (forall j, j <> Etl.movieId row ->
             Sql.find_movie j (db w2) = Sql.find_movie j (db w1))
       /\ Etl.process_movie E fast row w = (Ok tt, w3))
  /\ (forall (E : env) (fast : bool) (movie_id : Z) (title : string)
             (year : option Z) (enriched skipped : Z) (w w1 : world)
             (raw : json) (data : Normalizer.record),
        Enrich.query_omdb E title year fast w = (Ok raw, w1) ->
        Normalizer.clean_omdb_response (strptime_iso E) raw = Ok (Some data) ->
        run_statement E (Update movie_id (Enrich.fields_of data)) (db w1)
        = Raise (IntegrityError Sql.unique_imdb_msg) ->
        exists counters w2 w3 bound old,
          Enrich.write_record E movie_id data enriched skipped w1
          = (Ok counters, w2)
          /\ Sql.update movie_id (Sql.without_imdb (Enrich.fields_of data))
               (db w1) = Ok (db w2)
          /\ Sql.bind_all (Enrich.fields_of data) = Ok bound
          /\ Sql.find_movie movie_id (db w1) = Some old
          /\ Sql.find_movie movie_id (db w2)
             = Some (fold_left Sql.set_column (Sql.without_imdb bound) old)
          /\ (forall j, j <> movie_id ->
                Sql.find_movie j (db w2) = Sql.find_movie j (db w1))
          /\ Enrich.process_candidate E fast (movie_id, title, year)
               enriched skipped w = (Ok counters, w3)).
Proof.
  split.
  - intros E fast row w w1 raw omdb ty params Hq Hclean Hraise.
    destruct (etl_retry_spec E params w1 Hraise)
      as (excluded & w2 & stored & Hex & Hup & Hlog & _ & Hfind & Hrow & Hother).
    destruct (etl_body_survives E fast row w w1 raw omdb Hq Hclean Hraise)
      as [w3 Hbody].
    exists excluded, w2, w3, stored.
    split; [exact Hex|]. split; [exact Hup|]. split; [exact Hlog|].
    split; [exact Hfind|]. split; [exact Hrow|]. split; [exact Hother|].
    exact Hbody.
  - intros E fast movie_id title year enriched skipped w w1 raw data
      Hq Hclean Hraise.
    destruct (enrich_retry_spec E movie_id data enriched skipped w1 Hraise)
      as (counters & w2 & Hwrite & Hup & _).
    cbn [run_statement] in Hraise.
    destruct (update_without_imdb_ok _ _ _ _ Hraise)
      as (bound & old & Hb & Hold & Hup').
    rewrite Hup in Hup'. injection Hup' as Hdb.
    destruct (update_without_imdb_rows movie_id bound old (db w1) Hold)
      as [Hfind Hother].
    rewrite <- Hdb in Hfind, Hother.
    exists counters, w2, (with_saved (cache w2) w2), bound, old.
    repeat split; try assumption.
    by apply (enrich_body_survives E fast movie_id title year enriched skipped
                w w1 w2 raw data).
Qed.

Lemma uniqueness_violation_is_retried_witness :
  let E := Samples.toy_story_env in
  let raw := Samples.toy_story in
  let data := Samples.toy_story_record in
  (let row := Samples.second_copy in
   let w := Samples.fresh Samples.one_movie in
   let w1 := Samples.looked_up Samples.one_movie in
   let params := Etl.params_of 2 "Toy Story" (Some 1995) (Some data) in
   (Etl.query_omdb E "Toy Story" (Some 1995) false w = (Ok raw, w1)
    /\ Normalizer.clean_omdb_response (strptime_iso E) raw = Ok (Some data)
    /\ run_statement E (Upsert params) (db w1)
       = Raise (IntegrityError Sql.unique_imdb_msg))
   /\ exists excluded w2 w3 stored,
        Sql.excluded_row params = Ok excluded
        /\ Etl.upsert_movie E params w1 = (Ok tt, w2)
        /\ executed w2
           = UpsertFallback (Etl.params_no_imdb params) :: Upsert params
             :: executed w1
        /\ Sql.find_movie 2 (db w2) = Some stored
        /\ Sql.retried_row excluded (Sql.find_movie 2 (db w1)) stored
        /\ (forall j, j <> 2 ->
              Sql.find_movie j (db w2) = Sql.find_movie j (db w1))
        /\ Etl.process_movie E false row w = (Ok tt, w3))
  /\ (let w := Samples.fresh Samples.two_movies in
      let w1 := Samples.looked_up Samples.two_movies in
      (Enrich.query_omdb E "Toy Story" (Some 1995) false w = (Ok raw, w1)
       /\ Normalizer.clean_omdb_response (strptime_iso E) raw = Ok (Some data)
       /\ run_statement E (Update 2 (Enrich.fields_of data)) (db w1)
          = Raise (IntegrityError Sql.unique_imdb_msg))
      /\ exists counters w2 w3 bound old,
           Enrich.write_record E 2 data 0 0 w1 = (Ok counters, w2)
           /\ Sql.update 2 (Sql.without_imdb (Enrich.fields_of data)) (db w1)
              = Ok (db w2)
           /\ Sql.bind_all (Enrich.fields_of data) = Ok bound
           /\ Sql.find_movie 2 (db w1) = Some old
           /\ Sql.find_movie 2 (db w2)
              = Some (fold_left Sql.set_column (Sql.without_imdb bound) old)
           /\ (forall j, j <> 2 ->
                 Sql.find_movie j (db w2) = Sql.find_movie j (db w1))
           /\ Enrich.process_candidate E false (2, "Toy Story", Some 1995)
                0 0 w = (Ok counters, w3)).
Proof.
  cbv zeta. split; (split; [repeat split|]).
  - apply (proj1 uniqueness_violation_is_retried Samples.toy_story_env false
             Samples.second_copy (Samples.fresh Samples.one_movie)
             (Samples.looked_up Samples.one_movie) Samples.toy_story
             (Some Samples.toy_story_record)); reflexivity.
  - apply (proj2 uniqueness_violation_is_retried Samples.toy_story_env false
             2 "Toy Story" (Some 1995) 0 0 (Samples.fresh Samples.two_movies)
             (Samples.looked_up Samples.two_movies) Samples.toy_story
             Samples.toy_story_record); reflexivity.
Defined.

(** ** The ratings phase of the full load *)

Lemma insert_rating_ok (dup : Sql.rating -> Sql.rating -> bool)
    (r : Sql.rating) (d : Sql.store) :
  Sql.bindable_rating r = true ->
  exists d', Sql.insert_rating dup r d = Ok d'.
Proof.
  unfold Sql.bindable_rating, Sql.insert_rating, Sql.bind_opt_int, Sql.bind_int.
  intros H. apply andb_prop in H as [H Ht]. apply andb_prop in H as [Hu Hm].
  rewrite Hu, Hm. cbn [mbind result_bind].
  destruct (Sql.timestamp r) as [t|]; [rewrite Ht|]; cbn;
    destruct (existsb _ _); eauto.
Qed.

Lemma insert_rating_rows (dup : Sql.rating -> Sql.rating -> bool)
    (r : Sql.rating) (d d' : Sql.store) :
  Sql.insert_rating dup r d = Ok d' ->
  Sql.movies d' = Sql.movies d
  /\ forall x, In x (Sql.ratings d') -> In x (Sql.ratings d) \/ x = r.
Proof.
  unfold Sql.insert_rating.
  destruct (Sql.bind_int (Sql.user_id r)); cbn [mbind result_bind]; [|discriminate].
  destruct (Sql.bind_int (Sql.movie_id r)); cbn [mbind result_bind]; [|discriminate].
  destruct (Sql.bind_opt_int (Sql.timestamp r)); cbn [mbind result_bind];
    [|discriminate].
  destruct (existsb _ _); intros [= <-]; cbn; split; auto.
  intros x Hx. apply in_app_or in Hx as [Hx|[Hx|[]]]; auto.
Qed.

(** The loop attempts the rows in order, and what is in the table
    afterwards was there before or has been attempted. *)
Lemma insert_ratings_spec (E : env) (rs : list Sql.rating) :
  forall (n : Z) (w : world),
  exists res w' attempted rest,
    Etl.insert_ratings E rs n w = (res, w')
    /\ rs = (attempted ++ rest)%list
    /\ executed w' = (rev (map InsertRating attempted) ++ executed w)%list
    /\ stdout w' = stdout w
    /\ (forall x, In x (Sql.ratings (db w')) ->
          In x (Sql.ratings (db w)) \/ In x attempted)
    /\ (forallb Sql.bindable_rating rs = true ->
          res = Ok (n + Z.of_nat (length rs)) /\ attempted = rs).
Proof.
  induction rs as [|r rs IH]; intros n w.
  - exists (Ok n), w, [], []. cbn. repeat split; auto. f_equal. lia.
  - cbn [Etl.insert_ratings]. unfold mbind at 1, io_bind at 1, execute at 1.
    cbn [run_statement].
    destruct (Sql.insert_rating (duplicate_rating E) r (db w)) as [d|e] eqn:Hins.
    + set (w1 := with_db d (with_executed (InsertRating r :: executed w) w)).
      destruct (IH (n + 1) w1) as (res & w' & att & rest & Hrun & Hsplit & Hex
                                   & Hout & Hrows & Hall).
      destruct (insert_rating_rows _ _ _ _ Hins) as [_ Hone].
      exists res, w', (r :: att), rest. rewrite Hrun.
      split; [reflexivity|]. split; [cbn; congruence|].
      split; [rewrite Hex; cbn; by rewrite <- app_assoc|].
      split; [exact Hout|]. split.
      * intros x Hx. apply Hrows in Hx as [Hx|Hx]; [|cbn; auto].
        apply Hone in Hx as [Hx| ->]; cbn; auto.
      * cbn [forallb]. intros Hb. apply andb_prop in Hb as [_ Hb].
        destruct (Hall Hb) as [-> ->]. split; [|reflexivity].
        f_equal. cbn [length]. lia.
    + exists (Raise e), (with_executed (InsertRating r :: executed w) w), [r], rs.
      split; [reflexivity|]. split; [reflexivity|]. split; [reflexivity|].
      split; [reflexivity|]. split; [cbn; auto|].
      cbn [forallb]. intros Hb. apply andb_prop in Hb as [Hr _].
      destruct (insert_rating_ok (duplicate_rating E) r (db w) Hr) as [d' Hd'].
      congruence.
Qed.

Lemma valid_movie_ids_spec (d : Sql.store) (rows : list Etl.movie_row) (i : Z) :
  i ∈ Etl.valid_movie_ids d rows <->
  In i (map Sql.id (Sql.movies d)) \/ In i (map Etl.movieId rows).
Proof.
  unfold Etl.valid_movie_ids, Sql.select_movie_ids.
  rewrite elem_of_union, !elem_of_list_to_set, !list_elem_of_In. reflexivity.
Qed.

Lemma filter_ratings_spec (valid : gset Z) (ratings : list Sql.rating)
    (r : Sql.rating) :
  In r (Etl.filter_ratings valid ratings) <->
  In r ratings /\ Sql.movie_id r ∈ valid.
Proof.
  unfold Etl.filter_ratings. rewrite filter_In, bool_decide_eq_true. reflexivity.
Qed.

Lemma filter_ratings_dropped (valid : gset Z) (ratings : list Sql.rating) :
  (length ratings
   = length (Etl.filter_ratings valid ratings)
     + length (List.filter
                 (fun r => negb (bool_decide (Sql.movie_id r ∈ valid)))
                 ratings))%nat.
Proof.
  unfold Etl.filter_ratings. induction ratings as [|r rs IH]; cbn; [reflexivity|].
  destruct (bool_decide _); cbn; lia.
Qed.

(** C6: in the full load, a rating row is inserted only if its movie
    identifier is among the identifiers in the store or among those of
    the movie rows processed in the run; the other rows are dropped,
    counted, and the count is printed.  When the integers of the kept
    rows fit the driver, all of them are inserted, in order. *)
Theorem ratings_are_filtered (E : env) (rows : list Etl.movie_row)
    (ratings : list Sql.rating) (w : world) :
  let valid := Etl.valid_movie_ids (db w) rows in
  let kept := Etl.filter_ratings valid ratings in
  let dropped :=
    Z.of_nat (length (List.filter
                        (fun r => negb (bool_decide (Sql.movie_id r ∈ valid)))
                        ratings)) in
  exists res w' attempted rest,
    Etl.ratings_phase E rows ratings w = (res, w')
    /\ (forall i, i ∈ valid <->
          In i (map Sql.id (Sql.movies (db w))) \/ In i (map Etl.movieId rows))
    /\ (forall r, In r kept <-> In r ratings /\ Sql.movie_id r ∈ valid)
    /\ kept = (attempted ++ rest)%list
    /\ executed w' = (rev (map InsertRating attempted) ++ executed w)%list
    /\ (forall x, In x (Sql.ratings (db w')) ->
          In x (Sql.ratings (db w))
          \/ (In x ratings /\ Sql.movie_id x ∈ valid))
    /\ (0 < dropped -> In (FilteredRatings dropped) (stdout w'))
    /\ (forallb Sql.bindable_rating kept = true ->
          res = Ok (dropped, Z.of_nat (length kept)) /\ attempted = kept).
Proof.
  intros valid kept dropped.
  assert (Hcount : Z.of_nat (length ratings) - Z.of_nat (length kept) = dropped).
  { unfold dropped, kept. rewrite (filter_ratings_dropped valid ratings) at 1. lia. }
  unfold Etl.ratings_phase.
  unfold mbind at 1, io_bind at 1, gets at 1.
  fold valid. fold kept. rewrite Hcount.
  set (w0 := if 0 <? dropped
             then with_stdout (FilteredRatings dropped :: stdout w) w else w).
  assert (Hprint : (if 0 <? dropped
                    then print (FilteredRatings dropped) else mret tt) w
                   = (Ok tt, w0)).
  { unfold w0. destruct (0 <? dropped); reflexivity. }
  unfold mbind at 1, io_bind at 1. rewrite Hprint.
  assert (Hdb0 : db w0 = db w) by (unfold w0; destruct (0 <? dropped); reflexivity).
  assert (Hex0 : executed w0 = executed w)
    by (unfold w0; destruct (0 <? dropped); reflexivity).
  assert (Hout0 : 0 < dropped -> In (FilteredRatings dropped) (stdout w0)).
  { intros Hpos. unfold w0. destruct (Z.ltb_spec 0 dropped); [cbn; auto|lia]. }
  destruct (insert_ratings_spec E kept 0 w0)
    as (res & w1 & attempted & rest & Hrun & Hsplit & Hex & Hout & Hrows & Hall).
  assert (Hkept : forall r, In r kept <-> In r ratings /\ Sql.movie_id r ∈ valid)
    by (intros r; apply filter_ratings_spec).
  assert (Hatt : forall x, In x attempted -> In x ratings /\ Sql.movie_id x ∈ valid).
  { intros x Hx. apply Hkept. rewrite Hsplit. apply in_or_app. auto. }
  unfold mbind at 1, io_bind at 1, transaction at 1. rewrite Hrun.
  destruct res as [inserted|e].
  - exists (Ok (dropped, inserted)),
      (with_stdout (RatingsInserted inserted :: stdout w1) w1), attempted, rest.
    split; [reflexivity|]. split; [apply valid_movie_ids_spec|].
    split; [exact Hkept|]. split; [exact Hsplit|].
    split; [cbn; congruence|]. split.
    { cbn. intros x Hx. apply Hrows in Hx as [Hx|Hx]; [left; congruence|auto]. }
    split; [cbn; intros Hpos; right; rewrite Hout; auto|].
    intros Hb. destruct (Hall Hb) as [[= ->] ->]. split; [|reflexivity].
    do 2 f_equal.
  - exists (Raise e), (with_db (db w0) w1), attempted, rest.
    split; [reflexivity|]. split; [apply valid_movie_ids_spec|].
    split; [exact Hkept|]. split; [exact Hsplit|].
    split; [cbn; congruence|]. split.
    { cbn. intros x Hx. left. congruence. }
    split; [cbn; intros Hpos; rewrite Hout; auto|].
    intros Hb. destruct (Hall Hb) as [[=] _].
Qed.

Lemma ratings_are_filtered_witness :
  let E := Samples.toy_story_env in
  let rows := [Samples.second_copy] in
  let ratings := [Samples.rating_of 7 1; Samples.rating_of 7 2;
                  Samples.rating_of 7 3; Samples.rating_of 8 50] in
  let w := Samples.fresh Samples.one_movie in
  let valid := Etl.valid_movie_ids (db w) rows in
  let kept := Etl.filter_ratings valid ratings in
  (0 < 2 /\ forallb Sql.bindable_rating kept = true)
  /\ exists res w',
       Etl.ratings_phase E rows ratings w = (res, w')
       /\ res = Ok (2, 2)
       /\ executed w' = [InsertRating (Samples.rating_of 7 2);
                         InsertRating (Samples.rating_of 7 1)]
       /\ In (FilteredRatings 2) (stdout w').
Proof.
  cbv zeta.
  split; [split; [lia|reflexivity]|].
  destruct (ratings_are_filtered Samples.toy_story_env [Samples.second_copy]
              [Samples.rating_of 7 1; Samples.rating_of 7 2;
               Samples.rating_of 7 3; Samples.rating_of 8 50]
              (Samples.fresh Samples.one_movie))
    as (res & w' & attempted & rest & Hrun & _ & _ & _ & Hex & _ & Hout & Hall).
  destruct (Hall eq_refl) as [Hres Hatt].
  exists res, w'. split; [exact Hrun|]. split; [exact Hres|].
  split; [rewrite Hex, Hatt; reflexivity|]. apply Hout. reflexivity.
Defined.

(** ** The candidates of the enrichment *)

Section Candidates.

Variable d : Sql.store.

Lemma insert_by_count_perm (m : Sql.movie) (l : list Sql.movie) :
  Permutation (Sql.insert_by_count d m l) (m :: l).
Proof.
  induction l as [|x l IH]; cbn [Sql.insert_by_count]; [reflexivity|].
  destruct (Nat.ltb (Sql.rating_count d x) (Sql.rating_count d m));
    [reflexivity|].
  rewrite IH. apply perm_swap.
Qed.

Lemma insert_by_count_sorted (m : Sql.movie) (l : list Sql.movie) :
  StronglySorted (Sql.by_count_desc d) l ->
  StronglySorted (Sql.by_count_desc d) (Sql.insert_by_count d m l).
Proof.
  induction 1 as [|x l Hsorted IH Hall]; cbn [Sql.insert_by_count].
  - repeat constructor.
  - destruct (Nat.ltb_spec (Sql.rating_count d x) (Sql.rating_count d m)).
    + constructor; [by constructor|].
      constructor; [unfold Sql.by_count_desc; lia|].
      eapply Forall_impl; [exact Hall|].
      unfold Sql.by_count_desc. intros y Hy. cbn in Hy. lia.
    + constructor; [exact IH|].
      apply List.Forall_forall. intros y Hy.
      apply (Permutation_in _ (insert_by_count_perm m l)) in Hy as [<-|Hy].
      * unfold Sql.by_count_desc. lia.
      * rewrite List.Forall_forall in Hall. by apply Hall.
Qed.

Lemma order_by_count_perm (l : list Sql.movie) :
  Permutation (Sql.order_by_count_desc d l) l.
Proof.
  induction l as [|m l IH]; cbn; [reflexivity|].
  rewrite insert_by_count_perm. by constructor.
Qed.

Lemma order_by_count_sorted (l : list Sql.movie) :
  StronglySorted (Sql.by_count_desc d) (Sql.order_by_count_desc d l).
Proof.
  induction l as [|m l IH]; cbn; [constructor|].
  by apply insert_by_count_sorted.
Qed.

Lemma is_null_spec (v : Sql.value) : Sql.is_null v = true <-> v = Sql.Null.
Proof. destruct v; cbn; split; congruence. Qed.

Lemma lacks_metadata_spec (m : Sql.movie) :
  Sql.lacks_metadata m = true <->
  Sql.imdb_id m = Sql.Null \/ Sql.director m = Sql.Null.
Proof.
  unfold Sql.lacks_metadata. rewrite orb_true_iff, !is_null_spec. tauto.
Qed.

Lemma joined_spec (m : Sql.movie) :
  Sql.joined d m = true <->
  exists r, In r (Sql.ratings d) /\ Sql.movie_id r = Sql.id m.
Proof.
  unfold Sql.joined. rewrite existsb_exists.
  split; intros (r & Hr & Heq); exists r; (split; [exact Hr|lia]).
Qed.

Lemma joined_counted (m : Sql.movie) :
  Sql.joined d m = true <-> (1 <= Sql.rating_count d m)%nat.
Proof.
  unfold Sql.joined, Sql.rating_count.
  induction (Sql.ratings d) as [|r rs IH]; cbn.
  - split; [discriminate|lia].
  - destruct (Sql.movie_id r =? Sql.id m); cbn; [split; [lia|reflexivity]|exact IH].
Qed.

End Candidates.

(** C7: the candidates are read off a list that holds exactly the movies
    with at least one rating and without external ID or without
    director, in the order of decreasing rating count.  For a batch size
    from 0 to [2 ^ 63 - 1] they are its first [batch] rows; a negative
    batch size keeps the whole list; and a batch size outside 64 bits
    makes the query raise [OverflowError]. *)
Theorem candidates_are_most_rated_first (batch : Z) (w : world) :
  exists full,
    Enrich.fetch_candidates batch w
    = (if Sql.int64 batch
       then Ok (map (fun m => (Sql.id m, Sql.title m, Sql.year m))
                  (if batch <? 0 then full else take (Z.to_nat batch) full))
       else Raise OverflowError, w)
    /\ Permutation full
         (List.filter (fun m => Sql.lacks_metadata m && Sql.joined (db w) m)
            (Sql.movies (db w)))
    /\ (forall m, In m full <->
          In m (Sql.movies (db w))
          /\ (exists r, In r (Sql.ratings (db w)) /\ Sql.movie_id r = Sql.id m)
          /\ (Sql.imdb_id m = Sql.Null \/ Sql.director m = Sql.Null))
    /\ (forall m, In m full -> (1 <= Sql.rating_count (db w) m)%nat)
    /\ StronglySorted (Sql.by_count_desc (db w)) full
    /\ (0 <= batch ->
        Z.of_nat (length (take (Z.to_nat batch) full)) <= batch).
Proof.
  set (wanted := List.filter
                   (fun m => Sql.lacks_metadata m && Sql.joined (db w) m)
                   (Sql.movies (db w))).
  exists (Sql.order_by_count_desc (db w) wanted).
  assert (Hperm := order_by_count_perm (db w) wanted).
  assert (Hin : forall m, In m (Sql.order_by_count_desc (db w) wanted) <->
                  In m (Sql.movies (db w))
                  /\ Sql.lacks_metadata m && Sql.joined (db w) m = true).
  { intros m. split; intros Hm.
    - apply (Permutation_in _ Hperm) in Hm. unfold wanted in Hm.
      apply filter_In in Hm. exact Hm.
    - apply (Permutation_in _ (Permutation_sym Hperm)). unfold wanted.
      apply filter_In. exact Hm. }
  split.
  { unfold Enrich.fetch_candidates, Sql.bind_int. io_unfold.
    destruct (Sql.int64 batch); [|reflexivity].
    unfold Sql.select_candidates, Sql.limit. fold wanted.
    destruct (batch <? 0); f_equal; f_equal.
    - by rewrite map_map.
    - rewrite <- !firstn_map, map_map. reflexivity. }
  split; [exact Hperm|]. split.
  { intros m. rewrite Hin, andb_true_iff, lacks_metadata_spec, joined_spec. tauto. }
  split.
  { intros m Hm. apply Hin in Hm as [_ Hm]. apply andb_prop in Hm as [_ Hm].
    by apply joined_counted. }
  split; [apply order_by_count_sorted|].
  intros Hbatch. rewrite length_take. lia.
Qed.

(** On the store of [Samples.rated_movies] with a batch size of 2: of
    the three candidates, the two with the most ratings, the most rated
    first. *)
Lemma candidates_are_most_rated_first_witness :
  exists full,
    Enrich.fetch_candidates 2 (Samples.fresh Samples.rated_movies)
    = (Ok (map (fun m => (Sql.id m, Sql.title m, Sql.year m))
             (take 2 full)), Samples.fresh Samples.rated_movies)
    /\ Enrich.fetch_candidates 2 (Samples.fresh Samples.rated_movies)
       = (Ok [(2, "Toy Story", Some 1995); (3, "Casino", Some 1995)],
          Samples.fresh Samples.rated_movies)
    /\ Z.of_nat (length (take 2 full)) <= 2.
Proof.
  destruct (candidates_are_most_rated_first 2
              (Samples.fresh Samples.rated_movies))
    as (full & Hrun & _ & _ & _ & _ & Hlen).
  change (Sql.int64 2) with true in Hrun. change (2 <? 0) with false in Hrun.
  change (Z.to_nat 2) with 2%nat in Hrun, Hlen.
  exists full. split; [exact Hrun|].
  assert (Hvalue : Enrich.fetch_candidates 2 (Samples.fresh Samples.rated_movies)
                   = (Ok [(2, "Toy Story", Some 1995);
                          (3, "Casino", Some 1995)],
                      Samples.fresh Samples.rated_movies))
    by reflexivity.
  split; [exact Hvalue|apply Hlen; lia].
Defined.

(** C7 as stated does not hold: with a negative batch size the list is
    not truncated.  The three candidates of [Samples.rated_movies] are
    all returned, more than the batch size. *)
Theorem negative_batch_is_no_cap :
  exists candidates,
    fst (Enrich.fetch_candidates (-1) (Samples.fresh Samples.rated_movies))
    = Ok candidates
    /\ candidates = [(2, "Toy Story", Some 1995); (3, "Casino", Some 1995);
                     (1, "Heat", Some 1995)]
    /\ -1 < Z.of_nat (length candidates).
Proof. eexists. split; [reflexivity|]. split; [reflexivity|]. cbn. lia. Qed.

(** ** Writes of the cache file *)

Create HintDb file.

Lemma keeps_file_ret {A} (a : A) : keeps_file (mret a).
Proof. intros w. split; reflexivity. Qed.

Lemma keeps_file_bind {A B} (m : io A) (k : A -> io B) :
  keeps_file m -> (forall a, keeps_file (k a)) -> keeps_file (m ≫= k).
Proof.
  intros Hm Hk w. unfold mbind, io_bind.
  destruct (Hm w) as [Hs Hf]. destruct (m w) as [[a|e] w1]; cbn [snd] in *.
  - destruct (Hk a w1) as [Hs' Hf']. split; congruence.
  - split; assumption.
Qed.

Lemma keeps_file_lift {A} (r : result A) : keeps_file (lift r).
Proof. intros w. split; reflexivity. Qed.

Lemma keeps_file_gets {A} (f : world -> A) : keeps_file (gets f).
Proof. intros w. split; reflexivity. Qed.

Lemma keeps_file_raise {A} (e : exn) : keeps_file (@raise A e).
Proof. intros w. split; reflexivity. Qed.

Lemma keeps_file_print (m : message) : keeps_file (print m).
Proof. intros w. split; reflexivity. Qed.

Lemma keeps_file_execute (E : env) (st : statement) : keeps_file (execute E st).
Proof.
  intros w. unfold execute. destruct (run_statement E st (db w)); split; reflexivity.
Qed.

Lemma keeps_file_try {A} (body : io A) (handler : exn -> io A) :
  keeps_file body -> (forall e, keeps_file (handler e)) ->
  keeps_file (try_except body handler).
Proof.
  intros Hb Hh w. unfold try_except.
  destruct (Hb w) as [Hs Hf]. destruct (body w) as [[a|e] w1]; cbn [snd] in *.
  - split; assumption.
  - destruct (Hh e w1) as [Hs' Hf']. split; congruence.
Qed.

Lemma keeps_file_transaction {A} (body : io A) :
  keeps_file body -> keeps_file (transaction body).
Proof.
  intros Hb w. unfold transaction.
  destruct (Hb w) as [Hs Hf]. destruct (body w) as [[a|e] w1]; cbn [snd] in *;
    split; assumption.
Qed.

Lemma keeps_file_query (s : Runs.script) (E : env) (title : string)
    (year : option Z) (fast : bool) :
  keeps_file (Runs.query_omdb s E title year fast).
Proof.
  intros w. destruct (query_frame s E title year fast w) as (_ & _ & Hf & Hs).
  split; assumption.
Qed.

#[local] Hint Resolve keeps_file_ret keeps_file_bind keeps_file_lift
  keeps_file_gets keeps_file_raise keeps_file_print keeps_file_execute
  keeps_file_try keeps_file_transaction : file.

Lemma keeps_file_link_genres (E : env) (movie_id : Z) (gs : list string) :
  keeps_file (Etl.link_genres E movie_id gs).
Proof.
  induction gs as [|g gs IH]; cbn [Etl.link_genres]; [auto with file|].
  apply keeps_file_bind; [|intros _; exact IH].
  unfold Etl.link_genre. apply keeps_file_bind; [auto with file|]. intros _.
  apply keeps_file_bind; [auto with file|]. intros [i|]; [|auto with file].
  destruct (i =? 0); auto with file.
Qed.

Lemma keeps_file_upsert_movie (E : env) (p : Sql.upsert_params) :
  keeps_file (Etl.upsert_movie E p).
Proof.
  unfold Etl.upsert_movie. apply keeps_file_try; [auto with file|].
  intros [| | | | |m]; auto with file.
  destruct (_ || _); auto with file.
Qed.

Lemma keeps_file_process_movies (E : env) (fast : bool)
    (rows : list Etl.movie_row) :
  keeps_file (Etl.process_movies E fast rows).
Proof.
  induction rows as [|row rows IH]; cbn [Etl.process_movies]; [auto with file|].
  apply keeps_file_bind; [|intros _; exact IH].
  unfold Etl.process_movie.
  destruct (Etl.parse_title_and_year (Etl.raw_title row)) as [title year].
  apply keeps_file_bind; [apply (keeps_file_query Runs.FullLoad)|]. intros raw.
  apply keeps_file_bind; [destruct (truthy raw); auto with file|]. intros omdb.
  apply keeps_file_bind; [apply keeps_file_upsert_movie|]. intros _.
  apply keeps_file_link_genres.
Qed.

(** The full load writes the cache file once, after the loop over the
    movie rows, with the cache as the loop left it; a loop that raises
    leaves the file as it was. *)
Lemma metadata_phase_saves_once (E : env) (fast : bool)
    (rows : list Etl.movie_row) (w : world) :
  let r := Etl.metadata_phase E fast rows w in
  match fst (Etl.process_movies E fast rows w) with
  | Ok _ =>
      fst r = Ok tt
      /\ saves (snd r) = S (saves w)
      /\ cache_file (snd r) = Some (cache (snd r))
  | Raise e =>
      fst r = Raise e
      /\ saves (snd r) = saves w
      /\ cache_file (snd r) = cache_file w
  end.
Proof.
  intros r. subst r.
  destruct (keeps_file_process_movies E fast rows w) as [Hs Hf].
  destruct (Etl.process_movies E fast rows w) as [[[]|e] w1] eqn:Hrun;
    cbn [fst snd] in *.
  - assert (Hphase : Etl.metadata_phase E fast rows w
                     = (Ok tt, with_stdout (MoviesProcessed (length rows)
                                            :: stdout w1)
                                 (with_saved (cache w1) w1))).
    { unfold Etl.metadata_phase, transaction. io_unfold. by rewrite Hrun. }
    rewrite Hphase. cbn. split; [reflexivity|]. split; [congruence|reflexivity].
  - assert (Hphase : Etl.metadata_phase E fast rows w
                     = (Raise e, with_db (db w) w1)).
    { unfold Etl.metadata_phase, transaction. io_unfold. by rewrite Hrun. }
    rewrite Hphase. cbn. split; [reflexivity|]. split; assumption.
Qed.

(** A candidate that reaches the update has the cache written to the
    file at the end of the loop body. *)
Lemma written_candidate_is_flushed (E : env) (fast : bool) (movie_id : Z)
    (title : string) (year : option Z) (enriched skipped : Z)
    (w w1 w2 : world) (raw : json) (data : Normalizer.record)
    (counters : Z * Z) :
  Enrich.query_omdb E title year fast w = (Ok raw, w1) ->
  Normalizer.clean_omdb_response (strptime_iso E) raw = Ok (Some data) ->
  Enrich.write_record E movie_id data enriched skipped w1 = (Ok counters, w2) ->
  let r := Enrich.process_candidate E fast (movie_id, title, year)
             enriched skipped w in
  cache_file (snd r) = Some (cache (snd r)) /\ saves (snd r) = S (saves w2).
Proof.
  intros Hq Hclean Hwrite r. subst r.
  rewrite (enrich_body_survives _ _ _ _ _ _ _ _ _ _ _ _ _ Hq Hclean Hwrite).
  split; reflexivity.
Qed.

(** ** The constraints of the movies table are kept *)

Section Constraints.

Implicit Types (ms : list Sql.movie) (row old m : Sql.movie) (d : Sql.store).

Lemma value_eqb_spec (a b : Sql.value) : Sql.value_eqb a b = true <-> a = b.
Proof.
  destruct a, b; cbn; try (split; congruence).
  - rewrite Z.eqb_eq. split; congruence.
  - rewrite String.eqb_eq. split; congruence.
Qed.

Lemma replace_row_ids ms row :
  map Sql.id (Sql.replace_row row ms) = map Sql.id ms.
Proof.
  induction ms as [|m ms IH]; cbn; [reflexivity|].
  destruct (Z.eqb_spec (Sql.id m) (Sql.id row)); cbn; congruence.
Qed.

Lemma replace_row_in ms row x :
  In x (Sql.replace_row row ms) ->
  x = row \/ (In x ms /\ (NoDup (map Sql.id ms) -> Sql.id x <> Sql.id row)).
Proof.
  induction ms as [|m ms IH]; cbn; [tauto|].
  destruct (Z.eqb_spec (Sql.id m) (Sql.id row)) as [Heq|Hne]; cbn.
  - intros [<-|Hx]; [by left|]. right. split; [by right|].
    intros Hnd. apply NoDup_cons in Hnd as [Hnotin _].
    intros Hid. apply Hnotin. rewrite Heq, <- Hid.
    apply list_elem_of_In. by apply in_map.
  - intros [<-|Hx]; [right; split; [by left|auto]|].
    destruct (IH Hx) as [->|[Hin Hid]]; [by left|].
    right. split; [by right|].
    intros Hnd. apply Hid. by apply NoDup_cons in Hnd as [_ Hnd].
Qed.

Lemma find_none_not_in ms i :
  find (fun m => Sql.id m =? i) ms = None -> ~ In i (map Sql.id ms).
Proof.
  intros Hnone Hin. apply in_map_iff in Hin as (m & Hid & Hm).
  apply (find_none _ _ Hnone) in Hm. lia.
Qed.

Lemma imdb_free d self v m :
  Sql.imdb_taken d self v = false -> v <> Sql.Null ->
  In m (Sql.movies d) -> Sql.imdb_id m = v -> Sql.id m = self.
Proof.
  unfold Sql.imdb_taken. intros Hfree Hv Hm Heq.
  destruct (Sql.is_null v) eqn:Hnull; [by apply is_null_spec in Hnull|].
  cbn in Hfree.
  destruct (Z.eqb_spec (Sql.id m) self) as [|Hne]; [assumption|].
  exfalso. apply not_true_iff_false in Hfree. apply Hfree.
  apply existsb_exists. exists m. split; [exact Hm|].
  apply andb_true_intro. split.
  - by apply Z.eqb_neq in Hne as ->.
  - by apply value_eqb_spec.
Qed.

(** Neither statement of the full load breaks the primary key or the
    uniqueness of the external IDs. *)
Lemma upsert_keeps_constraints (sets_imdb : bool) (p : Sql.upsert_params) d d' :
  Sql.unique_ids d -> Sql.unique_imdb d ->
  Sql.upsert sets_imdb p d = Ok d' ->
  Sql.unique_ids d' /\ Sql.unique_imdb d'.
Proof.
  unfold Sql.unique_ids, Sql.unique_imdb, Sql.upsert.
  intros Hids Himdb.
  destruct (Sql.excluded_row p) as [excluded|]; cbn [mbind result_bind];
    [|discriminate].
  unfold Sql.find_movie.
  destruct (find _ (Sql.movies d)) as [old|] eqn:Hfind.
  - assert (Hold := find_row_id _ _ _ Hfind).
    assert (Hin_old : In old (Sql.movies d))
      by exact (proj1 (find_some _ _ Hfind)).
    set (row := Sql.merged_row sets_imdb excluded old).
    assert (Hrow : Sql.id row = Sql.id old) by reflexivity.
    destruct (sets_imdb && Sql.imdb_taken d (Sql.id row) (Sql.imdb_id row))
      eqn:Hcheck; [discriminate|].
    intros [= <-]. cbn [Sql.movies Sql.with_movies].
    split; [by rewrite replace_row_ids|].
    assert (Hrow_other : forall b, In b (Sql.movies d) ->
              Sql.id b <> Sql.id row -> Sql.imdb_id row = Sql.imdb_id b ->
              Sql.imdb_id row <> Sql.Null -> False).
    { intros b Hb Hne Heq Hnn. destruct sets_imdb; cbn [andb] in Hcheck.
      - apply Hne. by apply (imdb_free d _ (Sql.imdb_id row) b).
      - apply Hne. rewrite Hrow. symmetry. by apply Himdb. }
    intros a b Ha Hb Heq Hnn.
    apply replace_row_in in Ha as [->|[Ha Hida]];
      apply replace_row_in in Hb as [->|[Hb Hidb]]; try reflexivity.
    + destruct (Z.eq_dec (Sql.id row) (Sql.id b)) as [|Hne]; [assumption|].
      exfalso. apply (Hrow_other b Hb); auto.
    + destruct (Z.eq_dec (Sql.id a) (Sql.id row)) as [|Hne]; [assumption|].
      exfalso. apply (Hrow_other a Ha); auto; congruence.
    + by apply Himdb.
  - destruct (Sql.imdb_taken d (Sql.id excluded) (Sql.imdb_id excluded))
      eqn:Hcheck; [discriminate|].
    intros [= <-]. cbn [Sql.movies Sql.with_movies]. split.
    + rewrite map_app. cbn. apply NoDup_app. split; [exact Hids|]. split.
      * intros i Hi [Hx|[]]%list_elem_of_In. subst i.
        apply list_elem_of_In in Hi. by apply find_none_not_in in Hfind.
      * apply NoDup_singleton.
    + intros a b Ha Hb Heq Hnn.
      apply in_app_or in Ha as [Ha|[<-|[]]];
        apply in_app_or in Hb as [Hb|[<-|[]]]; try reflexivity.
      * by apply Himdb.
      * apply (imdb_free d _ (Sql.imdb_id excluded) a); auto; congruence.
      * symmetry. apply (imdb_free d _ (Sql.imdb_id excluded) b); auto.
Qed.

End Constraints.

(** ** The functions at work *)

Example runtime_of_minutes :
  Normalizer.parse_runtime (JStr "142 min") = Ok (Some 142).
Proof. reflexivity. Qed.

Example runtime_of_marker :
  Normalizer.parse_runtime (JStr "N/A") = Ok None.
Proof. reflexivity. Qed.

Example runtime_of_malformed_text :
  Normalizer.parse_runtime (JStr "about 90 min") = Ok None
  /\ Normalizer.parse_runtime (JStr "142min") = Ok None
  /\ Normalizer.parse_runtime (JList [JStr "min"]) = Ok None.
Proof. repeat split. Qed.

Example released_day_month_year :
  Normalizer.parse_released Normalizer.strptime_reference (JStr "01 Jan 1995")
  = Some "1995-01-01".
Proof. reflexivity. Qed.

Example released_iso :
  Normalizer.parse_released Normalizer.strptime_reference (JStr "1995-01-01")
  = Some "1995-01-01".
Proof. reflexivity. Qed.

Example released_unparseable :
  Normalizer.parse_released Normalizer.strptime_reference (JStr "Jan 1995")
  = None
  /\ Normalizer.parse_released Normalizer.strptime_reference (JNum 1995) = None.
Proof. split; reflexivity. Qed.

Example clean_toy_story :
  Normalizer.clean_omdb_response Normalizer.strptime_reference Samples.toy_story
  = Ok (Some Samples.toy_story_record).
Proof. reflexivity. Qed.

Example title_with_year :
  Etl.parse_title_and_year "Toy Story (1995)" = ("Toy Story", Some 1995).
Proof. reflexivity. Qed.

Example title_without_year :
  Etl.parse_title_and_year "Toy Story" = ("Toy Story", None).
Proof. reflexivity. Qed.

(** A batch size that does not fit in 64 bits is refused by the driver. *)
Example oversized_batch_is_refused :
  fst (Enrich.fetch_candidates (2 ^ 63) (Samples.fresh Samples.two_movies))
  = Raise OverflowError.
Proof. reflexivity. Qed.

(** [LIMIT] with a negative batch size keeps every row. *)
Example negative_batch_is_unlimited :
  fst (Enrich.fetch_candidates (-1) (Samples.fresh Samples.two_movies))
  = Ok [(2, "Toy Story", Some 1995)].
Proof. reflexivity. Qed.

(** A full load of one movie row that collides with the external ID held
    by movie 1, followed by four ratings of which two refer to unknown
    movies: two rows dropped, two inserted, the cache file written once. *)
Example full_load_run :
  let r := Etl.main Samples.toy_story_env None false [Samples.second_copy]
             [Samples.rating_of 7 1; Samples.rating_of 7 2;
              Samples.rating_of 7 3; Samples.rating_of 8 50]
             (Samples.fresh Samples.one_movie) in
  fst r = Ok (2, 2)
  /\ saves (snd r) = 1%nat
  /\ map Sql.imdb_id (Sql.movies (db (snd r)))
     = [Sql.Text "tt0114709"; Sql.Null]
  /\ map Sql.director (Sql.movies (db (snd r)))
     = [Sql.Null; Sql.Text "John Lasseter"]
  /\ Sql.genres (db (snd r)) = [(1, "Animation"); (2, "Children")]
  /\ length (Sql.ratings (db (snd r))) = 2%nat.
Proof. repeat split. Qed.

(** An enrichment run over the store where movie 2 lacks its metadata and
    the external ID found for it is held by movie 1. *)
Example enrichment_run :
  let r := Enrich.main Samples.toy_story_env 500 false
             (Samples.fresh Samples.two_movies) in
  fst r = Ok (1, 0)
  /\ map Sql.imdb_id (Sql.movies (db (snd r)))
     = [Sql.Text "tt0114709"; Sql.Null]
  /\ map Sql.director (Sql.movies (db (snd r)))
     = [Sql.Null; Sql.Text "John Lasseter"]
  /\ saves (snd r) = 2%nat.
Proof. repeat split. Qed.

(* ===================================================================== *)
(** * Further properties of the two scripts                              *)
(* ===================================================================== *)

(** ** Strings *)

Section Strings.

Implicit Types (s t u : string) (c : ascii) (P : ascii -> bool).

Lemma app_cons c s t : String c s +:+ t = String c (s +:+ t).
Proof. reflexivity. Qed.

Lemma app_empty_l s : "" +:+ s = s.
Proof. reflexivity. Qed.

Lemma app_empty_r s : s +:+ "" = s.
Proof. induction s as [|c s IH]; [reflexivity|]. rewrite app_cons. by f_equal. Qed.

Lemma app_assoc_string s t u : (s +:+ t) +:+ u = s +:+ (t +:+ u).
Proof.
  induction s as [|c s IH]; [reflexivity|]. rewrite !app_cons. by f_equal.
Qed.

Lemma rev_string_app s t u : rev_string (s +:+ t) u = rev_string t (rev_string s u).
Proof.
  revert u. induction s as [|c s IH]; intros u; [reflexivity|].
  rewrite app_cons. cbn [rev_string]. apply IH.
Qed.

Lemma rev_string_rev s t u :
  rev_string (rev_string s t) u = rev_string t (s +:+ u).
Proof.
  revert t. induction s as [|c s IH]; intros t; [reflexivity|].
  cbn [rev_string]. rewrite IH. reflexivity.
Qed.

Lemma rev_string_involutive s : rev_string (rev_string s "") "" = s.
Proof. rewrite rev_string_rev. cbn [rev_string]. apply app_empty_r. Qed.

Lemma rev_string_acc s t : rev_string s t = rev_string s "" +:+ t.
Proof.
  revert t. induction s as [|c s IH]; intros t; [reflexivity|].
  cbn [rev_string]. rewrite (IH (String c t)), (IH (String c "")).
  rewrite app_assoc_string. reflexivity.
Qed.

Lemma all_chars_app P s t :
  Text.all_chars P (s +:+ t) = Text.all_chars P s && Text.all_chars P t.
Proof.
  induction s as [|c s IH]; [reflexivity|].
  rewrite app_cons. cbn [Text.all_chars]. rewrite IH. apply andb_assoc.
Qed.

Lemma all_chars_rev P s t :
  Text.all_chars P (rev_string s t) = Text.all_chars P s && Text.all_chars P t.
Proof.
  revert t. induction s as [|c s IH]; intros t; [reflexivity|].
  cbn [rev_string Text.all_chars]. rewrite IH. cbn [Text.all_chars].
  destruct (P c), (Text.all_chars P s), (Text.all_chars P t); reflexivity.
Qed.

Lemma all_chars_impl P (Q : ascii -> bool) s :
  (forall c, P c = true -> Q c = true) ->
  Text.all_chars P s = true -> Text.all_chars Q s = true.
Proof.
  intros HPQ. induction s as [|c s IH]; [reflexivity|].
  cbn [Text.all_chars]. intros [Hc Hs]%andb_prop.
  rewrite (HPQ c Hc), (IH Hs). reflexivity.
Qed.

(** A text is found in no string that lacks its first character. *)
Lemma str_in_first_char c t s :
  Text.all_chars (Text.is_not c) s = true -> str_in (String c t) s = false.
Proof.
  induction s as [|a s IH]; [reflexivity|].
  cbn [Text.all_chars str_in startswith]. intros [Ha Hs]%andb_prop.
  unfold Text.is_not in Ha. apply negb_true_iff in Ha.
  rewrite Ascii.eqb_sym, Ha. cbn [andb orb]. by apply IH.
Qed.

Lemma str_in_app_r t s u : str_in t u = true -> str_in t (s +:+ u) = true.
Proof.
  intros Hu. induction s as [|c s IH]; [exact Hu|].
  rewrite app_cons. cbn [str_in]. rewrite IH. apply orb_true_r.
Qed.

Lemma lstrip_clean s : Text.all_chars Text.not_space s = true -> lstrip s = s.
Proof.
  destruct s as [|c s]; [reflexivity|].
  cbn [Text.all_chars lstrip]. intros [Hc _]%andb_prop.
  unfold Text.not_space in Hc. apply negb_true_iff in Hc. by rewrite Hc.
Qed.

Lemma strip_clean s : Text.all_chars Text.not_space s = true -> strip s = s.
Proof.
  intros Hs. unfold strip, rstrip. rewrite (lstrip_clean s Hs).
  rewrite lstrip_clean by (by rewrite all_chars_rev, Hs).
  apply rev_string_involutive.
Qed.

End Strings.

(** ** Decimal texts *)

Section Decimal.

Lemma pretty_N_char_digit (n : N) :
  (n < 10)%N ->
  isdigit (pretty_N_char n) = true
  /\ digit_value (pretty_N_char n) = Z.of_N n.
Proof.
  intros Hn. rewrite <- (N2Nat.id n).
  assert (Hk : (N.to_nat n < 10)%nat) by lia.
  revert Hk. generalize (N.to_nat n). intros k Hk.
  do 10 (destruct k as [|k]; [split; reflexivity|]). lia.
Qed.

Lemma pretty_N_go_chars (P : ascii -> bool) (x : N) (s : string) :
  (forall c, isdigit c = true -> P c = true) ->
  Text.all_chars P s = true ->
  Text.all_chars P (pretty_N_go x s) = true.
Proof.
  intros HP. revert s. induction (N.lt_wf_0 x) as [x _ IH]; intros s Hs.
  destruct (N.eq_dec x 0%N) as [->|Hx]; [by rewrite pretty_N_go_0|].
  rewrite pretty_N_go_step by lia.
  apply IH; [apply N.div_lt; lia|].
  cbn [Text.all_chars]. rewrite Hs, andb_true_r.
  apply HP. apply pretty_N_char_digit. by apply N.mod_lt.
Qed.

Lemma pretty_N_chars (P : ascii -> bool) (x : N) :
  (forall c, isdigit c = true -> P c = true) ->
  Text.all_chars P (pretty x) = true.
Proof.
  intros HP. unfold pretty, pretty_N. destruct (decide (x = 0%N)).
  - cbn. rewrite HP; reflexivity.
  - by apply pretty_N_go_chars.
Qed.

Lemma pretty_Z_chars (z : Z) :
  Text.all_chars Text.digit_or_dash (pretty z) = true.
Proof.
  assert (Hd : forall c, isdigit c = true -> Text.digit_or_dash c = true).
  { intros c Hc. unfold Text.digit_or_dash. by rewrite Hc. }
  destruct z as [|p|p]; [reflexivity|by apply pretty_N_chars|].
  change (pretty (Z.neg p)) with ("-" +:+ pretty (N.pos p)).
  rewrite all_chars_app. cbn. by apply pretty_N_chars.
Qed.

Lemma pretty_N_nonempty (x : N) : pretty x <> "".
Proof.
  unfold pretty, pretty_N. destruct (decide (x = 0%N)); [discriminate|].
  intros Hempty.
  assert (Hlen : forall y s, (String.length s <= String.length (pretty_N_go y s))%nat).
  { intros y. induction (N.lt_wf_0 y) as [y _ IH]; intros s.
    destruct (N.eq_dec y 0%N) as [->|Hy]; [by rewrite pretty_N_go_0|].
    rewrite pretty_N_go_step by lia.
    etrans; [|apply IH, N.div_lt; lia]. cbn. lia. }
  rewrite pretty_N_go_step in Hempty by lia.
  specialize (Hlen (x `div` 10)%N (String (pretty_N_char (x `mod` 10)) "")).
  rewrite Hempty in Hlen. cbn in Hlen. lia.
Qed.

(** Reading the digits of a decimal text gives the number back. *)
Lemma digits_pretty_N_go (x : N) :
  (0 < x)%N ->
  forall (s : string) (acc : Z) (b : bool),
  exists k : Z, 0 <= k /\
    Py.digits (pretty_N_go x s) acc b
    = Py.digits s (acc * 10 ^ k + Z.of_N x) true.
Proof.
  induction (N.lt_wf_0 x) as [x _ IH]. intros Hx s acc b.
  rewrite pretty_N_go_step by exact Hx.
  destruct (pretty_N_char_digit (x `mod` 10)) as [Hdig Hval];
    [by apply N.mod_lt|].
  assert (Hdiv : Z.of_N x = 10 * Z.of_N (x `div` 10) + Z.of_N (x `mod` 10)).
  { rewrite (N.div_mod x 10) at 1 by done. lia. }
  destruct (N.eq_dec (x `div` 10)%N 0%N) as [Hz|Hnz].
  - rewrite Hz, pretty_N_go_0. exists 1. split; [lia|].
    cbn [Py.digits]. rewrite Hdig, Hval. f_equal. rewrite Hz in Hdiv. lia.
  - destruct (IH (x `div` 10)%N) with
      (s := String (pretty_N_char (x `mod` 10)) s) (acc := acc) (b := b)
      as (k & Hk & Heq); [apply N.div_lt; lia|by apply N.neq_0_lt_0|].
    exists (k + 1). split; [lia|]. rewrite Heq.
    cbn [Py.digits]. rewrite Hdig, Hval. f_equal.
    rewrite Z.pow_add_r by lia. lia.
Qed.

Lemma digits_pretty_N (x : N) : Py.digits (pretty x) 0 false = Some (Z.of_N x).
Proof.
  unfold pretty, pretty_N. destruct (decide (x = 0%N)) as [->|Hx]; [reflexivity|].
  destruct (digits_pretty_N_go x) with (s := "") (acc := 0) (b := false)
    as (k & _ & Heq); [lia|].
  rewrite Heq. cbn. f_equal.
Qed.

Lemma not_space_of_digit_or_dash (c : ascii) :
  Text.digit_or_dash c = true -> Text.not_space c = true.
Proof.
  destruct c as [[] [] [] [] [] [] [] []]; try reflexivity; discriminate.
Qed.

(** The decimal text of a number below [10 ^ k] has at most [k]
    digits. *)
Lemma count_digits_pretty_N_go (k : nat) :
  forall (x : N) (s : string),
  (x < 10 ^ N.of_nat k)%N ->
  (count_digits (pretty_N_go x s) <= k + count_digits s)%nat.
Proof.
  induction k as [|k IH]; intros x s Hx.
  - assert (x = 0%N) as -> by (cbn in Hx; lia). by rewrite pretty_N_go_0.
  - destruct (N.eq_dec x 0%N) as [->|Hnz]; [rewrite pretty_N_go_0; lia|].
    rewrite pretty_N_go_step by lia.
    rewrite Nat2N.inj_succ, N.pow_succ_r' in Hx.
    etrans; [apply IH; by apply N.Div0.div_lt_upper_bound|].
    cbn [count_digits]. destruct (isdigit _); lia.
Qed.

Lemma count_digits_pretty_N (k : nat) (x : N) :
  (1 <= k)%nat -> (x < 10 ^ N.of_nat k)%N ->
  (count_digits (pretty x) <= k)%nat.
Proof.
  intros Hk Hx. unfold pretty, pretty_N.
  destruct (decide (x = 0%N)); [exact Hk|].
  etrans; [by apply (count_digits_pretty_N_go k)|]. cbn. lia.
Qed.

Lemma bounded_digits_pretty_N (x : N) :
  (x < 10 ^ N.of_nat max_str_digits)%N ->
  bounded_digits (pretty x) = Some (Z.of_N x).
Proof.
  intros Hx. unfold bounded_digits.
  assert (Hcount : (count_digits (pretty x) <=? max_str_digits)%nat = true).
  { apply Nat.leb_le. apply count_digits_pretty_N; [|exact Hx].
    unfold max_str_digits. lia. }
  rewrite Hcount. apply digits_pretty_N.
Qed.

(** [int(str(z)) = z], as long as the text of [z] is within the limit
    on the number of digits. *)
Lemma int_pretty (z : Z) :
  Z.abs z < 10 ^ Z.of_nat max_str_digits -> Py.int (pretty z) = Some z.
Proof.
  intros Hz.
  assert (Hstrip : strip (pretty z) = pretty z).
  { apply strip_clean. eapply all_chars_impl; [|apply pretty_Z_chars].
    apply not_space_of_digit_or_dash. }
  assert (Hpos : forall p, Z.pos p < 10 ^ Z.of_nat max_str_digits ->
                   bounded_digits (pretty (N.pos p)) = Some (Z.pos p)).
  { intros p Hp. apply (bounded_digits_pretty_N (N.pos p)).
    apply N2Z.inj_lt. rewrite N2Z.inj_pow, nat_N_Z. exact Hp. }
  unfold Py.int. rewrite Hstrip.
  destruct z as [|p|p]; [reflexivity| |].
  - change (pretty (Z.pos p)) with (pretty (N.pos p)).
    assert (Hd := pretty_N_chars isdigit (N.pos p) (fun c H => H)).
    rewrite <- (Hpos p Hz).
    destruct (pretty (N.pos p)) as [|c s]; [reflexivity|].
    cbn [Text.all_chars] in Hd. apply andb_prop in Hd as [Hc _].
    destruct c as [[] [] [] [] [] [] [] []]; try discriminate Hc; reflexivity.
  - change (pretty (Z.neg p)) with ("-" +:+ pretty (N.pos p)).
    rewrite app_cons. change ("" +:+ pretty (N.pos p)) with (pretty (N.pos p)).
    rewrite (Hpos p Hz). reflexivity.
Qed.

End Decimal.

(** ** Cache keys *)

Section CacheKeys.

Lemma bar_in_separator (t s : string) :
  Text.all_chars (Text.is_not "|") (t +:+ "||" +:+ s) = false.
Proof.
  rewrite all_chars_app. apply andb_false_iff. right. reflexivity.
Qed.

(** A key splits in one way only into a title, the separator and a text
    without bar. *)
Lemma key_split_unique (t1 t2 s1 s2 : string) :
  Text.all_chars (Text.is_not "|") s1 = true ->
  Text.all_chars (Text.is_not "|") s2 = true ->
  t1 +:+ "||" +:+ s1 = t2 +:+ "||" +:+ s2 ->
  t1 = t2 /\ s1 = s2.
Proof.
  intros H1 H2. revert t2.
  assert (Hshort : forall t s s', Text.all_chars (Text.is_not "|") s = true ->
            String "|" (String "|" s) = String "|" (t +:+ "||" +:+ s') -> False).
  { intros t s s' Hs Heq. injection Heq as Heq. destruct t as [|c t].
    - rewrite app_empty_l in Heq. injection Heq as ->. discriminate.
    - rewrite app_cons in Heq. injection Heq as _ ->.
      by rewrite bar_in_separator in Hs. }
  induction t1 as [|c1 t1 IH]; intros [|c2 t2] Heq;
    rewrite ?app_cons, ?app_empty_l in Heq.
  - split; congruence.
  - exfalso. assert (c2 = "|"%char) as -> by congruence.
    by apply (Hshort t2 s1 s2).
  - exfalso. assert (c1 = "|"%char) as -> by congruence.
    by apply (Hshort t1 s2 s1).
  - injection Heq as -> Heq. destruct (IH t2 Heq) as [-> ->]. by split.
Qed.

Lemma no_bar_of_digit_or_dash (c : ascii) :
  Text.digit_or_dash c = true -> Text.is_not "|" c = true.
Proof.
  destruct c as [[] [] [] [] [] [] [] []]; try reflexivity; discriminate.
Qed.

Lemma pretty_Z_no_bar (z : Z) :
  Text.all_chars (Text.is_not "|") (pretty z) = true.
Proof.
  eapply all_chars_impl; [apply no_bar_of_digit_or_dash|apply pretty_Z_chars].
Qed.

(** X1: the cache key determines the title and the year: two lookups
    share a cache entry only if they ask for the same title and the same
    year. *)
Theorem cache_key_inj (title1 title2 : string) (year1 year2 : option Z) :
  cache_key title1 year1 = cache_key title2 year2 ->
  title1 = title2 /\ year1 = year2.
Proof.
  unfold cache_key. intros Heq.
  set (text := fun y : option Z =>
                 match y with None => "None" | Some z => pretty z end) in *.
  assert (Hbar : forall y, Text.all_chars (Text.is_not "|") (text y) = true).
  { intros [z|]; [apply pretty_Z_no_bar|reflexivity]. }
  destruct (key_split_unique title1 title2 (text year1) (text year2))
    as [-> Htext]; [apply Hbar|apply Hbar|exact Heq|].
  split; [reflexivity|].
  destruct year1 as [z1|], year2 as [z2|]; cbn in Htext.
  - f_equal. by apply (inj pretty).
  - assert (H := pretty_Z_chars z1). rewrite Htext in H. discriminate.
  - assert (H := pretty_Z_chars z2). rewrite <- Htext in H. discriminate.
  - reflexivity.
Qed.

Lemma cache_key_inj_witness :
  cache_key "Heat" (Some 1995) = cache_key "Heat" (Some 1995)
  /\ "Heat" = "Heat" /\ Some 1995 = Some 1995.
Proof.
  split; [reflexivity|].
  apply (cache_key_inj "Heat" "Heat" (Some 1995) (Some 1995)). reflexivity.
Defined.

End CacheKeys.

(** ** Runtime text *)

Section RuntimeText.

Lemma pretty_Z_nonempty (z : Z) : pretty z <> "".
Proof.
  destruct z as [|p|p]; [discriminate|apply (pretty_N_nonempty (N.pos p))|].
  change (pretty (Z.neg p)) with ("-" +:+ pretty (N.pos p)). discriminate.
Qed.

Lemma take_word_app (a b : string) :
  Text.all_chars Text.not_space a = true ->
  take_word (a +:+ String " " b) = a.
Proof.
  induction a as [|c a IH]; [reflexivity|].
  rewrite app_cons. cbn [Text.all_chars take_word]. intros [Hc Ha]%andb_prop.
  unfold Text.not_space in Hc. apply negb_true_iff in Hc. rewrite Hc.
  f_equal. by apply IH.
Qed.

Lemma first_word_app (a b : string) :
  a <> "" -> Text.all_chars Text.not_space a = true ->
  first_word (a +:+ String " " b) = Some a.
Proof.
  intros Hne Ha. unfold first_word.
  rewrite <- (take_word_app a b Ha) at 2.
  destruct a as [|c a]; [done|]. rewrite app_cons.
  cbn [Text.all_chars] in Ha. apply andb_prop in Ha as [Hc _].
  unfold Text.not_space in Hc. apply negb_true_iff in Hc.
  cbn [lstrip]. rewrite Hc. reflexivity.
Qed.

(** X2: a runtime text made of the decimal text of an integer, a space
    and [min] is parsed to that integer, as long as the integer has at
    most 4300 digits, the most that [int] accepts. *)
Theorem parse_runtime_of_minutes (n : Z) :
  Z.abs n < 10 ^ Z.of_nat max_str_digits ->
  Normalizer.parse_runtime (JStr (pretty n +:+ " min")) = Ok (Some n).
Proof.
  intros Hn.
  assert (Hclean : Text.all_chars Text.not_space (pretty n) = true).
  { eapply all_chars_impl; [apply not_space_of_digit_or_dash|].
    apply pretty_Z_chars. }
  unfold Normalizer.parse_runtime.
  assert (Htruthy : truthy (JStr (pretty n +:+ " min")) = true).
  { cbn [truthy]. destruct (pretty n); reflexivity. }
  rewrite Htruthy. cbn [contains mbind result_bind].
  rewrite (str_in_app_r "min" (pretty n) " min" eq_refl).
  rewrite first_word_app by (try apply pretty_Z_nonempty; exact Hclean).
  cbn [mbind option_bind]. by rewrite (int_pretty n Hn).
Qed.

Lemma parse_runtime_of_minutes_witness :
  Z.abs 142 < 10 ^ Z.of_nat max_str_digits
  /\ Normalizer.parse_runtime (JStr (pretty 142 +:+ " min")) = Ok (Some 142).
Proof.
  assert (Hn : Z.abs 142 < 10 ^ Z.of_nat max_str_digits)
    by (vm_compute; reflexivity).
  split; [exact Hn|]. exact (parse_runtime_of_minutes 142 Hn).
Defined.

End RuntimeText.

(** ** Titles with a year *)

Section Titles.

Implicit Types (s t u : string) (c : ascii).

Lemma lstrip_head s :
  lstrip s = "" \/ exists c r, lstrip s = String c r /\ isspace c = false.
Proof.
  induction s as [|c s IH]; [by left|]. cbn [lstrip].
  destruct (isspace c) eqn:Hc; [exact IH|]. right. by exists c, s.
Qed.

Lemma lstrip_fixed s : lstrip (lstrip s) = lstrip s.
Proof.
  destruct (lstrip_head s) as [->|(c & r & -> & Hc)]; [reflexivity|].
  cbn [lstrip]. by rewrite Hc.
Qed.

Lemma all_chars_lstrip (P : ascii -> bool) s :
  Text.all_chars P s = true -> Text.all_chars P (lstrip s) = true.
Proof.
  induction s as [|c s IH]; [done|]. cbn [lstrip Text.all_chars].
  intros [Hc Hs]%andb_prop. destruct (isspace c); [by apply IH|].
  cbn [Text.all_chars]. by rewrite Hc, Hs.
Qed.

Lemma lstrip_snoc s c :
  isspace c = false -> exists u, lstrip (s +:+ String c "") = u +:+ String c "".
Proof.
  intros Hc. induction s as [|d s IH].
  - exists "". rewrite app_empty_l. cbn [lstrip]. by rewrite Hc.
  - rewrite app_cons. cbn [lstrip]. destruct (isspace d); [exact IH|].
    exists (String d s). by rewrite app_cons.
Qed.

Lemma rstrip_fixed s : rstrip (rstrip s) = rstrip s.
Proof.
  unfold rstrip. by rewrite rev_string_involutive, lstrip_fixed.
Qed.

(** Stripping on the right keeps a first character that is no space. *)
Lemma lstrip_rstrip s : lstrip s = s -> lstrip (rstrip s) = rstrip s.
Proof.
  intros Hs. destruct (lstrip_head s) as [He|(c & r & Heq & Hc)];
    rewrite Hs in *; [by subst s|]. subst s.
  unfold rstrip. cbn [rev_string]. rewrite (rev_string_acc r (String c "")).
  destruct (lstrip_snoc (rev_string r "") c Hc) as [u ->].
  rewrite rev_string_app. cbn [rev_string lstrip]. by rewrite Hc.
Qed.

Lemma strip_fixed s : strip (strip s) = strip s.
Proof.
  unfold strip. rewrite lstrip_rstrip by apply lstrip_fixed.
  apply rstrip_fixed.
Qed.

Lemma rstrip_app_space s : rstrip (s +:+ " ") = rstrip s.
Proof. unfold rstrip. rewrite rev_string_app. reflexivity. Qed.

Lemma lstrip_app_space s :
  lstrip (s +:+ " ") = if String.eqb (lstrip s) "" then "" else lstrip s +:+ " ".
Proof.
  induction s as [|c s IH]; [reflexivity|].
  rewrite app_cons. cbn [lstrip]. destruct (isspace c); [exact IH|].
  by rewrite app_cons.
Qed.

Lemma strip_app_space s : strip (s +:+ " ") = strip s.
Proof.
  unfold strip. rewrite lstrip_app_space.
  destruct (String.eqb_spec (lstrip s) "") as [->|_]; [reflexivity|].
  apply rstrip_app_space.
Qed.

Lemma digit_value_range c : isdigit c = true -> 0 <= digit_value c <= 9.
Proof.
  unfold isdigit, digit_value. intros [H1 H2]%andb_prop.
  apply N.leb_le in H1, H2. lia.
Qed.

(** X3: a stripped title without line feed, a space and a year of four
    digits in parentheses are read back as that title and that year. *)
Theorem parse_title_and_year_of_title_year (title : string)
    (d1 d2 d3 d4 : ascii) :
  strip title = title ->
  Text.all_chars (Text.is_not "010") title = true ->
  isdigit d1 = true -> isdigit d2 = true ->
  isdigit d3 = true -> isdigit d4 = true ->
  Etl.parse_title_and_year
    (title +:+ " (" +:+ String d1 (String d2 (String d3 (String d4 ")"))))
  = (title,
     Some (1000 * digit_value d1 + 100 * digit_value d2
           + 10 * digit_value d3 + digit_value d4)).
Proof.
  intros Hstrip Hline H1 H2 H3 H4. unfold Etl.parse_title_and_year.
  rewrite rev_string_app, !app_cons, app_empty_l. cbn [rev_string].
  change (Ascii.eqb ")" "010") with false. cbv iota.
  rewrite H1, H2, H3, H4. cbn [andb].
  assert (Hfeed : str_in (String "010" EmptyString)
                    (lstrip (rev_string title "")) = false).
  { apply str_in_first_char, all_chars_lstrip.
    by rewrite all_chars_rev, Hline. }
  rewrite Hfeed.
  change (isspace " ") with true. cbn [andb negb].
  rewrite rev_string_rev. cbn [rev_string].
  by rewrite strip_app_space, Hstrip.
Qed.

Lemma parse_title_and_year_of_title_year_witness :
  (strip "Toy Story" = "Toy Story"
   /\ Text.all_chars (Text.is_not "010") "Toy Story" = true
   /\ isdigit "1" = true /\ isdigit "9" = true /\ isdigit "5" = true)
  /\ Etl.parse_title_and_year "Toy Story (1995)" = ("Toy Story", Some 1995).
Proof.
  split; [repeat split|].
  apply (parse_title_and_year_of_title_year "Toy Story" "1" "9" "9" "5");
    reflexivity.
Defined.

(** X4: when no year is found the title is returned as it came; a year
    that is found lies between 0 and 9999 and its title is stripped. *)
Theorem parse_title_and_year_result (title : string) :
  let r := Etl.parse_title_and_year title in
  (snd r = None -> fst r = title)
  /\ (forall y, snd r = Some y -> 0 <= y <= 9999 /\ strip (fst r) = fst r).
Proof.
  unfold Etl.parse_title_and_year. cbv zeta.
  set (r := match rev_string title "" with
            | String c r' => if Ascii.eqb c "010" then r' else rev_string title ""
            | EmptyString => rev_string title ""
            end).
  assert (Hno : (snd (title, @None Z) = None -> fst (title, @None Z) = title)
                /\ (forall y, snd (title, @None Z) = Some y ->
                      0 <= y <= 9999
                      /\ strip (fst (title, @None Z)) = fst (title, @None Z))).
  { split; [reflexivity|discriminate]. }
  destruct r as [|c0 [|d4 [|d3 [|d2 [|d1 [|c5 [|sp before]]]]]]];
    try exact Hno;
    (destruct c0 as [[] [] [] [] [] [] [] []]; try exact Hno);
    try (destruct c5 as [[] [] [] [] [] [] [] []]; try exact Hno).
  destruct (isdigit d1 && isdigit d2 && isdigit d3 && isdigit d4 && isspace sp
            && negb (str_in (String "010" EmptyString) (lstrip before)))
    eqn:Hcond; [|exact Hno].
  do 5 (apply andb_prop in Hcond as [Hcond ?]).
  cbn [fst snd]. split; [discriminate|]. intros y [= <-].
  split; [|apply strip_fixed].
  assert (0 <= digit_value d1 <= 9) by (by apply digit_value_range).
  assert (0 <= digit_value d2 <= 9) by (by apply digit_value_range).
  assert (0 <= digit_value d3 <= 9) by (by apply digit_value_range).
  assert (0 <= digit_value d4 <= 9) by (by apply digit_value_range).
  lia.
Qed.

End Titles.

(** ** Splitting a text at a character *)

Section Splitting.

Implicit Types (s w : string) (sep c : ascii).

Lemma split_bar_is_split_char s : Etl.split_bar s = Text.split_char "|" s.
Proof.
  induction s as [|c s IH]; [reflexivity|].
  cbn [Etl.split_bar Text.split_char]. by rewrite IH.
Qed.

Lemma split_char_nonempty sep s : Text.split_char sep s <> [].
Proof.
  destruct s as [|c s]; [discriminate|]. cbn [Text.split_char].
  destruct (Ascii.eqb c sep); [discriminate|].
  destruct (Text.split_char sep s); discriminate.
Qed.

Lemma split_char_no_sep sep s w :
  In w (Text.split_char sep s) -> Text.all_chars (Text.is_not sep) w = true.
Proof.
  revert w. induction s as [|c s IH]; intros w.
  - intros [<-|[]]. reflexivity.
  - cbn [Text.split_char]. destruct (Ascii.eqb c sep) eqn:Hc.
    + intros [<-|Hw]; [reflexivity|by apply IH].
    + destruct (Text.split_char sep s) as [|w0 ws] eqn:Hsplit.
      { by destruct (split_char_nonempty sep s). }
      intros [<-|Hw]; [|apply IH; by right].
      cbn [Text.all_chars]. unfold Text.is_not at 1. rewrite Hc.
      apply IH. by left.
Qed.

Lemma split_char_head_prefix sep s w ws :
  Text.split_char sep s = w :: ws -> startswith s w = true.
Proof.
  revert w ws. induction s as [|c s IH]; intros w ws.
  - intros [= <- _]. reflexivity.
  - cbn [Text.split_char]. destruct (Ascii.eqb c sep).
    + intros [= <- _]. reflexivity.
    + destruct (Text.split_char sep s) as [|w0 ws0] eqn:Hsplit.
      { by destruct (split_char_nonempty sep s). }
      intros [= <- _]. cbn [startswith]. rewrite Ascii.eqb_refl.
      by apply (IH w0 ws0).
Qed.

Lemma str_in_empty s : str_in "" s = true.
Proof. destruct s; reflexivity. Qed.

(** Each piece occurs in the text. *)
Lemma split_char_pieces_occur sep s w :
  In w (Text.split_char sep s) -> str_in w s = true.
Proof.
  revert w. induction s as [|c s IH]; intros w.
  - intros [<-|[]]. reflexivity.
  - cbn [Text.split_char]. destruct (Ascii.eqb c sep).
    + intros [<-|Hw]; [apply str_in_empty|].
      cbn [str_in]. rewrite (IH w Hw). apply orb_true_r.
    + destruct (Text.split_char sep s) as [|w0 ws] eqn:Hsplit.
      { by destruct (split_char_nonempty sep s). }
      intros [<-|Hw].
      * cbn [str_in startswith]. rewrite Ascii.eqb_refl.
        by rewrite (split_char_head_prefix sep s w0 ws Hsplit).
      * cbn [str_in]. rewrite (IH w) by (by right). apply orb_true_r.
Qed.

Lemma split_char_whole sep s :
  Text.all_chars (Text.is_not sep) s = true -> Text.split_char sep s = [s].
Proof.
  induction s as [|c s IH]; [reflexivity|].
  cbn [Text.all_chars Text.split_char]. intros [Hc Hs]%andb_prop.
  unfold Text.is_not in Hc. apply negb_true_iff in Hc.
  by rewrite Hc, (IH Hs).
Qed.

(** X5: every genre taken from the genres column is a non-empty piece of
    the column text without bar, and is not the placeholder for a movie
    without genres. *)
Theorem genre_list_genres (genres_raw g : string) :
  In g (Etl.genre_list genres_raw) ->
  g <> "" /\ g <> "(no genres listed)"
  /\ Text.all_chars (Text.is_not "|") g = true
  /\ str_in g genres_raw = true.
Proof.
  unfold Etl.genre_list. rewrite split_bar_is_split_char.
  intros [Hg Hkeep]%filter_In. apply andb_prop in Hkeep as [H1 H2].
  apply negb_true_iff, String.eqb_neq in H1, H2.
  split; [exact H1|]. split; [exact H2|].
  split; [by apply (split_char_no_sep "|" genres_raw)|].
  by apply (split_char_pieces_occur "|" genres_raw).
Qed.

Lemma genre_list_genres_witness :
  In "Children" (Etl.genre_list "Animation|Children|(no genres listed)")
  /\ "Children" <> ""
  /\ "Children" <> "(no genres listed)"
  /\ Text.all_chars (Text.is_not "|") "Children" = true
  /\ str_in "Children" "Animation|Children|(no genres listed)" = true.
Proof.
  assert (H : In "Children"
                (Etl.genre_list "Animation|Children|(no genres listed)"))
    by (right; left; reflexivity).
  split; [exact H|].
  exact (genre_list_genres "Animation|Children|(no genres listed)"
           "Children" H).
Defined.

Lemma all_chars_strip (P : ascii -> bool) s :
  Text.all_chars P s = true -> Text.all_chars P (strip s) = true.
Proof.
  intros Hs. unfold strip, rstrip.
  rewrite all_chars_rev, andb_true_r. apply all_chars_lstrip.
  rewrite all_chars_rev, andb_true_r. by apply all_chars_lstrip.
Qed.

(** X6: every statement that the splitter yields is non-empty, stripped
    and without semicolon. *)
Theorem statements_are_clean (sql_text st : string) :
  In st (Text.statements sql_text) ->
  st <> "" /\ strip st = st /\ Text.all_chars (Text.is_not ";") st = true.
Proof.
  unfold Text.statements. intros (piece & <- & Hin)%in_map_iff.
  apply filter_In in Hin as [Hpiece Hkeep].
  apply negb_true_iff, String.eqb_neq in Hkeep.
  split; [exact Hkeep|]. split; [apply strip_fixed|].
  apply all_chars_strip. by apply (split_char_no_sep ";" sql_text).
Qed.

Lemma statements_are_clean_witness :
  In "SELECT 1" (Text.statements " SELECT 1 ; ;SELECT 2;")
  /\ "SELECT 1" <> "" /\ strip "SELECT 1" = "SELECT 1"
  /\ Text.all_chars (Text.is_not ";") "SELECT 1" = true.
Proof.
  assert (H : In "SELECT 1" (Text.statements " SELECT 1 ; ;SELECT 2;"))
    by (left; reflexivity).
  split; [exact H|].
  exact (statements_are_clean " SELECT 1 ; ;SELECT 2;" "SELECT 1" H).
Defined.

(** X7: a text without semicolon holds one statement, its stripped text,
    or none when it is blank. *)
Theorem statements_of_one (sql_text : string) :
  Text.all_chars (Text.is_not ";") sql_text = true ->
  Text.statements sql_text
  = if String.eqb (strip sql_text) "" then [] else [strip sql_text].
Proof.
  intros Hs. unfold Text.statements. rewrite (split_char_whole ";" _ Hs).
  cbn [List.filter]. destruct (String.eqb (strip sql_text) ""); reflexivity.
Qed.

Lemma statements_of_one_witness :
  Text.all_chars (Text.is_not ";") "  SELECT title FROM movies  " = true
  /\ Text.statements "  SELECT title FROM movies  "
     = ["SELECT title FROM movies"].
Proof.
  split; [reflexivity|].
  exact (statements_of_one "  SELECT title FROM movies  " eq_refl).
Defined.

End Splitting.

(** ** What one lookup does to the run state *)

Section Lookup.

Ltac query_cases :=
  unfold Etl.query_omdb, Enrich.query_omdb, Etl.search_fallback, Etl._call;
  io_unfold; repeat (case_match; simplify_eq/=).

(** X8: whatever its outcome, a lookup keeps every cache entry as it is
    (none is overwritten or removed), changes no entry but the one of
    its own key, and does not reset the rate-limit flag. *)
Theorem lookup_keeps_cache_and_flag (s : Runs.script) (E : env)
    (title : string) (year : option Z) (fast : bool) (w : world) :
  let w' := snd (Runs.query_omdb s E title year fast w) in
  (forall k v, cache w !! k = Some v -> cache w' !! k = Some v)
  /\ (forall k, k <> cache_key title year -> cache w' !! k = cache w !! k)
  /\ (OMDB_RATE_LIMITED w = true -> OMDB_RATE_LIMITED w' = true).
Proof.
  destruct s; cbn [Runs.query_omdb]; query_cases.
  all: split_and!; try done.
  all: try (intros k v Hk; destruct (decide (k = cache_key title year)) as [->|];
            [congruence|by rewrite lookup_insert_ne]).
  all: try (intros k Hk; by rewrite lookup_insert_ne).
Qed.

(** X9: a lookup of the full load sends at most three requests, one of
    the enrichment at most one; a lookup whose key is cached, or that
    runs in fast mode, under the flag or without API key sends none. *)
Theorem lookup_requests (s : Runs.script) (E : env)
    (title : string) (year : option Z) (fast : bool) (w : world) :
  let w' := snd (Runs.query_omdb s E title year fast w) in
  (exists new, sent w' = (new ++ sent w)%list
               /\ (length new <= Frame.request_bound s)%nat)
  /\ (is_Some (cache w !! cache_key title year)
      \/ fast = true \/ OMDB_RATE_LIMITED w = true \/ no_api_key E = true ->
      sent w' = sent w).
Proof.
  destruct s; cbn [Runs.query_omdb Frame.request_bound]; query_cases.
  all: split;
    [first [ by exists []; split; [reflexivity|cbn; lia]
           | by eexists [_]; split; [reflexivity|cbn; lia]
           | by eexists [_; _]; split; [reflexivity|cbn; lia]
           | by eexists [_; _; _]; split; [reflexivity|cbn; lia] ]
    |].
  all: try done.
  all: intros [[v Hv]|[->|[Hl|Hk]]]; try congruence; try done.
  all: try (by rewrite Hl, ?orb_true_r in *).
Qed.

End Lookup.

(** ** Relations kept by whole runs *)

(** The two scripts are sequences of lookups, statements, prints and
    cache writes.  A relation between states that is reflexive and
    transitive and that each of these steps respects is respected by the
    loops and by [main], whatever their outcome. *)

Section Steps.

Import Frame.

Variable R : world -> world -> Prop.
Variable E : env.
Variable fast : bool.

Hypothesis R_refl : forall w, R w w.
Hypothesis R_trans : forall a b c, R a b -> R b c -> R a c.
Hypothesis R_stdout : forall w l, R w (with_stdout l w).
Hypothesis R_rollback : forall w w', R w w' -> R w (with_db (db w) w').
Hypothesis R_save : forall w, R w (with_saved (cache w) w).
Hypothesis R_load : forall w, R w (with_cache (default ∅ (cache_file w)) w).
Hypothesis R_etl_lookup :
  forall title year, steps R (Etl.query_omdb E title year fast).
Hypothesis R_enrich_lookup :
  forall title year, steps R (Enrich.query_omdb E title year fast).
Hypothesis R_upsert : forall p, steps R (execute E (Upsert p)).
Hypothesis R_fallback : forall p, steps R (execute E (UpsertFallback p)).
Hypothesis R_genre : forall name, steps R (execute E (InsertGenre name)).
Hypothesis R_movie_genre :
  forall m g, steps R (execute E (InsertMovieGenre m g)).
Hypothesis R_rating : forall r, steps R (execute E (InsertRating r)).
Hypothesis R_update : forall i sets, steps R (execute E (Update i sets)).

Lemma steps_ret {A} (a : A) : steps R (mret a).
Proof. intros w. apply R_refl. Qed.

Lemma steps_bind {A B} (m : io A) (k : A -> io B) :
  steps R m -> (forall a, steps R (k a)) -> steps R (m ≫= k).
Proof.
  intros Hm Hk w. unfold mbind, io_bind. specialize (Hm w).
  destruct (m w) as [[a|e] w1]; cbn [snd] in *; [|exact Hm].
  eapply R_trans; [exact Hm|apply Hk].
Qed.

Lemma steps_lift {A} (r : result A) : steps R (lift r).
Proof. intros w. apply R_refl. Qed.

Lemma steps_gets {A} (f : world -> A) : steps R (gets f).
Proof. intros w. apply R_refl. Qed.

Lemma steps_raise {A} (e : exn) : steps R (@raise A e).
Proof. intros w. apply R_refl. Qed.

Lemma steps_print (m : message) : steps R (print m).
Proof. intros w. apply R_stdout. Qed.

Lemma steps_save : steps R save_cache.
Proof. intros w. apply R_save. Qed.

Lemma steps_load : steps R load_cache.
Proof. intros w. apply R_load. Qed.

Lemma steps_try {A} (body : io A) (handler : exn -> io A) :
  steps R body -> (forall e, steps R (handler e)) ->
  steps R (try_except body handler).
Proof.
  intros Hb Hh w. unfold try_except. specialize (Hb w).
  destruct (body w) as [[a|e] w1]; cbn [snd] in *; [exact Hb|].
  eapply R_trans; [exact Hb|apply Hh].
Qed.

Lemma steps_transaction {A} (body : io A) :
  steps R body -> steps R (transaction body).
Proof.
  intros Hb w. unfold transaction. specialize (Hb w).
  destruct (body w) as [[a|e] w1]; cbn [snd] in *; [exact Hb|].
  by apply R_rollback.
Qed.

Create HintDb steps.

Local Hint Resolve steps_ret steps_bind steps_lift steps_gets steps_raise
  steps_print steps_save steps_load steps_try steps_transaction : steps.

Lemma steps_link_genres (movie_id : Z) (gs : list string) :
  steps R (Etl.link_genres E movie_id gs).
Proof.
  induction gs as [|g gs IH]; cbn [Etl.link_genres]; [auto with steps|].
  apply steps_bind; [|intros _; exact IH].
  unfold Etl.link_genre. apply steps_bind; [apply R_genre|]. intros _.
  apply steps_bind; [auto with steps|]. intros [i|]; [|auto with steps].
  destruct (i =? 0); [auto with steps|apply R_movie_genre].
Qed.

Lemma steps_upsert_movie (p : Sql.upsert_params) :
  steps R (Etl.upsert_movie E p).
Proof.
  unfold Etl.upsert_movie. apply steps_try; [apply R_upsert|].
  intros [| | | | |m]; auto with steps.
  destruct (_ || _); [apply R_fallback|auto with steps].
Qed.

Lemma steps_process_movies (rows : list Etl.movie_row) :
  steps R (Etl.process_movies E fast rows).
Proof.
  induction rows as [|row rows IH]; cbn [Etl.process_movies]; [auto with steps|].
  apply steps_bind; [|intros _; exact IH].
  unfold Etl.process_movie.
  destruct (Etl.parse_title_and_year (Etl.raw_title row)) as [title year].
  apply steps_bind; [apply R_etl_lookup|]. intros raw.
  apply steps_bind; [destruct (truthy raw); auto with steps|]. intros omdb.
  apply steps_bind; [apply steps_upsert_movie|]. intros _.
  apply steps_link_genres.
Qed.

Lemma steps_insert_ratings (rs : list Sql.rating) (n : Z) :
  steps R (Etl.insert_ratings E rs n).
Proof.
  revert n. induction rs as [|r rs IH]; intros n; cbn [Etl.insert_ratings];
    [auto with steps|].
  apply steps_bind; [apply R_rating|]. intros _. apply IH.
Qed.

Lemma steps_etl_main (limit : option Z) (movies_csv : list Etl.movie_row)
    (ratings_csv : list Sql.rating) :
  steps R (Etl.main E limit fast movies_csv ratings_csv).
Proof.
  unfold Etl.main, Etl.metadata_phase, Etl.ratings_phase.
  apply steps_bind; [apply steps_load|]. intros _.
  apply steps_bind.
  - apply steps_bind; [apply steps_transaction, steps_process_movies|].
    intros _. auto with steps.
  - intros _. apply steps_bind; [auto with steps|]. intros valid.
    apply steps_bind; [destruct (0 <? _); auto with steps|]. intros _.
    apply steps_bind; [apply steps_transaction, steps_insert_ratings|].
    intros inserted. auto with steps.
Qed.

Lemma steps_update_movie (movie_id : Z) (data : Normalizer.record) :
  steps R (Enrich.update_movie E movie_id data).
Proof.
  unfold Enrich.update_movie. destruct (Enrich.fields_of data);
    [auto with steps|].
  apply steps_bind; [apply R_update|auto with steps].
Qed.

Lemma steps_write_record (movie_id : Z) (data : Normalizer.record)
    (enriched skipped : Z) :
  steps R (Enrich.write_record E movie_id data enriched skipped).
Proof.
  unfold Enrich.write_record. apply steps_try.
  - apply steps_bind; [apply steps_update_movie|].
    intros [|]; auto with steps.
  - intros [| | | | |m]; auto with steps.
    apply steps_bind; [auto with steps|]. intros _.
    destruct (Enrich.has_other_fields data); [|auto with steps].
    apply steps_bind; [apply steps_update_movie|auto with steps].
Qed.

Lemma steps_process_candidate (candidate : Z * string * option Z)
    (enriched skipped : Z) :
  steps R (Enrich.process_candidate E fast candidate enriched skipped).
Proof.
  destruct candidate as [[movie_id title] year]. unfold Enrich.process_candidate.
  apply steps_bind; [apply R_enrich_lookup|]. intros raw.
  apply steps_bind; [destruct (truthy raw); auto with steps|].
  intros [data|]; [|auto with steps].
  apply steps_bind; [apply steps_write_record|]. intros counters.
  auto with steps.
Qed.

Lemma steps_enrich_loop (candidates : list (Z * string * option Z))
    (enriched skipped : Z) :
  steps R (Enrich.enrich_loop E fast candidates enriched skipped).
Proof.
  revert enriched skipped.
  induction candidates as [|candidate rest IH]; intros enriched skipped;
    cbn [Enrich.enrich_loop]; [auto with steps|].
  apply steps_bind; [auto with steps|]. intros limited.
  destruct (limited && negb fast); [auto with steps|].
  apply steps_bind; [apply steps_process_candidate|]. intros counters. apply IH.
Qed.

Lemma steps_enrich_main (batch : Z) : steps R (Enrich.main E batch fast).
Proof.
  unfold Enrich.main, Enrich.fetch_candidates.
  apply steps_bind; [apply steps_load|]. intros _.
  apply steps_bind; [auto with steps|].
  intros [|candidate rest]; [auto with steps|].
  apply steps_bind; [auto with steps|]. intros _.
  apply steps_bind; [apply steps_enrich_loop|]. intros counters.
  auto with steps.
Qed.

End Steps.

(** ** Runs without network *)

Section Offline.

Lemma lookup_silent (s : Runs.script) (E : env) (title : string)
    (year : option Z) (fast : bool) (w : world) :
  fast = true \/ no_api_key E = true ->
  sent (snd (Runs.query_omdb s E title year fast w)) = sent w.
Proof.
  intros Hoff.
  destruct (cache w !! cache_key title year) as [v|] eqn:Hc.
  { by rewrite (query_hit s E title year fast w v Hc). }
  destruct (fast || OMDB_RATE_LIMITED w) eqn:Hfl.
  { by rewrite (query_offline s E title year fast w Hc Hfl). }
  destruct Hoff as [->|Hkey]; [discriminate|].
  by rewrite (query_no_key s E title year fast w Hc Hfl Hkey).
Qed.

Lemma execute_keeps_sent (E : env) (st : statement) (w : world) :
  sent (snd (execute E st w)) = sent w.
Proof. unfold execute. by destruct (run_statement E st (db w)). Qed.

(** X10: in fast mode, or without API key, a whole run of either script
    sends no request, whatever the cache holds and however the run
    ends. *)
Theorem offline_runs_send_nothing (E : env) (fast : bool) (limit : option Z)
    (movies_csv : list Etl.movie_row) (ratings_csv : list Sql.rating)
    (batch : Z) (w : world) :
  fast = true \/ no_api_key E = true ->
  sent (snd (Etl.main E limit fast movies_csv ratings_csv w)) = sent w
  /\ sent (snd (Enrich.main E batch fast w)) = sent w.
Proof.
  intros Hoff.
  set (R := fun w w' : world => sent w' = sent w).
  assert (Hexec : forall st, Frame.steps R (execute E st))
    by (intros st w0; apply execute_keeps_sent).
  assert (Hetl : forall title year,
             Frame.steps R (Etl.query_omdb E title year fast))
    by (intros title year w0;
        apply (lookup_silent Runs.FullLoad E title year fast w0 Hoff)).
  assert (Henrich : forall title year,
             Frame.steps R (Enrich.query_omdb E title year fast))
    by (intros title year w0;
        apply (lookup_silent Runs.EnrichOnly E title year fast w0 Hoff)).
  assert (Htrans : forall a b c, R a b -> R b c -> R a c)
    by (unfold R; intros a b c Hab Hbc; congruence).
  split.
  - apply (steps_etl_main R E fast); unfold R; auto.
  - apply (steps_enrich_main R E fast); unfold R; auto.
Qed.

Lemma offline_runs_send_nothing_witness :
  let w := Samples.fresh Samples.two_movies in
  (true = true \/ no_api_key Samples.toy_story_env = true)
  /\ sent (snd (Etl.main Samples.toy_story_env None true [Samples.second_copy]
                  [Samples.rating_of 7 2] w)) = sent w
  /\ sent (snd (Enrich.main Samples.toy_story_env 500 true w)) = sent w.
Proof.
  cbv zeta. split; [by left|].
  apply (offline_runs_send_nothing Samples.toy_story_env true None
           [Samples.second_copy] [Samples.rating_of 7 2] 500
           (Samples.fresh Samples.two_movies)).
  by left.
Defined.

End Offline.

(** ** The cache file across a run *)

Section CacheFile.

Import Frame.

Lemma lookup_cache_kept (s : Runs.script) (E : env) (title : string)
    (year : option Z) (fast : bool) (w : world) (k : string) (v : json) :
  cache w !! k = Some v ->
  cache (snd (Runs.query_omdb s E title year fast w)) !! k = Some v.
Proof.
  intros Hk. destruct (cache w !! cache_key title year) as [v0|] eqn:Hc.
  { by rewrite (query_hit s E title year fast w v0 Hc). }
  assert (Hne : k <> cache_key title year) by congruence.
  revert Hk. destruct s; cbn [Runs.query_omdb];
    unfold Etl.query_omdb, Enrich.query_omdb, Etl.search_fallback, Etl._call;
    io_unfold; intros Hk; repeat (case_match; simplify_eq/=); try done.
  all: by rewrite lookup_insert_ne.
Qed.

Lemma file_kept_refl (w : world) : file_kept w w.
Proof. intros H. by split. Qed.

Lemma file_kept_trans (a b c : world) :
  file_kept a b -> file_kept b c -> file_kept a c.
Proof.
  intros Hab Hbc Ha. destruct (Hab Ha) as [Hb Hfab].
  destruct (Hbc Hb) as [Hc Hfbc]. split; [exact Hc|]. auto.
Qed.

Lemma file_kept_same (w w' : world) :
  cache_file w' = cache_file w ->
  (forall k v, cache w !! k = Some v -> cache w' !! k = Some v) ->
  file_kept w w'.
Proof.
  intros Hfile Hcache Hw. unfold file_content in *. rewrite Hfile.
  split; [|done]. intros k v Hk. by apply Hcache, Hw.
Qed.

Lemma file_kept_lookup (s : Runs.script) (E : env) (title : string)
    (year : option Z) (fast : bool) :
  steps file_kept (Runs.query_omdb s E title year fast).
Proof.
  intros w. apply file_kept_same.
  - by destruct (query_frame s E title year fast w) as (_ & _ & Hf & _).
  - intros k v. apply lookup_cache_kept.
Qed.

Lemma file_kept_execute (E : env) (st : statement) :
  steps file_kept (execute E st).
Proof.
  intros w. apply file_kept_same; unfold execute;
    by destruct (run_statement E st (db w)).
Qed.

Lemma load_cache_twice (w : world) :
  snd (load_cache (snd (load_cache w))) = snd (load_cache w).
Proof. reflexivity. Qed.

Lemma file_kept_runs (E : env) (fast : bool) (limit : option Z)
    (movies_csv : list Etl.movie_row) (ratings_csv : list Sql.rating)
    (batch : Z) :
  steps file_kept (Etl.main E limit fast movies_csv ratings_csv)
  /\ steps file_kept (Enrich.main E batch fast).
Proof.
  assert (Hstdout : forall w l, file_kept w (with_stdout l w))
    by (intros w l; by apply file_kept_same).
  assert (Hroll : forall w w', file_kept w w' -> file_kept w (with_db (db w) w'))
    by (intros w w' H Hw; exact (H Hw)).
  assert (Hsave : forall w, file_kept w (with_saved (cache w) w)).
  { intros w Hw. unfold file_content. cbn. split; [done|exact Hw]. }
  assert (Hload : forall w,
             file_kept w (with_cache (default ∅ (cache_file w)) w)).
  { intros w _. split; done. }
  split.
  - apply (steps_etl_main file_kept E fast);
      eauto using file_kept_refl, file_kept_trans, file_kept_execute.
    intros title year. apply (file_kept_lookup Runs.FullLoad).
  - apply (steps_enrich_main file_kept E fast);
      eauto using file_kept_refl, file_kept_trans, file_kept_execute.
    intros title year. apply (file_kept_lookup Runs.EnrichOnly).
Qed.

(** X11: a run of either script that ends normally loses no entry of
    the cache file: whatever the file holds for a key when the run
    starts, it holds for that key when the run has returned. *)
Theorem cache_file_entries_are_kept (E : env) (fast : bool) (limit : option Z)
    (movies_csv : list Etl.movie_row) (ratings_csv : list Sql.rating)
    (batch : Z) (w : world) (saved : gmap string json) (k : string) (v : json) :
  cache_file w = Some saved ->
  saved !! k = Some v ->
  (forall out w',
     Etl.main E limit fast movies_csv ratings_csv w = (Ok out, w') ->
     exists saved', cache_file w' = Some saved' /\ saved' !! k = Some v)
  /\ (forall out w',
        Enrich.main E batch fast w = (Ok out, w') ->
        exists saved', cache_file w' = Some saved' /\ saved' !! k = Some v).
Proof.
  intros Hfile Hk.
  destruct (file_kept_runs E fast limit movies_csv ratings_csv batch)
    as [Hetl Henrich].
  set (w0 := snd (load_cache w)).
  assert (Hw0 : forall k v, file_content w0 !! k = Some v ->
                  cache w0 !! k = Some v) by done.
  assert (Hk0 : file_content w0 !! k = Some v).
  { unfold file_content, w0. cbn. by rewrite Hfile. }
  assert (Hfound : forall w', file_content w' !! k = Some v ->
                     exists saved', cache_file w' = Some saved'
                                    /\ saved' !! k = Some v).
  { intros w'. unfold file_content. destruct (cache_file w') as [f|]; cbn.
    - intros Hf. by exists f.
    - by rewrite lookup_empty. }
  split; intros out w' Hrun; apply Hfound.
  - change w' with (snd (Ok out, w')). rewrite <- Hrun.
    change (Etl.main E limit fast movies_csv ratings_csv w)
      with (Etl.main E limit fast movies_csv ratings_csv w0).
    by apply (Hetl w0 Hw0).
  - change w' with (snd (Ok out, w')). rewrite <- Hrun.
    change (Enrich.main E batch fast w) with (Enrich.main E batch fast w0).
    by apply (Henrich w0 Hw0).
Qed.

Lemma cache_file_entries_are_kept_witness :
  let w := with_saved {[ "Heat||1995" := skipped_response ]}
             (Samples.fresh Samples.two_movies) in
  let etl := Etl.main Samples.toy_story_env None false
               [Samples.second_copy] [Samples.rating_of 7 2] w in
  let enrich := Enrich.main Samples.toy_story_env 500 false w in
  (cache_file w = Some {[ "Heat||1995" := skipped_response ]}
   /\ ({[ "Heat||1995" := skipped_response ]} : gmap string json)
        !! "Heat||1995" = Some skipped_response
   /\ etl = (Ok (0, 1), snd etl)
   /\ enrich = (Ok (1, 0), snd enrich))
  /\ (exists saved',
        cache_file (snd etl) = Some saved'
        /\ saved' !! "Heat||1995" = Some skipped_response)
  /\ (exists saved',
        cache_file (snd enrich) = Some saved'
        /\ saved' !! "Heat||1995" = Some skipped_response).
Proof.
  cbv zeta.
  set (w := with_saved {[ "Heat||1995" := skipped_response ]}
              (Samples.fresh Samples.two_movies)).
  assert (Hetl : Etl.main Samples.toy_story_env None false
                   [Samples.second_copy] [Samples.rating_of 7 2] w
                 = (Ok (0, 1),
                    snd (Etl.main Samples.toy_story_env None false
                           [Samples.second_copy] [Samples.rating_of 7 2] w)))
    by (vm_compute; reflexivity).
  assert (Henrich : Enrich.main Samples.toy_story_env 500 false w
                    = (Ok (1, 0),
                       snd (Enrich.main Samples.toy_story_env 500 false w)))
    by (vm_compute; reflexivity).
  destruct (cache_file_entries_are_kept Samples.toy_story_env false None
              [Samples.second_copy] [Samples.rating_of 7 2] 500 w
              {[ "Heat||1995" := skipped_response ]} "Heat||1995"
              skipped_response eq_refl eq_refl) as [Ha Hb].
  split; [by split_and!|].
  split; [exact (Ha _ _ Hetl)|exact (Hb _ _ Henrich)].
Defined.

End CacheFile.

(** ** What the enrichment leaves alone *)

Section EnrichFrame.

Import Frame.

Lemma set_columns_identity (bound : list (Sql.column * Sql.value))
    (m : Sql.movie) :
  identity (fold_left Sql.set_column bound m) = identity m.
Proof.
  revert m. induction bound as [|[c v] bound IH]; intros m; cbn [fold_left];
    [reflexivity|].
  rewrite IH. destruct c; reflexivity.
Qed.

Lemma replace_row_identity (row old : Sql.movie) (ms : list Sql.movie) :
  find (fun m => Sql.id m =? Sql.id row) ms = Some old ->
  identity row = identity old ->
  map identity (Sql.replace_row row ms) = map identity ms.
Proof.
  intros Hfind Hrow. induction ms as [|m ms IH]; cbn in *; [reflexivity|].
  destruct (Sql.id m =? Sql.id row); cbn.
  - injection Hfind as ->. by rewrite Hrow.
  - f_equal. by apply IH.
Qed.

Lemma rows_kept_refl (d : Sql.store) : rows_kept d d.
Proof. by repeat split. Qed.

Lemma rows_kept_trans (a b c : Sql.store) :
  rows_kept a b -> rows_kept b c -> rows_kept a c.
Proof.
  unfold rows_kept. intros (H1 & H2 & H3 & H4) (K1 & K2 & K3 & K4).
  repeat split; congruence.
Qed.

Lemma update_keeps_rows (i : Z) (sets : list (Sql.column * json))
    (d d' : Sql.store) :
  Sql.update i sets d = Ok d' -> rows_kept d d'.
Proof.
  unfold Sql.update.
  destruct (Sql.bind_int i) as [i'|] eqn:Hi; cbn [mbind result_bind];
    [|discriminate].
  destruct (Sql.bind_all sets) as [bound|]; cbn [mbind result_bind];
    [|discriminate].
  destruct (Sql.find_movie i' d) as [old|] eqn:Hold.
  2: { intros [= <-]. apply rows_kept_refl. }
  destruct (_ && _); [discriminate|]. intros [= <-].
  repeat split. cbn [Sql.movies Sql.with_movies].
  unfold Sql.find_movie in Hold.
  apply (replace_row_identity _ old).
  - rewrite set_columns_id. by rewrite (find_row_id _ _ _ Hold).
  - apply set_columns_identity.
Qed.

(** X12: a run of the enrichment, however it ends, leaves the movies
    table with the same rows in the same order, each with its
    identifier, title and year, and leaves the ratings, the genres and
    their associations untouched. *)
Theorem enrichment_keeps_rows (E : env) (batch : Z) (fast : bool) (w : world) :
  rows_kept (db w) (db (snd (Enrich.main E batch fast w))).
Proof.
  set (R := fun a b : world => rows_kept (db a) (db b)).
  apply (steps_enrich_main R E fast); unfold R.
  - intros a. apply rows_kept_refl.
  - intros a b c. apply rows_kept_trans.
  - intros a l. apply rows_kept_refl.
  - intros a. apply rows_kept_refl.
  - intros a. apply rows_kept_refl.
  - intros title year a.
    destruct (query_frame Runs.EnrichOnly E title year fast a)
      as (Hdb & _). cbn [Runs.query_omdb] in Hdb. rewrite Hdb.
    apply rows_kept_refl.
  - intros i sets a. unfold execute. cbn [run_statement].
    destruct (Sql.update i sets (db a)) as [d'|] eqn:Hup; cbn.
    + by apply (update_keeps_rows i sets).
    + apply rows_kept_refl.
Qed.

End EnrichFrame.

(** ** Relations between the stores of a run *)

Section StoreRelations.

Import Frame.

Variable Q : Sql.store -> Sql.store -> Prop.
Variable E : env.
Variable fast : bool.

Hypothesis Q_refl : forall d, Q d d.
Hypothesis Q_trans : forall a b c, Q a b -> Q b c -> Q a c.

Lemma on_store_refl (w : world) : on_store Q w w.
Proof. apply Q_refl. Qed.

Lemma on_store_trans (a b c : world) :
  on_store Q a b -> on_store Q b c -> on_store Q a c.
Proof. apply Q_trans. Qed.

Lemma on_store_same (w w' : world) : db w' = db w -> on_store Q w w'.
Proof. unfold on_store. intros ->. apply Q_refl. Qed.

Lemma on_store_lookup (s : Runs.script) (title : string) (year : option Z) :
  steps (on_store Q) (Runs.query_omdb s E title year fast).
Proof.
  intros w. apply on_store_same.
  by destruct (query_frame s E title year fast w) as (Hdb & _).
Qed.

Lemma on_store_execute (st : statement) :
  (forall d d', run_statement E st d = Ok d' -> Q d d') ->
  steps (on_store Q) (execute E st).
Proof.
  intros Hst w. unfold execute.
  destruct (run_statement E st (db w)) as [d'|] eqn:Hrun; cbn.
  - by apply Hst.
  - apply Q_refl.
Qed.

Hypothesis Q_upsert : forall b p d d', Sql.upsert b p d = Ok d' -> Q d d'.
Hypothesis Q_genre : forall name d, Q d (Sql.insert_genre name d).
Hypothesis Q_movie_genre : forall m g d, Q d (Sql.insert_movie_genre m g d).

Lemma on_store_metadata_statements :
  (forall p, steps (on_store Q) (execute E (Upsert p)))
  /\ (forall p, steps (on_store Q) (execute E (UpsertFallback p)))
  /\ (forall name, steps (on_store Q) (execute E (InsertGenre name)))
  /\ (forall m g, steps (on_store Q) (execute E (InsertMovieGenre m g))).
Proof.
  split_and!; intros; apply on_store_execute; cbn [run_statement].
  - apply Q_upsert.
  - apply Q_upsert.
  - intros d d' [= <-]. apply Q_genre.
  - intros d d' [= <-]. apply Q_movie_genre.
Qed.

Lemma on_store_process_movies (rows : list Etl.movie_row) :
  steps (on_store Q) (Etl.process_movies E fast rows).
Proof.
  destruct on_store_metadata_statements as (Hu & Hf & Hg & Hmg).
  apply (steps_process_movies (on_store Q) E fast);
    first [ exact on_store_refl | exact on_store_trans
          | exact (on_store_lookup Runs.FullLoad)
          | exact Hu | exact Hf | exact Hg | exact Hmg ].
Qed.

Lemma on_store_link_genres (movie_id : Z) (gs : list string) :
  steps (on_store Q) (Etl.link_genres E movie_id gs).
Proof.
  destruct on_store_metadata_statements as (Hu & Hf & Hg & Hmg).
  apply (steps_link_genres (on_store Q) E);
    first [ exact on_store_refl | exact on_store_trans
          | exact Hg | exact Hmg ].
Qed.

Lemma on_store_metadata_phase (rows : list Etl.movie_row) :
  steps (on_store Q) (Etl.metadata_phase E fast rows).
Proof.
  intros w. unfold Etl.metadata_phase, transaction, save_cache, print, modify.
  unfold mbind, io_bind.
  pose proof (on_store_process_movies rows w) as H.
  destruct (Etl.process_movies E fast rows w) as [[[]|e] w1]; cbn in *.
  - exact H.
  - apply Q_refl.
Qed.

Hypothesis Q_rating :
  forall r d d', Sql.insert_rating (duplicate_rating E) r d = Ok d' -> Q d d'.
Hypothesis Q_update : forall i sets d d', Sql.update i sets d = Ok d' -> Q d d'.

Lemma on_store_runs (limit : option Z) (movies_csv : list Etl.movie_row)
    (ratings_csv : list Sql.rating) (batch : Z) :
  steps (on_store Q) (Etl.main E limit fast movies_csv ratings_csv)
  /\ steps (on_store Q) (Enrich.main E batch fast).
Proof.
  assert (Hexec : forall st, steps (on_store Q) (execute E st)).
  { intros st. apply on_store_execute. destruct st; cbn [run_statement];
      intros d d' Hrun.
    - by apply (Q_upsert true p).
    - by apply (Q_upsert false p).
    - by apply (Q_update i sets).
    - injection Hrun as <-. apply Q_genre.
    - injection Hrun as <-. apply Q_movie_genre.
    - by apply (Q_rating r). }
  assert (Hstdout : forall w l, on_store Q w (with_stdout l w))
    by (intros; by apply on_store_same).
  assert (Hroll : forall w w', on_store Q w w' ->
                    on_store Q w (with_db (db w) w'))
    by (intros; by apply on_store_same).
  assert (Hsave : forall w, on_store Q w (with_saved (cache w) w))
    by (intros; by apply on_store_same).
  assert (Hload : forall w,
            on_store Q w (with_cache (default ∅ (cache_file w)) w))
    by (intros; by apply on_store_same).
  split.
  - apply (steps_etl_main (on_store Q) E fast);
      first [ exact on_store_refl | exact on_store_trans
            | exact (on_store_lookup Runs.FullLoad)
            | exact Hstdout | exact Hroll | exact Hsave | exact Hload
            | intros; apply Hexec ].
  - apply (steps_enrich_main (on_store Q) E fast);
      first [ exact on_store_refl | exact on_store_trans
            | exact (on_store_lookup Runs.EnrichOnly)
            | exact Hstdout | exact Hroll | exact Hsave | exact Hload
            | intros; apply Hexec ].
Qed.

End StoreRelations.

(** ** Rows are never deleted *)

Section RowsGrow.

Import Frame.

Lemma rows_grow_refl (d : Sql.store) : rows_grow d d.
Proof. by repeat split. Qed.

Lemma rows_grow_trans (a b c : Sql.store) :
  rows_grow a b -> rows_grow b c -> rows_grow a c.
Proof.
  unfold rows_grow. intros (H1 & H2 & H3 & H4) (K1 & K2 & K3 & K4).
  repeat split; auto.
Qed.

Lemma rows_kept_grow (d d' : Sql.store) : rows_kept d d' -> rows_grow d d'.
Proof.
  intros (Hm & Hr & Hg & Hmg). unfold rows_grow. rewrite Hr, Hg, Hmg.
  repeat split; auto. intros i.
  assert (Hids : forall ms, map Sql.id ms = map (fun t => t.1.1) (map identity ms))
    by (intros ms; by rewrite map_map).
  by rewrite (Hids (Sql.movies d)), (Hids (Sql.movies d')), Hm.
Qed.

Lemma upsert_grows (b : bool) (p : Sql.upsert_params) (d d' : Sql.store) :
  Sql.upsert b p d = Ok d' ->
  rows_grow d d'
  /\ Sql.ratings d' = Sql.ratings d
  /\ In (Sql.p_id p) (map Sql.id (Sql.movies d')).
Proof.
  unfold Sql.upsert.
  destruct (Sql.excluded_row p) as [excluded|] eqn:Hex;
    cbn [mbind result_bind]; [|discriminate].
  assert (Hid := excluded_row_id _ _ Hex).
  destruct (Sql.find_movie (Sql.id excluded) d) as [old|] eqn:Hold.
  - destruct (_ && _); [discriminate|]. intros [= <-]. unfold rows_grow.
    cbn [Sql.movies Sql.ratings Sql.genres Sql.movie_genres Sql.with_movies].
    rewrite replace_row_ids. split; [by repeat split|]. split; [done|].
    unfold Sql.find_movie in Hold. rewrite <- Hid.
    rewrite <- (find_row_id _ _ _ Hold). apply in_map.
    exact (proj1 (find_some _ _ Hold)).
  - destruct (Sql.imdb_taken _ _ _); [discriminate|]. intros [= <-].
    unfold rows_grow.
    cbn [Sql.movies Sql.ratings Sql.genres Sql.movie_genres Sql.with_movies].
    rewrite map_app. split; [|split; [done|]].
    + repeat split; auto. intros i Hi. apply in_or_app. by left.
    + apply in_or_app. right. cbn. left. exact Hid.
Qed.

Lemma insert_genre_grows (name : string) (d : Sql.store) :
  rows_grow d (Sql.insert_genre name d)
  /\ Sql.movies (Sql.insert_genre name d) = Sql.movies d
  /\ Sql.ratings (Sql.insert_genre name d) = Sql.ratings d.
Proof.
  unfold Sql.insert_genre. destruct (existsb _ _).
  - split; [apply rows_grow_refl|done].
  - repeat split; auto. cbn. intros g Hg. apply in_or_app. by left.
Qed.

Lemma insert_movie_genre_grows (m g : Z) (d : Sql.store) :
  rows_grow d (Sql.insert_movie_genre m g d)
  /\ Sql.movies (Sql.insert_movie_genre m g d) = Sql.movies d
  /\ Sql.ratings (Sql.insert_movie_genre m g d) = Sql.ratings d.
Proof.
  unfold Sql.insert_movie_genre. destruct (existsb _ _).
  - split; [apply rows_grow_refl|done].
  - repeat split; auto. cbn. intros mg Hmg. apply in_or_app. by left.
Qed.

Lemma insert_rating_grows (dup : Sql.rating -> Sql.rating -> bool)
    (r : Sql.rating) (d d' : Sql.store) :
  Sql.insert_rating dup r d = Ok d' -> rows_grow d d'.
Proof.
  unfold Sql.insert_rating.
  destruct (Sql.bind_int (Sql.user_id r)); cbn [mbind result_bind];
    [|discriminate].
  destruct (Sql.bind_int (Sql.movie_id r)); cbn [mbind result_bind];
    [|discriminate].
  destruct (Sql.bind_opt_int (Sql.timestamp r)); cbn [mbind result_bind];
    [|discriminate].
  destruct (existsb _ _); intros [= <-]; [apply rows_grow_refl|].
  repeat split; auto. cbn. intros x Hx. apply in_or_app. by left.
Qed.

(** X13: no run of either script deletes a row, however it ends: every
    movie identifier, rating, genre and movie-genre association of the
    store before the run is in the store after it. *)
Theorem runs_delete_nothing (E : env) (fast : bool) (limit : option Z)
    (movies_csv : list Etl.movie_row) (ratings_csv : list Sql.rating)
    (batch : Z) (w : world) :
  rows_grow (db w) (db (snd (Etl.main E limit fast movies_csv ratings_csv w)))
  /\ rows_grow (db w) (db (snd (Enrich.main E batch fast w))).
Proof.
  destruct (on_store_runs rows_grow E fast rows_grow_refl rows_grow_trans)
    with (limit := limit) (movies_csv := movies_csv)
         (ratings_csv := ratings_csv) (batch := batch) as [Hetl Henrich].
  - intros b p d d' H. by apply (upsert_grows b p).
  - intros name d. apply insert_genre_grows.
  - intros m g d. apply insert_movie_genre_grows.
  - intros r d d'. apply insert_rating_grows.
  - intros i sets d d' H. by apply rows_kept_grow, (update_keeps_rows i sets).
  - split; [apply Hetl|apply Henrich].
Qed.

End RowsGrow.

(** ** Ratings refer to stored movies *)

Section ForeignKey.

Import Frame.

Lemma grow_link_genres (E : env) (movie_id : Z) (gs : list string) :
  steps (on_store rows_grow) (Etl.link_genres E movie_id gs).
Proof.
  apply on_store_link_genres;
    first [ exact rows_grow_refl | exact rows_grow_trans
          | intros b p d d' H; by apply (upsert_grows b p)
          | intros; apply insert_genre_grows
          | intros; apply insert_movie_genre_grows ].
Qed.

Lemma grow_process_movies (E : env) (fast : bool) (rows : list Etl.movie_row) :
  steps (on_store rows_grow) (Etl.process_movies E fast rows).
Proof.
  apply on_store_process_movies;
    first [ exact rows_grow_refl | exact rows_grow_trans
          | intros b p d d' H; by apply (upsert_grows b p)
          | intros; apply insert_genre_grows
          | intros; apply insert_movie_genre_grows ].
Qed.

Lemma metadata_phase_store (E : env) (fast : bool) (rows : list Etl.movie_row)
    (w : world) :
  let w' := snd (Etl.metadata_phase E fast rows w) in
  rows_grow (db w) (db w') /\ Sql.ratings (db w') = Sql.ratings (db w).
Proof.
  split.
  - apply (on_store_metadata_phase rows_grow E fast);
      first [ exact rows_grow_refl | exact rows_grow_trans
            | intros b p d d' H; by apply (upsert_grows b p)
            | intros; apply insert_genre_grows
            | intros; apply insert_movie_genre_grows ].
  - apply (on_store_metadata_phase
             (fun d d' => Sql.ratings d' = Sql.ratings d) E fast);
      first [ done | intros a b c; congruence
            | intros b p d d' H; by apply (upsert_grows b p)
            | intros; apply insert_genre_grows
            | intros; apply insert_movie_genre_grows ].
Qed.

Lemma upsert_movie_present (E : env) (p : Sql.upsert_params) (w w' : world) :
  Etl.upsert_movie E p w = (Ok tt, w') ->
  In (Sql.p_id p) (map Sql.id (Sql.movies (db w'))).
Proof.
  unfold Etl.upsert_movie, try_except, execute. cbn [run_statement].
  destruct (Sql.upsert true p (db w)) as [d1|e] eqn:H1.
  { intros [= <-]. cbn [db with_db]. by apply (upsert_grows true p (db w)). }
  destruct e as [| | | | |m]; try discriminate.
  destruct (_ || _); [|discriminate].
  cbn [run_statement db with_executed].
  destruct (Sql.upsert false (Etl.params_no_imdb p) (db w)) as [d2|e] eqn:H2;
    [|discriminate].
  intros [= <-]. cbn [db with_db].
  by apply (upsert_grows false (Etl.params_no_imdb p) (db w)).
Qed.

Lemma process_movies_present (E : env) (fast : bool)
    (rows : list Etl.movie_row) (w w' : world) :
  Etl.process_movies E fast rows w = (Ok tt, w') ->
  forall row, In row rows ->
    In (Etl.movieId row) (map Sql.id (Sql.movies (db w'))).
Proof.
  revert w. induction rows as [|row rows IH]; intros w Hrun x; [intros []|].
  cbn [Etl.process_movies] in Hrun. unfold mbind at 1, io_bind at 1 in Hrun.
  destruct (Etl.process_movie E fast row w) as [[[]|e] w1] eqn:Hrow;
    [|discriminate].
  intros [<-|Hx]; [|by apply (IH w1)].
  destruct (grow_process_movies E fast rows w1) as [Hids _].
  rewrite Hrun in Hids. apply Hids. clear Hrun Hids IH.
  unfold Etl.process_movie in Hrow.
  destruct (Etl.parse_title_and_year (Etl.raw_title row)) as [title year].
  unfold mbind, io_bind in Hrow.
  destruct (Etl.query_omdb E title year fast w) as [[raw|e] w2]; [|discriminate].
  destruct ((if truthy raw
             then lift (Normalizer.clean_omdb_response (strptime_iso E) raw)
             else mret None) w2) as [[omdb|e] w3]; [|discriminate].
  destruct (Etl.upsert_movie E _ w3) as [[[]|e] w4] eqn:Hup; [|discriminate].
  apply upsert_movie_present in Hup. cbn [Etl.params_of Sql.p_id] in Hup.
  destruct (grow_link_genres E (Etl.movieId row)
              (Etl.genre_list (Etl.genres_raw row)) w4) as [Hids _].
  rewrite Hrow in Hids. by apply Hids.
Qed.

Lemma metadata_phase_present (E : env) (fast : bool)
    (rows : list Etl.movie_row) (w w' : world) :
  Etl.metadata_phase E fast rows w = (Ok tt, w') ->
  forall row, In row rows ->
    In (Etl.movieId row) (map Sql.id (Sql.movies (db w'))).
Proof.
  unfold Etl.metadata_phase, transaction, save_cache, print, modify.
  unfold mbind, io_bind.
  destruct (Etl.process_movies E fast rows w) as [[[]|e] w1] eqn:Hrun;
    [|discriminate].
  intros [= <-]. cbn [db with_stdout with_saved].
  by apply (process_movies_present E fast rows w).
Qed.

Lemma insert_ratings_movies (E : env) (rs : list Sql.rating) (n : Z)
    (w : world) :
  Sql.movies (db (snd (Etl.insert_ratings E rs n w))) = Sql.movies (db w).
Proof.
  apply (steps_insert_ratings
           (on_store (fun d d' => Sql.movies d' = Sql.movies d)) E);
    unfold on_store; first [ done | intros a b c; congruence | idtac ].
  intros r a. unfold execute. cbn [run_statement].
  destruct (Sql.insert_rating _ r (db a)) as [d'|] eqn:Hins; cbn; [|done].
  by apply insert_rating_rows in Hins as [Hm _].
Qed.

Lemma ratings_phase_store (E : env) (rows : list Etl.movie_row)
    (ratings : list Sql.rating) (w w' : world) (res : result (Z * Z)) :
  Etl.ratings_phase E rows ratings w = (res, w') ->
  Sql.movies (db w') = Sql.movies (db w)
  /\ forall r, In r (Sql.ratings (db w')) ->
       In r (Sql.ratings (db w))
       \/ (In r ratings
           /\ (In (Sql.movie_id r) (map Sql.id (Sql.movies (db w)))
               \/ In (Sql.movie_id r) (map Etl.movieId rows))).
Proof.
  unfold Etl.ratings_phase. unfold mbind at 1, io_bind at 1, gets.
  set (kept := Etl.filter_ratings (Etl.valid_movie_ids (db w) rows) ratings).
  unfold mbind at 1, io_bind at 1.
  set (wp := snd ((if 0 <? Z.of_nat (length ratings) - Z.of_nat (length kept)
                   then print (FilteredRatings
                                 (Z.of_nat (length ratings)
                                  - Z.of_nat (length kept)))
                   else mret tt) w)).
  assert (Hwp : (if 0 <? Z.of_nat (length ratings) - Z.of_nat (length kept)
                 then print (FilteredRatings
                               (Z.of_nat (length ratings)
                                - Z.of_nat (length kept)))
                 else mret tt) w = (Ok tt, wp)).
  { unfold wp. by destruct (0 <? _). }
  assert (Hdb : db wp = db w).
  { unfold wp. by destruct (0 <? _). }
  rewrite Hwp. unfold mbind, io_bind, transaction, print, modify, mret, io_ret.
  destruct (insert_ratings_spec E kept 0 wp)
    as (res0 & w2 & attempted & rest & Hrun & Hsplit & _ & _ & Hin & _).
  pose proof (insert_ratings_movies E kept 0 wp) as Hmov.
  rewrite Hrun in *. cbn [snd] in Hmov.
  destruct res0 as [n|e]; intros [= <- <-]; cbn [snd db with_stdout with_db];
    rewrite <- Hdb; [|by auto].
  split; [exact Hmov|]. intros r Hr.
  destruct (Hin r Hr) as [Hold|Hatt]; [by left|right].
  assert (Hkept : In r kept)
    by (rewrite Hsplit; apply in_or_app; by left).
  apply filter_ratings_spec in Hkept as [Hcsv Hvalid].
  apply valid_movie_ids_spec in Hvalid. rewrite Hdb. by split.
Qed.

(** X14: the full load keeps the ratings table referring to stored
    movies.  If every rating refers to a stored movie before the run,
    so does every rating after it, however the run ends; and a rating
    that the run added is a row of the ratings file. *)
Theorem full_load_keeps_foreign_key (E : env) (limit : option Z) (fast : bool)
    (movies_csv : list Etl.movie_row) (ratings_csv : list Sql.rating)
    (w : world) :
  foreign_key (db w) ->
  let d' := db (snd (Etl.main E limit fast movies_csv ratings_csv w)) in
  foreign_key d'
  /\ forall r, In r (Sql.ratings d') ->
       In r (Sql.ratings (db w)) \/ In r ratings_csv.
Proof.
  intros Hfk d'. subst d'.
  destruct (Etl.main E limit fast movies_csv ratings_csv w) as [out w']
    eqn:Hmain.
  cbn [snd]. revert Hmain. unfold Etl.main.
  set (rows := Etl.apply_limit limit movies_csv).
  unfold mbind at 1, io_bind at 1, load_cache, modify.
  set (w0 := with_cache (default ∅ (cache_file w)) w).
  change (db w) with (db w0) in *.
  unfold mbind, io_bind.
  destruct (metadata_phase_store E fast rows w0) as [[Hids _] Hrat].
  pose proof (metadata_phase_present E fast rows w0) as Hpres.
  destruct (Etl.metadata_phase E fast rows w0) as [[[]|e] w1];
    cbn [snd] in *.
  - intros Hrun.
    destruct (ratings_phase_store E rows ratings_csv w1 w' out Hrun)
      as [Hmov Hnew].
    split.
    + intros r Hr. rewrite Hmov.
      destruct (Hnew r Hr) as [Hold|[_ [Hin|Hin]]].
      * rewrite Hrat in Hold. by apply Hids, Hfk.
      * exact Hin.
      * apply in_map_iff in Hin as (row & <- & Hrow).
        by apply (Hpres w1).
    + intros r Hr. destruct (Hnew r Hr) as [Hold|[Hcsv _]]; [left|by right].
      by rewrite <- Hrat.
  - intros [= <- <-]. split.
    + intros r Hr. rewrite Hrat in Hr. by apply Hids, Hfk.
    + intros r Hr. left. by rewrite <- Hrat.
Qed.

Lemma full_load_keeps_foreign_key_witness :
  let w := Samples.fresh Samples.two_movies in
  let d' := db (snd (Etl.main Samples.toy_story_env (Some 1) false
                       [Samples.second_copy] [Samples.rating_of 7 2;
                                              Samples.rating_of 8 99] w)) in
  foreign_key (db w)
  /\ foreign_key d'
  /\ forall r, In r (Sql.ratings d') ->
       In r (Sql.ratings (db w))
       \/ In r [Samples.rating_of 7 2; Samples.rating_of 8 99].
Proof.
  cbv zeta.
  assert (Hfk : foreign_key (db (Samples.fresh Samples.two_movies))).
  { intros r [<-|[]]. right. by left. }
  split; [exact Hfk|].
  exact (full_load_keeps_foreign_key Samples.toy_story_env (Some 1) false
           [Samples.second_copy]
           [Samples.rating_of 7 2; Samples.rating_of 8 99]
           (Samples.fresh Samples.two_movies) Hfk).
Defined.

End ForeignKey.

(** ** The columns written by [update_movie] *)

Section UpdateFrame.

Import Frame.

#[local] Instance column_eq_dec : EqDecision Sql.column.
Proof. solve_decision. Defined.

Lemma fields_of_columns (data : Normalizer.record) :
  Enrich.fields_of data = omap (fun c => pair c <$> field_of data c) columns.
Proof.
  unfold Enrich.fields_of, columns, field_of.
  destruct (truthy (Normalizer.imdb_id data)),
    (truthy (Normalizer.director data)),
    (truthy (Normalizer.plot data)),
    (truthy (Normalizer.box_office data)),
    (Normalizer.released data) as [d|],
    (Normalizer.runtime_minutes data) as [n|];
    try destruct (String.eqb d ""); cbn; reflexivity.
Qed.

Lemma elem_of_columns (c : Sql.column) : c ∈ columns.
Proof. destruct c; by apply (bool_decide_unpack _). Qed.

Lemma NoDup_columns : NoDup columns.
Proof. by apply (bool_decide_unpack _). Qed.

Lemma fields_of_lookup (data : Normalizer.record) (c : Sql.column) (v : json) :
  (c, v) ∈ Enrich.fields_of data <-> field_of data c = Some v.
Proof.
  rewrite fields_of_columns, list_elem_of_omap. split.
  - intros (c' & _ & Hc'). destruct (field_of data c') eqn:Hf; by simplify_eq/=.
  - intros Hf. exists c. split; [apply elem_of_columns|]. by rewrite Hf.
Qed.

Lemma fields_of_NoDup (data : Normalizer.record) :
  NoDup (Enrich.fields_of data).*1.
Proof.
  rewrite fields_of_columns. generalize NoDup_columns.
  induction columns as [|c cs IH]; cbn; [constructor|].
  intros [Hc Hcs]%NoDup_cons. destruct (field_of data c) as [v|]; cbn; auto.
  apply NoDup_cons. split; [|auto].
  intros ([c' v'] & -> & Hin)%list_elem_of_fmap. cbn in *.
  apply list_elem_of_omap in Hin as (c'' & Hc'' & Heq).
  destruct (field_of data c''); by simplify_eq/=.
Qed.

Lemma bind_all_columns (sets : list (Sql.column * json))
    (bound : list (Sql.column * Sql.value)) :
  Sql.bind_all sets = Ok bound ->
  bound.*1 = sets.*1
  /\ forall c v, (c, v) ∈ sets ->
       exists v', (c, v') ∈ bound /\ Sql.bind v = Ok v'.
Proof.
  revert bound. induction sets as [|[c v] sets IH]; intros bound; cbn.
  - intros [= <-]. split; [done|]. intros c v H. by apply elem_of_nil in H.
  - destruct (Sql.bind v) as [v'|] eqn:Hv; cbn [mbind result_bind];
      [|discriminate].
    destruct (Sql.bind_all sets) as [rest|]; cbn [mbind result_bind];
      [|discriminate].
    intros [= <-]. destruct (IH rest eq_refl) as [Hfst Hin]. split.
    + cbn. by rewrite Hfst.
    + intros c0 v0 [[= -> ->]|H0]%elem_of_cons.
      * exists v'. split; [apply elem_of_cons; by left|done].
      * destruct (Hin c0 v0 H0) as (v1 & Hv1 & Hb). exists v1.
        split; [apply elem_of_cons; by right|done].
Qed.

Lemma get_set_column (c c' : Sql.column) (v : Sql.value) (m : Sql.movie) :
  get_column c (Sql.set_column m (c', v))
  = if decide (c = c') then v else get_column c m.
Proof. destruct c, c'; reflexivity. Qed.

Lemma get_set_columns (bound : list (Sql.column * Sql.value)) (m : Sql.movie)
    (c : Sql.column) :
  NoDup bound.*1 ->
  (forall v, (c, v) ∈ bound ->
     get_column c (fold_left Sql.set_column bound m) = v)
  /\ (c ∉ bound.*1 ->
      get_column c (fold_left Sql.set_column bound m) = get_column c m).
Proof.
  revert m. induction bound as [|[c' v'] bound IH]; intros m Hnd.
  - split; [|done]. intros v H. by apply elem_of_nil in H.
  - cbn in Hnd. apply NoDup_cons in Hnd as [Hc' Hnd].
    cbn [fold_left].
    destruct (IH (Sql.set_column m (c', v')) Hnd) as [Hin Hout]. split.
    + intros v [[= -> ->]|Hv]%elem_of_cons; [|by apply Hin].
      rewrite (Hout Hc'), get_set_column. by rewrite decide_True.
    + cbn. intros Hc. apply not_elem_of_cons in Hc as [Hne Hc].
      rewrite (Hout Hc), get_set_column. by rewrite decide_False.
Qed.

(** X15: what a successful [update_movie] leaves in the row of the
    movie.  A column whose field is present in the record holds the
    bound value of the field; every other column, and the identifier,
    title and year, are as before; no other movie changes; and the
    result is [False] exactly when no field is present. *)
Theorem update_movie_writes_present_fields (E : env) (movie_id : Z)
    (data : Normalizer.record) (w w' : world) (updated : bool)
    (old : Sql.movie) :
  Enrich.update_movie E movie_id data w = (Ok updated, w') ->
  Sql.find_movie movie_id (db w) = Some old ->
  exists row,
    Sql.find_movie movie_id (db w') = Some row
    /\ identity row = identity old
    /\ (forall c,
          match field_of data c with
          | Some v => Sql.bind v = Ok (get_column c row)
          | None => get_column c row = get_column c old
          end)
    /\ (forall j, j <> movie_id ->
          Sql.find_movie j (db w') = Sql.find_movie j (db w))
    /\ (updated = false <-> forall c, field_of data c = None).
Proof.
  intros Hrun Hold. unfold Enrich.update_movie in Hrun.
  assert (Hnone : Enrich.fields_of data = [] <-> forall c, field_of data c = None).
  { split.
    - intros Hnil c. destruct (field_of data c) as [v|] eqn:Hf; [|done].
      apply fields_of_lookup in Hf. rewrite Hnil in Hf.
      by apply elem_of_nil in Hf.
    - intros Hall. destruct (Enrich.fields_of data) as [|[c v] l] eqn:Hl; [done|].
      assert (Hin : (c, v) ∈ Enrich.fields_of data)
        by (rewrite Hl; apply elem_of_cons; by left).
      apply fields_of_lookup in Hin. by rewrite Hall in Hin. }
  pose proof (fields_of_lookup data) as Hlookup.
  pose proof (fields_of_NoDup data) as Hnd.
  destruct (Enrich.fields_of data) as [|f fs] eqn:Hfields.
  { injection Hrun as <- <-. exists old.
    split_and!; [done|done| |done|by split; [intros _; apply Hnone|]].
    intros c. by rewrite (proj1 Hnone eq_refl c). }
  rewrite <- Hfields in Hrun, Hnone, Hlookup, Hnd.
  unfold mbind, io_bind, execute, mret, io_ret in Hrun.
  cbn [run_statement] in Hrun.
  destruct (Sql.update movie_id (Enrich.fields_of data) (db w)) as [d'|e]
    eqn:Hup; [|discriminate].
  injection Hrun as <- <-. cbn [db with_db].
  revert Hup. unfold Sql.update.
  destruct (Sql.bind_int movie_id) as [i|] eqn:Hi; cbn [mbind result_bind];
    [|discriminate].
  apply bind_int_ok in Hi as ->.
  destruct (Sql.bind_all (Enrich.fields_of data)) as [bound|] eqn:Hbound;
    cbn [mbind result_bind]; [|discriminate].
  rewrite Hold. destruct (_ && _); [discriminate|]. intros [= <-].
  set (row := fold_left Sql.set_column bound old).
  destruct (bind_all_columns _ _ Hbound) as [Hfst Hin].
  assert (Hid : Sql.id row = movie_id).
  { unfold row. rewrite set_columns_id.
    by apply (find_row_id (Sql.movies (db w))). }
  unfold Sql.find_movie in *. cbn [Sql.movies Sql.with_movies].
  exists row. split_and!.
  - rewrite <- Hid. apply (find_replace_same _ _ old). by rewrite Hid.
  - apply set_columns_identity.
  - intros c. rewrite <- Hfst in Hnd.
    destruct (get_set_columns bound old c Hnd) as [Hset Hkeep].
    destruct (field_of data c) as [v|] eqn:Hf.
    + apply Hlookup, Hin in Hf as (v' & Hv' & Hb).
      fold row in Hset. by rewrite (Hset v' Hv').
    + apply Hkeep. rewrite Hfst.
      intros ([c' v] & -> & Hcv)%list_elem_of_fmap. cbn in Hf.
      apply Hlookup in Hcv. congruence.
  - intros j Hj. apply find_replace_other. by rewrite Hid.
  - split; [done|]. intros Hall. apply Hnone in Hall. congruence.
Qed.

Lemma update_movie_writes_present_fields_witness :
  let w := Samples.fresh Samples.two_movies in
  let w' := snd (Enrich.update_movie Samples.toy_story_env 2
                   (Enrich.data_no_imdb Samples.toy_story_record) w) in
  exists row,
    Sql.find_movie 2 (db w') = Some row
    /\ identity row = identity (Samples.bare_movie 2 "Toy Story" (Some 1995))
    /\ (forall c,
          match field_of (Enrich.data_no_imdb Samples.toy_story_record) c with
          | Some v => Sql.bind v = Ok (get_column c row)
          | None => get_column c row
                    = get_column c (Samples.bare_movie 2 "Toy Story" (Some 1995))
          end)
    /\ (forall j, j <> 2 ->
          Sql.find_movie j (db w') = Sql.find_movie j (db w))
    /\ (true = false <->
        forall c, field_of (Enrich.data_no_imdb Samples.toy_story_record) c
                  = None).
Proof.
  cbv zeta.
  apply (update_movie_writes_present_fields Samples.toy_story_env 2
           (Enrich.data_no_imdb Samples.toy_story_record)
           (Samples.fresh Samples.two_movies)); reflexivity.
Defined.

End UpdateFrame.

(** ** What the upsert of the full load leaves in the row *)

Section UpsertMerge.

Import Frame.

Lemma bind_opt_int_ok (o o' : option Z) : Sql.bind_opt_int o = Ok o' -> o' = o.
Proof.
  destruct o as [z|]; cbn; [|congruence].
  unfold Sql.bind_int. destruct (Sql.int64 z); cbn; congruence.
Qed.

Lemma excluded_row_title_year (p : Sql.upsert_params) (excluded : Sql.movie) :
  Sql.excluded_row p = Ok excluded ->
  Sql.title excluded = Sql.p_title p /\ Sql.year excluded = Sql.p_year p.
Proof.
  unfold Sql.excluded_row.
  destruct (Sql.bind_int _); cbn [mbind result_bind]; [|discriminate].
  destruct (Sql.bind_opt_int (Sql.p_year p)) as [y|] eqn:Hy;
    cbn [mbind result_bind]; [|discriminate].
  destruct (Sql.bind (Sql.p_imdb_id p)); cbn [mbind result_bind];
    [|discriminate].
  destruct (Sql.bind (Sql.p_director p)); cbn [mbind result_bind];
    [|discriminate].
  destruct (Sql.bind (Sql.p_plot p)); cbn [mbind result_bind];
    [|discriminate].
  destruct (Sql.bind (Sql.p_box_office p)); cbn [mbind result_bind];
    [|discriminate].
  destruct (Sql.bind_opt_int (Sql.p_runtime p)); cbn [mbind result_bind];
    [|discriminate].
  intros [= <-]. cbn. split; [done|]. by apply bind_opt_int_ok.
Qed.

Lemma upsert_ok_row (b : bool) (p : Sql.upsert_params) (d d' : Sql.store) :
  Sql.upsert b p d = Ok d' ->
  exists excluded,
    Sql.excluded_row p = Ok excluded
    /\ Sql.find_movie (Sql.p_id p) d'
       = Some match Sql.find_movie (Sql.p_id p) d with
              | Some old => Sql.merged_row b excluded old
              | None => excluded
              end
    /\ forall j, j <> Sql.p_id p -> Sql.find_movie j d' = Sql.find_movie j d.
Proof.
  unfold Sql.upsert.
  destruct (Sql.excluded_row p) as [excluded|] eqn:Hex;
    cbn [mbind result_bind]; [|discriminate].
  assert (Hid := excluded_row_id _ _ Hex). rewrite Hid.
  unfold Sql.find_movie.
  destruct (find _ (Sql.movies d)) as [old|] eqn:Hfind.
  - assert (Hold := find_row_id _ _ _ Hfind).
    destruct (_ && _); [discriminate|]. intros [= <-]. exists excluded.
    cbn [Sql.movies Sql.with_movies]. split; [done|]. split.
    + rewrite <- Hold in Hfind |- *.
      by apply (find_replace_same _ (Sql.merged_row b excluded old) old).
    + intros j Hj. apply find_replace_other. cbn. lia.
  - destruct (Sql.imdb_taken _ _ _); [discriminate|]. intros [= <-].
    exists excluded. cbn [Sql.movies Sql.with_movies]. split; [done|]. split.
    + rewrite <- Hid in Hfind |- *. by apply find_append_new.
    + intros j Hj. apply find_append_other. lia.
Qed.

Lemma coalesce_keeps (a b : Sql.value) :
  b <> Sql.Null -> Sql.coalesce a b <> Sql.Null.
Proof. by destruct a. Qed.

(** X16: what a successful write of the full load leaves in the row of
    the movie, on the first attempt or on the retry.  Title and year
    are those of the input; every metadata column but the external ID
    holds the incoming value when it is not NULL and the stored value
    otherwise; the external ID holds that too or the stored value; so
    no column that held a value becomes NULL; and no other movie
    changes. *)
Theorem upsert_movie_coalesces (E : env) (p : Sql.upsert_params)
    (w w' : world) :
  Etl.upsert_movie E p w = (Ok tt, w') ->
  let old := Sql.find_movie (Sql.p_id p) (db w) in
  exists excluded row,
    Sql.excluded_row p = Ok excluded
    /\ Sql.find_movie (Sql.p_id p) (db w') = Some row
    /\ Sql.title row = Sql.p_title p
    /\ Sql.year row = Sql.p_year p
    /\ (forall c, c <> Sql.ImdbId ->
          get_column c row
          = Sql.coalesce (get_column c excluded)
              (Sql.column_of old (get_column c)))
    /\ (Sql.imdb_id row
        = Sql.coalesce (Sql.imdb_id excluded) (Sql.column_of old Sql.imdb_id)
        \/ Sql.imdb_id row = Sql.column_of old Sql.imdb_id)
    /\ (forall c, Sql.column_of old (get_column c) <> Sql.Null ->
          get_column c row <> Sql.Null)
    /\ (forall j, j <> Sql.p_id p ->
          Sql.find_movie j (db w') = Sql.find_movie j (db w)).
Proof.
  intros Hrun old.
  assert (Hrow : exists excluded row (b : bool),
             Sql.excluded_row p = Ok excluded
             /\ Sql.find_movie (Sql.p_id p) (db w') = Some row
             /\ row = match old with
                      | Some o =>
                          Sql.merged_row b
                            (if b then excluded
                             else Sql.set_column excluded
                                    (Sql.ImdbId, Sql.Null)) o
                      | None =>
                          if b then excluded
                          else Sql.set_column excluded (Sql.ImdbId, Sql.Null)
                      end
             /\ forall j, j <> Sql.p_id p ->
                  Sql.find_movie j (db w') = Sql.find_movie j (db w)).
  { revert Hrun. unfold Etl.upsert_movie, try_except, execute.
    cbn [run_statement].
    destruct (Sql.upsert true p (db w)) as [d1|e] eqn:H1.
    { intros [= <-]. cbn [db with_db].
      destruct (upsert_ok_row true p (db w) d1 H1) as (ex & Hex & Hfind & Hj).
      exists ex. eexists. exists true.
      split; [exact Hex|]. split; [exact Hfind|]. by split. }
    destruct e as [| | | | |m]; try discriminate.
    destruct (_ || _); [|discriminate].
    destruct (upsert_raises_bound p (db w) m H1) as [ex Hex].
    destruct (upsert_fallback_ok p (db w) ex Hex)
      as (d2 & row & H2 & Hfind & -> & Hj).
    cbn [run_statement db with_executed]. rewrite H2. intros [= <-].
    cbn [db with_db]. exists ex. eexists. exists false.
    split; [exact Hex|]. split; [exact Hfind|]. by split. }
  destruct Hrow as (ex & row & b & Hex & Hfind & -> & Hj).
  destruct (excluded_row_title_year p ex Hex) as [Htitle Hyear].
  exists ex. eexists. split; [exact Hex|]. split; [exact Hfind|].
  destruct old as [o|], b; cbn [Sql.column_of];
    (split_and!;
     [ exact Htitle | exact Hyear
     | intros [] Hc; try done; cbn; by rewrite ?coalesce_null_r
     | cbn; rewrite ?coalesce_null_r; auto
     | intros [] Hc; cbn; try done; by apply coalesce_keeps
     | exact Hj ]).
Qed.

Lemma upsert_movie_coalesces_witness :
  let w := Samples.fresh Samples.two_movies in
  let p := Etl.params_of 2 "Toy Story" (Some 1995)
             (Some Samples.toy_story_record) in
  let w' := snd (Etl.upsert_movie Samples.toy_story_env p w) in
  let old := Sql.find_movie 2 (db w) in
  exists excluded row,
    Sql.excluded_row p = Ok excluded
    /\ Sql.find_movie 2 (db w') = Some row
    /\ Sql.title row = "Toy Story"
    /\ Sql.year row = Some 1995
    /\ (forall c, c <> Sql.ImdbId ->
          get_column c row
          = Sql.coalesce (get_column c excluded)
              (Sql.column_of old (get_column c)))
    /\ (Sql.imdb_id row
        = Sql.coalesce (Sql.imdb_id excluded) (Sql.column_of old Sql.imdb_id)
        \/ Sql.imdb_id row = Sql.column_of old Sql.imdb_id)
    /\ (forall c, Sql.column_of old (get_column c) <> Sql.Null ->
          get_column c row <> Sql.Null)
    /\ (forall j, j <> 2 ->
          Sql.find_movie j (db w') = Sql.find_movie j (db w)).
Proof.
  cbv zeta.
  apply (upsert_movie_coalesces Samples.toy_story_env
           (Etl.params_of 2 "Toy Story" (Some 1995)
              (Some Samples.toy_story_record))
           (Samples.fresh Samples.two_movies)).
  reflexivity.
Defined.

End UpsertMerge.

(** ** Writing the same movie again *)

Section UpsertAgain.

Lemma coalesce_idem (a b : Sql.value) :
  Sql.coalesce a (Sql.coalesce a b) = Sql.coalesce a b.
Proof. by destruct a. Qed.

Lemma coalesce_self (a : Sql.value) : Sql.coalesce a a = a.
Proof. by destruct a. Qed.

Lemma merged_row_idem (b : bool) (excluded old : Sql.movie) :
  Sql.merged_row b excluded (Sql.merged_row b excluded old)
  = Sql.merged_row b excluded old.
Proof.
  unfold Sql.merged_row. cbn. rewrite !coalesce_idem.
  destruct b; by rewrite ?coalesce_idem.
Qed.

Lemma merged_row_self (b : bool) (m : Sql.movie) : Sql.merged_row b m m = m.
Proof.
  destruct m. unfold Sql.merged_row. cbn. rewrite !coalesce_self.
  by destruct b.
Qed.

Lemma imdb_taken_replace (d : Sql.store) (row : Sql.movie) (v : Sql.value) :
  Sql.imdb_taken (Sql.with_movies (Sql.replace_row row (Sql.movies d)) d)
    (Sql.id row) v
  = Sql.imdb_taken d (Sql.id row) v.
Proof.
  unfold Sql.imdb_taken. cbn [Sql.movies Sql.with_movies]. f_equal.
  induction (Sql.movies d) as [|m ms IH]; [reflexivity|].
  cbn [Sql.replace_row].
  destruct (Z.eqb_spec (Sql.id m) (Sql.id row)) as [Heq|Hne].
  - cbn [existsb]. by rewrite Heq, !Z.eqb_refl.
  - cbn [existsb]. by rewrite IH.
Qed.

Lemma imdb_taken_append (d : Sql.store) (row : Sql.movie) (v : Sql.value) :
  Sql.imdb_taken (Sql.with_movies (Sql.movies d ++ [row]) d) (Sql.id row) v
  = Sql.imdb_taken d (Sql.id row) v.
Proof.
  unfold Sql.imdb_taken. cbn [Sql.movies Sql.with_movies]. f_equal.
  rewrite existsb_app. cbn [existsb]. rewrite Z.eqb_refl. cbn.
  by rewrite !orb_false_r.
Qed.

(** The two outcomes of the statement, in terms of the bound row. *)
Lemma upsert_bound (b : bool) (p : Sql.upsert_params) (d : Sql.store)
    (excluded : Sql.movie) :
  Sql.excluded_row p = Ok excluded ->
  Sql.upsert b p d
  = match Sql.find_movie (Sql.id excluded) d with
    | Some old =>
        let row := Sql.merged_row b excluded old in
        if b && Sql.imdb_taken d (Sql.id row) (Sql.imdb_id row)
        then Raise (IntegrityError Sql.unique_imdb_msg)
        else Ok (Sql.with_movies (Sql.replace_row row (Sql.movies d)) d)
    | None =>
        if Sql.imdb_taken d (Sql.id excluded) (Sql.imdb_id excluded)
        then Raise (IntegrityError Sql.unique_imdb_msg)
        else Ok (Sql.with_movies (Sql.movies d ++ [excluded]) d)
    end.
Proof. intros Hex. unfold Sql.upsert. by rewrite Hex. Qed.

Lemma upsert_bound_ok (b : bool) (p : Sql.upsert_params) (d d' : Sql.store) :
  Sql.upsert b p d = Ok d' -> exists excluded, Sql.excluded_row p = Ok excluded.
Proof.
  unfold Sql.upsert. destruct (Sql.excluded_row p); [eauto|discriminate].
Qed.

Lemma replace_row_twice (row : Sql.movie) (ms : list Sql.movie) :
  Sql.replace_row row (Sql.replace_row row ms) = Sql.replace_row row ms.
Proof.
  induction ms as [|m ms IH]; [reflexivity|]. cbn [Sql.replace_row].
  destruct (Z.eqb_spec (Sql.id m) (Sql.id row)) as [Heq|Hne];
    cbn [Sql.replace_row].
  - by rewrite Z.eqb_refl.
  - destruct (Z.eqb_spec (Sql.id m) (Sql.id row)); [done|]. by rewrite IH.
Qed.

Lemma replace_row_appended (row : Sql.movie) (ms : list Sql.movie) :
  find (fun m => Sql.id m =? Sql.id row) ms = None ->
  Sql.replace_row row (ms ++ [row]) = (ms ++ [row])%list.
Proof.
  induction ms as [|m ms IH]; cbn.
  - by rewrite Z.eqb_refl.
  - destruct (Sql.id m =? Sql.id row); [discriminate|].
    intros H. by rewrite IH.
Qed.

(** A statement that went through goes through again and changes
    nothing. *)
Lemma upsert_again (b : bool) (p : Sql.upsert_params) (d d' : Sql.store) :
  Sql.upsert b p d = Ok d' -> Sql.upsert b p d' = Ok d'.
Proof.
  intros Hrun. destruct (upsert_bound_ok b p d d' Hrun) as [ex Hex].
  rewrite (upsert_bound b p d ex Hex) in Hrun.
  rewrite (upsert_bound b p d' ex Hex).
  unfold Sql.find_movie in *.
  destruct (find _ (Sql.movies d)) as [old|] eqn:Hfind.
  - assert (Hold := find_row_id _ _ _ Hfind).
    cbv zeta in Hrun. set (row := Sql.merged_row b ex old) in *.
    assert (Hid : Sql.id row = Sql.id ex) by exact Hold.
    destruct (b && _) eqn:Htaken; [discriminate|]. injection Hrun as <-.
    cbn [Sql.movies Sql.with_movies].
    rewrite <- Hid in Hfind |- *.
    rewrite (find_replace_same _ row old Hfind). cbv zeta.
    assert (Hidem : Sql.merged_row b ex row = row)
      by apply merged_row_idem.
    rewrite Hidem, imdb_taken_replace, Htaken.
    by rewrite replace_row_twice.
  - destruct (Sql.imdb_taken _ _ _) eqn:Htaken; [discriminate|].
    injection Hrun as <-. cbn [Sql.movies Sql.with_movies].
    rewrite (find_append_new _ ex Hfind). cbv zeta.
    rewrite merged_row_self, imdb_taken_append, Htaken, andb_false_r.
    by rewrite (replace_row_appended ex _ Hfind).
Qed.

(** After the retry, the first statement meets the same violation. *)
Lemma upsert_raises_again (p : Sql.upsert_params) (d d' : Sql.store)
    (m : string) :
  Sql.upsert true p d = Raise (IntegrityError m) ->
  Sql.upsert false (Etl.params_no_imdb p) d = Ok d' ->
  Sql.upsert true p d' = Raise (IntegrityError Sql.unique_imdb_msg).
Proof.
  intros Hraise Hretry.
  destruct (upsert_raises_bound p d m Hraise) as [ex Hex].
  assert (Hex' := excluded_row_no_imdb p ex Hex).
  set (ex' := Sql.set_column ex (Sql.ImdbId, Sql.Null)) in *.
  rewrite (upsert_bound true p d ex Hex) in Hraise.
  rewrite (upsert_bound false _ d ex' Hex') in Hretry.
  rewrite (upsert_bound true p d' ex Hex).
  change (Sql.id ex') with (Sql.id ex) in *.
  unfold Sql.find_movie in *.
  destruct (find _ (Sql.movies d)) as [old|] eqn:Hfind.
  - assert (Hold := find_row_id _ _ _ Hfind).
    cbv zeta in Hraise, Hretry. cbn [andb] in Hraise, Hretry.
    injection Hretry as <-. cbn [Sql.movies Sql.with_movies].
    set (row := Sql.merged_row false ex' old).
    assert (Hid : Sql.id row = Sql.id ex) by exact Hold.
    rewrite <- Hid in Hfind |- *.
    rewrite (find_replace_same _ row old Hfind). cbv zeta. cbn [andb].
    change (Sql.id (Sql.merged_row true ex row)) with (Sql.id row).
    rewrite imdb_taken_replace.
    change (Sql.id row) with (Sql.id (Sql.merged_row true ex old)).
    change (Sql.imdb_id (Sql.merged_row true ex row))
      with (Sql.imdb_id (Sql.merged_row true ex old)).
    by destruct (Sql.imdb_taken d _ _).
  - change (Sql.imdb_taken d (Sql.id ex) (Sql.imdb_id ex'))
      with false in Hretry.
    injection Hretry as <-. cbn [Sql.movies Sql.with_movies].
    change (Sql.id ex) with (Sql.id ex') in Hfind |- *.
    rewrite (find_append_new _ ex' Hfind). cbv zeta. cbn [andb].
    change (Sql.id (Sql.merged_row true ex ex')) with (Sql.id ex').
    rewrite imdb_taken_append.
    change (Sql.imdb_id (Sql.merged_row true ex ex'))
      with (Sql.coalesce (Sql.imdb_id ex) Sql.Null).
    rewrite coalesce_null_r. change (Sql.id ex') with (Sql.id ex).
    by destruct (Sql.imdb_taken d _ _).
Qed.

(** X17: writing the same movie again changes nothing.  After a
    successful write (first attempt or retry) of the parameters of a
    movie, the same write succeeds again and leaves every table as it
    is. *)
Theorem upsert_movie_is_idempotent (E : env) (p : Sql.upsert_params)
    (w w1 : world) :
  Etl.upsert_movie E p w = (Ok tt, w1) ->
  exists w2, Etl.upsert_movie E p w1 = (Ok tt, w2) /\ db w2 = db w1.
Proof.
  unfold Etl.upsert_movie, try_except, execute. cbn [run_statement].
  destruct (Sql.upsert true p (db w)) as [d1|e] eqn:H1.
  { intros [= <-]. cbn [db with_db with_executed].
    rewrite (upsert_again true p (db w) d1 H1). by eexists. }
  destruct e as [| | | | |m]; try discriminate.
  destruct (_ || _); [|discriminate].
  cbn [run_statement db with_executed].
  destruct (Sql.upsert false (Etl.params_no_imdb p) (db w)) as [d2|e] eqn:H2;
    [|discriminate].
  intros [= <-]. cbn [db with_db with_executed].
  rewrite (upsert_raises_again p (db w) d2 m H1 H2).
  rewrite integrity_message_matches.
  cbn [run_statement db with_executed with_db].
  rewrite (upsert_again false _ (db w) d2 H2). by eexists.
Qed.

Lemma upsert_movie_is_idempotent_witness :
  let p := Etl.params_of 2 "Toy Story" (Some 1995)
             (Some Samples.toy_story_record) in
  let w1 := snd (Etl.upsert_movie Samples.toy_story_env p
                   (Samples.fresh Samples.two_movies)) in
  exists w2,
    Etl.upsert_movie Samples.toy_story_env p w1 = (Ok tt, w2)
    /\ db w2 = db w1.
Proof.
  cbv zeta.
  apply (upsert_movie_is_idempotent Samples.toy_story_env
           (Etl.params_of 2 "Toy Story" (Some 1995)
              (Some Samples.toy_story_record))
           (Samples.fresh Samples.two_movies)).
  reflexivity.
Defined.

End UpsertAgain.

(** ** Processing the same row again *)

Section RowAgain.

Import Frame.

Lemma only_logged_refl (w : world) : only_logged w w.
Proof. by destruct w. Qed.

Lemma only_logged_trans (a b c : world) :
  only_logged a b -> only_logged b c -> only_logged a c.
Proof. unfold only_logged. intros -> ->. reflexivity. Qed.

Lemma only_logged_db (w w' : world) : only_logged w w' -> db w' = db w.
Proof. by intros ->. Qed.

Lemma execute_unchanged (E : env) (st : statement) (w : world) :
  run_statement E st (db w) = Ok (db w) ->
  exists w', execute E st w = (Ok tt, w') /\ only_logged w w'.
Proof.
  intros Hrun. unfold execute. rewrite Hrun. eexists. split; [reflexivity|].
  by destruct w.
Qed.

(** The statement reads and writes the movies table only. *)
Lemma upsert_movies_only (b : bool) (p : Sql.upsert_params)
    (d d' : Sql.store) :
  Sql.movies d' = Sql.movies d ->
  Sql.upsert b p d'
  = (r ← Sql.upsert b p d; Ok (Sql.with_movies (Sql.movies r) d')).
Proof.
  intros Hm. unfold Sql.upsert.
  destruct (Sql.excluded_row p) as [ex|]; cbn [mbind result_bind]; [|done].
  unfold Sql.find_movie, Sql.imdb_taken. rewrite Hm.
  destruct (find _ (Sql.movies d)) as [old|]; cbv zeta.
  - by destruct (b && _).
  - by destruct (_ && _).
Qed.

Lemma upsert_movie_unchanged (E : env) (p : Sql.upsert_params)
    (w w1 w1' : world) :
  Etl.upsert_movie E p w = (Ok tt, w1) ->
  Sql.movies (db w1') = Sql.movies (db w1) ->
  exists w2, Etl.upsert_movie E p w1' = (Ok tt, w2) /\ only_logged w1' w2.
Proof.
  intros Hrun Hm.
  assert (Hsame : Sql.with_movies (Sql.movies (db w1)) (db w1') = db w1')
    by (rewrite <- Hm; apply with_movies_same).
  revert Hrun. unfold Etl.upsert_movie, try_except. unfold execute at 1 2.
  cbn [run_statement].
  destruct (Sql.upsert true p (db w)) as [d1|e] eqn:H1.
  { intros [= <-]. cbn [db with_db] in *.
    destruct (execute_unchanged E (Upsert p) w1') as (w2 & -> & Hlog).
    - cbn [run_statement]. rewrite (upsert_movies_only true p d1 _ Hm).
      rewrite (upsert_again true p (db w) d1 H1). cbn [mbind result_bind].
      by rewrite Hsame.
    - by exists w2. }
  destruct e as [| | | | |m]; try discriminate.
  destruct (_ || _); [|discriminate].
  cbn [run_statement db with_executed].
  destruct (Sql.upsert false (Etl.params_no_imdb p) (db w)) as [d2|e] eqn:H2;
    [|discriminate].
  intros [= <-]. cbn [db with_db] in *.
  unfold execute at 1. cbn [run_statement].
  rewrite (upsert_movies_only true p d2 _ Hm).
  rewrite (upsert_raises_again p (db w) d2 m H1 H2). cbn [mbind result_bind].
  rewrite integrity_message_matches.
  set (w1'' := with_executed (Upsert p :: executed w1') w1').
  destruct (execute_unchanged E (UpsertFallback (Etl.params_no_imdb p)) w1'')
    as (w2 & -> & Hlog).
  - cbn [run_statement]. unfold w1''. cbn [db with_executed].
    rewrite (upsert_movies_only false _ d2 _ Hm).
    rewrite (upsert_again false _ (db w) d2 H2). cbn [mbind result_bind].
    by rewrite Hsame.
  - exists w2. split; [done|].
    apply (only_logged_trans _ w1''); [|exact Hlog]. by destruct w1'.
Qed.

Lemma find_app_found {A} (f : A -> bool) (l l' : list A) (x : A) :
  find f l = Some x -> find f (l ++ l') = Some x.
Proof.
  induction l as [|a l IH]; cbn; [discriminate|]. by destruct (f a).
Qed.

Lemma existsb_find {A} (f : A -> bool) (l : list A) :
  existsb f l = true -> exists x, find f l = Some x.
Proof.
  induction l as [|a l IH]; cbn; [discriminate|].
  destruct (f a); [eauto|exact IH].
Qed.

Lemma linked_insert_genre (movie_id : Z) (g name : string) (d : Sql.store) :
  linked movie_id g d -> linked movie_id g (Sql.insert_genre name d).
Proof.
  intros [Hg Hmg]. unfold Sql.insert_genre.
  destruct (existsb (fun x => String.eqb (snd x) name) (Sql.genres d));
    [by split|].
  destruct (existsb_find _ _ Hg) as [x Hx].
  unfold linked, Sql.select_genre_id in *.
  cbn [Sql.genres Sql.movie_genres Sql.with_genres].
  rewrite existsb_app, Hg. split; [done|].
  rewrite (find_app_found _ _ _ _ Hx). rewrite Hx in Hmg. exact Hmg.
Qed.

Lemma linked_insert_movie_genre (movie_id : Z) (g : string) (m i : Z)
    (d : Sql.store) :
  linked movie_id g d -> linked movie_id g (Sql.insert_movie_genre m i d).
Proof.
  intros [Hg Hmg]. unfold Sql.insert_movie_genre.
  destruct (existsb _ (Sql.movie_genres d)); [by split|].
  unfold linked, Sql.select_genre_id in *.
  cbn [Sql.genres Sql.movie_genres Sql.with_movie_genres].
  split; [done|]. intros j Hj. rewrite existsb_app.
  destruct (Hmg j Hj) as [H0|Hin]; [by left|right]. by rewrite Hin.
Qed.

Lemma linked_link_genres (E : env) (movie_id : Z) (g : string)
    (gs : list string) (w : world) :
  linked movie_id g (db w) ->
  linked movie_id g (db (snd (Etl.link_genres E movie_id gs w))).
Proof.
  apply (steps_link_genres
           (on_store (fun d d' => linked movie_id g d -> linked movie_id g d'))
           E); unfold on_store; auto.
  - intros name a. unfold execute. cbn [run_statement db with_db].
    apply linked_insert_genre.
  - intros m i a. unfold execute. cbn [run_statement db with_db].
    apply linked_insert_movie_genre.
Qed.

Lemma link_genre_links (E : env) (movie_id : Z) (g : string) (w : world) :
  exists w', Etl.link_genre E movie_id g w = (Ok tt, w')
             /\ linked movie_id g (db w').
Proof.
  unfold Etl.link_genre, mbind, io_bind, gets, execute, mret, io_ret.
  cbn [run_statement db with_db with_executed].
  set (d1 := Sql.insert_genre g (db w)).
  assert (Hg : existsb (fun x => String.eqb (snd x) g) (Sql.genres d1) = true).
  { unfold d1, Sql.insert_genre.
    destruct (existsb _ (Sql.genres (db w))) eqn:Hex; [exact Hex|].
    cbn [Sql.genres Sql.with_genres]. rewrite existsb_app. cbn.
    by rewrite String.eqb_refl, orb_true_r. }
  destruct (existsb_find _ _ Hg) as [x Hx].
  unfold Sql.select_genre_id at 1. rewrite Hx. cbn [fmap option_fmap option_map].
  destruct (x.1 =? 0) eqn:H0.
  - eexists. split; [reflexivity|]. cbn [db with_db]. split; [exact Hg|].
    unfold Sql.select_genre_id. rewrite Hx. intros i [= <-]. by left.
  - cbn [run_statement db with_db with_executed].
    eexists. split; [reflexivity|]. cbn [db with_db].
    unfold linked, Sql.select_genre_id, Sql.insert_movie_genre.
    destruct (existsb _ (Sql.movie_genres d1)) eqn:Hmg.
    + split; [exact Hg|]. rewrite Hx. intros i [= <-]. by right.
    + cbn [Sql.genres Sql.movie_genres Sql.with_movie_genres].
      split; [exact Hg|]. rewrite Hx. intros i [= <-]. right.
      rewrite existsb_app. cbn. by rewrite !Z.eqb_refl, orb_true_r.
Qed.

Lemma link_genres_links (E : env) (movie_id : Z) (gs : list string)
    (w : world) :
  exists w', Etl.link_genres E movie_id gs w = (Ok tt, w')
             /\ forall g, In g gs -> linked movie_id g (db w').
Proof.
  revert w. induction gs as [|g gs IH]; intros w.
  - exists w. split; [done|]. intros g [].
  - cbn [Etl.link_genres]. unfold mbind, io_bind.
    destruct (link_genre_links E movie_id g w) as (w1 & -> & Hg).
    destruct (IH w1) as (w' & Hrun & Hgs). exists w'. split; [exact Hrun|].
    intros g' [<-|Hin]; [|by apply Hgs].
    pose proof (linked_link_genres E movie_id g gs w1 Hg) as H.
    by rewrite Hrun in H.
Qed.

Lemma link_genres_unchanged (E : env) (movie_id : Z) (gs : list string)
    (w : world) :
  (forall g, In g gs -> linked movie_id g (db w)) ->
  exists w', Etl.link_genres E movie_id gs w = (Ok tt, w')
             /\ only_logged w w'.
Proof.
  revert w. induction gs as [|g gs IH]; intros w Hall.
  - exists w. split; [done|apply only_logged_refl].
  - destruct (Hall g (or_introl eq_refl)) as [Hg Hmg].
    cbn [Etl.link_genres]. unfold Etl.link_genre.
    unfold mbind at 1 2, io_bind at 1 2.
    destruct (execute_unchanged E (InsertGenre g) w) as (w1 & -> & Hlog1).
    { cbn [run_statement]. unfold Sql.insert_genre. by rewrite Hg. }
    pose proof (only_logged_db _ _ Hlog1) as Hdb1.
    unfold mbind at 1, io_bind at 1, gets. rewrite Hdb1.
    destruct (existsb_find _ _ Hg) as [x Hx].
    assert (Hsel : Sql.select_genre_id g (db w) = Some x.1)
      by (unfold Sql.select_genre_id; by rewrite Hx).
    rewrite Hsel.
    assert (Hnext : exists w2,
               (if x.1 =? 0 then mret tt
                else execute E (InsertMovieGenre movie_id x.1)) w1
               = (Ok tt, w2) /\ only_logged w1 w2).
    { destruct (Hmg x.1 Hsel) as [H0|Hin].
      - rewrite H0. exists w1. split; [done|apply only_logged_refl].
      - destruct (x.1 =? 0); [exists w1; split;
                                [done|apply only_logged_refl]|].
        apply execute_unchanged. cbn [run_statement].
        unfold Sql.insert_movie_genre. by rewrite Hdb1, Hin. }
    destruct Hnext as (w2 & -> & Hlog2).
    assert (Hlog : only_logged w w2)
      by (by apply (only_logged_trans _ w1)).
    destruct (IH w2) as (w' & Hrun & Hlog').
    { intros g' Hin. rewrite (only_logged_db _ _ Hlog).
      apply Hall. by right. }
    exists w'. split; [exact Hrun|]. by apply (only_logged_trans _ w2).
Qed.

Lemma statements_keep_cache (E : env) (st : statement) (w : world) :
  cache (snd (execute E st w)) = cache w.
Proof. unfold execute. by destruct (run_statement E st (db w)). Qed.

(** X18: processing a row of the movies file a second time changes
    nothing but the log of statements.  After the loop body of the full
    load has succeeded for a row, running it again for the same row
    succeeds and leaves the tables, the cache, the requests sent and
    the rate-limit flag as they are. *)
Theorem process_movie_again_changes_nothing (E : env) (fast : bool)
    (row : Etl.movie_row) (w w1 : world) :
  Etl.process_movie E fast row w = (Ok tt, w1) ->
  exists w2,
    Etl.process_movie E fast row w1 = (Ok tt, w2) /\ only_logged w1 w2.
Proof.
  unfold Etl.process_movie.
  destruct (Etl.parse_title_and_year (Etl.raw_title row)) as [title year].
  unfold mbind, io_bind.
  destruct (Etl.query_omdb E title year fast w) as [[raw|e] wq] eqn:Hq;
    [|discriminate].
  pose proof (query_caches_result Runs.FullLoad E title year fast w wq raw Hq)
    as Hcached.
  assert (Hclean : forall a,
            (if truthy raw
             then lift (Normalizer.clean_omdb_response (strptime_iso E) raw)
             else mret None) a
            = ((if truthy raw
                then Normalizer.clean_omdb_response (strptime_iso E) raw
                else Ok None), a))
    by (intros a; by destruct (truthy raw)).
  rewrite !Hclean.
  destruct (if truthy raw then _ else _) as [omdb|e]; [|discriminate].
  set (p := Etl.params_of (Etl.movieId row) title year omdb).
  destruct (Etl.upsert_movie E p wq) as [[[]|e] wu] eqn:Hup; [|discriminate].
  intros Hlink.
  assert (Hcache : cache w1 = cache wq).
  { transitivity (cache wu).
    - pose proof (steps_link_genres (fun a b => cache b = cache a) E) as H.
      specialize (H (fun a => eq_refl)).
      specialize (H (fun a b c Hab Hbc => eq_trans Hbc Hab)).
      specialize (H (fun name a => statements_keep_cache E _ a)).
      specialize (H (fun m g a => statements_keep_cache E _ a)).
      specialize (H (Etl.movieId row) (Etl.genre_list (Etl.genres_raw row)) wu).
      by rewrite Hlink in H.
    - pose proof (steps_upsert_movie (fun a b => cache b = cache a) E) as H.
      specialize (H (fun a => eq_refl)).
      specialize (H (fun a b c Hab Hbc => eq_trans Hbc Hab)).
      specialize (H (fun p a => statements_keep_cache E _ a)).
      specialize (H (fun p a => statements_keep_cache E _ a)).
      specialize (H p wq). by rewrite Hup in H. }
  assert (Hmovies : Sql.movies (db w1) = Sql.movies (db wu)).
  { pose proof (steps_link_genres
                  (on_store (fun d d' => Sql.movies d' = Sql.movies d)) E) as H.
    unfold on_store in H.
    specialize (H (fun a => eq_refl)).
    specialize (H (fun a b c Hab Hbc => eq_trans Hbc Hab)).
    assert (Hg : forall name,
               steps (fun a b => Sql.movies (db b) = Sql.movies (db a))
                 (execute E (InsertGenre name))).
    { intros name a. unfold execute. cbn [run_statement snd db with_db].
      apply insert_genre_grows. }
    assert (Hmg : forall m g,
               steps (fun a b => Sql.movies (db b) = Sql.movies (db a))
                 (execute E (InsertMovieGenre m g))).
    { intros m g a. unfold execute. cbn [run_statement snd db with_db].
      apply insert_movie_genre_grows. }
    specialize (H Hg Hmg (Etl.movieId row)
                  (Etl.genre_list (Etl.genres_raw row)) wu).
    by rewrite Hlink in H. }
  destruct (link_genres_links E (Etl.movieId row)
              (Etl.genre_list (Etl.genres_raw row)) wu) as (w1' & Hl & Hlinked).
  rewrite Hlink in Hl. injection Hl as <-.
  rewrite <- Hcache in Hcached.
  pose proof (query_hit Runs.FullLoad E title year fast w1 raw Hcached)
    as Hhit.
  cbn [Runs.query_omdb] in Hhit. rewrite Hhit, Hclean. fold p.
  destruct (upsert_movie_unchanged E p wq wu w1 Hup Hmovies)
    as (w2 & -> & Hlog2).
  destruct (link_genres_unchanged E (Etl.movieId row)
              (Etl.genre_list (Etl.genres_raw row)) w2) as (w3 & -> & Hlog3).
  { intros g Hg. rewrite (only_logged_db _ _ Hlog2). by apply Hlinked. }
  exists w3. split; [done|]. by apply (only_logged_trans _ w2).
Qed.

Lemma process_movie_again_changes_nothing_witness :
  let w1 := snd (Etl.process_movie Samples.toy_story_env false
                   Samples.second_copy (Samples.fresh Samples.two_movies)) in
  exists w2,
    Etl.process_movie Samples.toy_story_env false Samples.second_copy w1
    = (Ok tt, w2)
    /\ only_logged w1 w2.
Proof.
  cbv zeta.
  apply (process_movie_again_changes_nothing Samples.toy_story_env false
           Samples.second_copy (Samples.fresh Samples.two_movies)).
  vm_compute. reflexivity.
Defined.

End RowAgain.

(** ** The counters of the enrichment *)

Section Counters.

Lemma write_record_counts (E : env) (movie_id : Z) (data : Normalizer.record)
    (enriched skipped : Z) (w w' : world) (counters : Z * Z) :
  Enrich.write_record E movie_id data enriched skipped w = (Ok counters, w') ->
  counters = (enriched + 1, skipped) \/ counters = (enriched, skipped + 1)
  \/ counters = (enriched, skipped).
Proof.
  unfold Enrich.write_record, try_except, mbind, io_bind, print, modify,
    mret, io_ret, raise.
  destruct (Enrich.update_movie E movie_id data w) as [[[|]|e] w1].
  - intros [= <- <-]. by left.
  - intros [= <- <-]. right. by left.
  - destruct e as [| | | | |m]; try discriminate.
    destruct (Enrich.has_other_fields data).
    + destruct (Enrich.update_movie E movie_id _ _) as [[b|e] w2];
        [|discriminate].
      intros [= <- <-]. by left.
    + intros [= <- <-]. right. by right.
Qed.

Lemma process_candidate_counts (E : env) (fast : bool)
    (candidate : Z * string * option Z) (enriched skipped : Z)
    (w w' : world) (counters : Z * Z) :
  Enrich.process_candidate E fast candidate enriched skipped w
  = (Ok counters, w') ->
  counters = (enriched + 1, skipped) \/ counters = (enriched, skipped + 1)
  \/ counters = (enriched, skipped).
Proof.
  destruct candidate as [[movie_id title] year].
  unfold Enrich.process_candidate. unfold mbind at 1 2, io_bind at 1 2.
  destruct (Enrich.query_omdb E title year fast w) as [[raw|e] w1];
    [|discriminate].
  destruct ((if truthy raw
             then lift (Normalizer.clean_omdb_response (strptime_iso E) raw)
             else mret None) w1) as [[[data|]|e] w2]; [| |discriminate].
  - unfold mbind, io_bind, save_cache, modify, mret, io_ret.
    destruct (Enrich.write_record E movie_id data enriched skipped w2)
      as [[c|e] w3] eqn:Hw; [|discriminate].
    intros [= <- <-]. by apply write_record_counts in Hw.
  - unfold mbind, io_bind, print, modify, mret, io_ret.
    intros [= <- <-]. right. by left.
Qed.

Lemma enrich_loop_counts (E : env) (fast : bool)
    (candidates : list (Z * string * option Z)) :
  forall (enriched skipped : Z) (w w' : world) (counters : Z * Z),
  Enrich.enrich_loop E fast candidates enriched skipped w = (Ok counters, w') ->
  enriched <= counters.1 /\ skipped <= counters.2
  /\ (counters.1 - enriched) + (counters.2 - skipped)
     <= Z.of_nat (length candidates).
Proof.
  induction candidates as [|candidate rest IH];
    intros enriched skipped w w' counters; cbn [Enrich.enrich_loop].
  - intros [= <- <-]. cbn. lia.
  - unfold mbind at 1, io_bind at 1, gets.
    destruct (OMDB_RATE_LIMITED w && negb fast).
    { unfold mbind, io_bind, print, modify, mret, io_ret.
      intros [= <- <-]. cbn [fst snd length]. lia. }
    unfold mbind, io_bind.
    destruct (Enrich.process_candidate E fast candidate enriched skipped w)
      as [[c|e] w1] eqn:Hc; [|discriminate].
    intros Hrest. apply IH in Hrest.
    apply process_candidate_counts in Hc.
    cbn [length]. destruct Hc as [-> | [-> | ->] ]; cbn [fst snd] in Hrest; lia.
Qed.

(** [main] in one piece: the batch size is bound, the candidates are
    read from the store as it is at the start, and the loop runs on
    them. *)
Lemma enrich_main_runs_loop (E : env) (batch : Z) (fast : bool) (w : world) :
  let w0 := with_cache (default ∅ (cache_file w)) w in
  let candidates :=
    map (fun r : Z * string * option Z * nat => (r.1.1.1, r.1.1.2, r.1.2))
      (Sql.select_candidates batch (db w)) in
  Enrich.main E batch fast w
  = if Sql.int64 batch then
      match candidates with
      | [] => (Ok (0, 0), with_stdout (NoCandidates :: stdout w0) w0)
      | _ :: _ =>
          match Enrich.enrich_loop E fast candidates 0 0
                  (with_stdout (Found (length candidates) :: stdout w0) w0) with
          | (Ok counters, w1) =>
              (Ok counters,
               with_stdout (Done counters.1 counters.2 :: stdout w1)
                 (with_saved (cache w1) w1))
          | (Raise e, w1) => (Raise e, w1)
          end
      end
    else (Raise OverflowError, w0).
Proof.
  intros w0 candidates. unfold Enrich.main, Enrich.fetch_candidates.
  unfold mbind, io_bind, load_cache, modify, gets, lift, mret, io_ret.
  fold w0. unfold Sql.bind_int.
  destruct (Sql.int64 batch); [|reflexivity].
  change (db w0) with (db w). fold candidates.
  destruct candidates as [|c cs]; [reflexivity|].
  unfold print, save_cache, modify.
  by destruct (Enrich.enrich_loop E fast (c :: cs) 0 0 _) as [[counters|e] w1].
Qed.

(** X19: the counters that a run of the enrichment reports.  Neither is
    negative, and together they count at most the candidates selected,
    hence at most [batch] movies when [batch] is not negative. *)
Theorem enrichment_counts_at_most_batch (E : env) (batch : Z) (fast : bool)
    (w w' : world) (enriched skipped : Z) :
  Enrich.main E batch fast w = (Ok (enriched, skipped), w') ->
  0 <= enriched /\ 0 <= skipped
  /\ enriched + skipped
     <= Z.of_nat (length (Sql.select_candidates batch (db w)))
  /\ (0 <= batch -> enriched + skipped <= batch).
Proof.
  intros Hrun.
  assert (Hlen : 0 <= batch ->
            Z.of_nat (length (Sql.select_candidates batch (db w))) <= batch).
  { intros Hb. unfold Sql.select_candidates, Sql.limit.
    destruct (Z.ltb_spec batch 0); [lia|]. rewrite length_take. lia. }
  assert (Hcount : 0 <= enriched /\ 0 <= skipped
                   /\ enriched + skipped
                      <= Z.of_nat (length (Sql.select_candidates batch (db w)))).
  { rewrite enrich_main_runs_loop in Hrun. cbv zeta in Hrun.
    destruct (Sql.int64 batch); [|discriminate].
    rewrite <- (length_map
                  (fun r : Z * string * option Z * nat =>
                     (r.1.1.1, r.1.1.2, r.1.2))
                  (Sql.select_candidates batch (db w))).
    destruct (map _ (Sql.select_candidates batch (db w))) as [|c cs].
    - injection Hrun as <- <- _. cbn. lia.
    - destruct (Enrich.enrich_loop E fast (c :: cs) 0 0 _)
        as [[counters|e] w1] eqn:Hloop; [|discriminate].
      injection Hrun as -> _. apply enrich_loop_counts in Hloop.
      cbn [fst snd] in Hloop. lia. }
  destruct Hcount as (He & Hs & Hsum). split_and!; try done.
  intros Hb. specialize (Hlen Hb). lia.
Qed.

Lemma enrichment_counts_at_most_batch_witness :
  let w := Samples.fresh Samples.two_movies in
  let r := Enrich.main Samples.toy_story_env 500 false w in
  r = (Ok (1, 0), snd r)
  /\ 0 <= 1 /\ 0 <= 0
  /\ 1 + 0 <= Z.of_nat (length (Sql.select_candidates 500 (db w)))
  /\ (0 <= 500 -> 1 + 0 <= 500).
Proof.
  cbv zeta.
  assert (Hrun : Enrich.main Samples.toy_story_env 500 false
                   (Samples.fresh Samples.two_movies)
                 = (Ok (1, 0),
                    snd (Enrich.main Samples.toy_story_env 500 false
                           (Samples.fresh Samples.two_movies))))
    by (vm_compute; reflexivity).
  split; [exact Hrun|].
  exact (enrichment_counts_at_most_batch Samples.toy_story_env 500 false
           (Samples.fresh Samples.two_movies) _ 1 0 Hrun).
Defined.

End Counters.

(** ** The rate limit ends the batch *)

Section BatchEnds.

Lemma clean_failure (strptime_iso : string -> string -> option string)
    (error : json) :
  truthy (failure error) = true
  /\ Normalizer.clean_omdb_response strptime_iso (failure error) = Ok None.
Proof. split; reflexivity. Qed.

Lemma enrich_loop_stops (E : env) (rest : list (Z * string * option Z))
    (enriched skipped : Z) (w : world) :
  OMDB_RATE_LIMITED w = true ->
  exists w', Enrich.enrich_loop E false rest enriched skipped w
             = (Ok (enriched, skipped), w')
             /\ sent w' = sent w /\ executed w' = executed w
             /\ db w' = db w /\ cache w' = cache w
             /\ OMDB_RATE_LIMITED w' = true.
Proof.
  intros Hflag. destruct rest as [|candidate rest]; cbn [Enrich.enrich_loop].
  - by exists w.
  - unfold mbind, io_bind, gets, print, modify, mret, io_ret. rewrite Hflag.
    cbn [andb negb]. eexists. split; [reflexivity|]. by cbn.
Qed.

(** X20: in the enrichment, the candidate whose lookup meets the rate
    limit is the last one looked at.  It is counted as skipped, the flag
    is set, and the rest of the batch is neither looked up nor written:
    one request is sent and no statement is executed. *)
Theorem rate_limit_ends_the_batch (E : env) (movie_id : Z) (title : string)
    (year : option Z) (rest : list (Z * string * option Z))
    (enriched skipped : Z) (w : world) (d : list (string * json))
    (err : string) :
  cache w !! cache_key title year = None ->
  OMDB_RATE_LIMITED w = false ->
  no_api_key E = false ->
  Enrich.document (http E (sent w) (ByTitle title (year_param year)))
  = JDict d ->
  error_text (JDict d) = Ok err ->
  Enrich.is_rate_limit err = true ->
  exists w',
    Enrich.enrich_loop E false ((movie_id, title, year) :: rest)
      enriched skipped w
    = (Ok (enriched, skipped + 1), w')
    /\ sent w' = ByTitle title (year_param year) :: sent w
    /\ executed w' = executed w
    /\ db w' = db w
    /\ OMDB_RATE_LIMITED w' = true.
Proof.
  intros Hmiss Hflag Hkey Hdoc Herr Hlimit.
  destruct (query_sets_flag Runs.EnrichOnly E title year w d err
              Hmiss Hflag Hkey Hdoc ltac:(discriminate) Herr Hlimit)
    as (w1 & Hq & Hflag1 & Hsent1 & _).
  cbn [Runs.query_omdb] in Hq.
  destruct (query_frame Runs.EnrichOnly E title year false w)
    as (Hdb1 & Hexec1 & _).
  cbn [Runs.query_omdb] in Hdb1, Hexec1. rewrite Hq in Hdb1, Hexec1.
  cbn [snd] in Hdb1, Hexec1.
  cbn [Enrich.enrich_loop]. unfold mbind at 1, io_bind at 1, gets.
  rewrite Hflag. cbn [andb]. unfold mbind at 1, io_bind at 1.
  unfold Enrich.process_candidate. unfold mbind at 1, io_bind at 1.
  rewrite Hq.
  destruct (clean_failure (strptime_iso E) (dict_get d "Error"))
    as [Htruthy Hclean].
  rewrite Htruthy. unfold mbind at 1, io_bind at 1, lift. rewrite Hclean.
  unfold mbind at 1, io_bind at 1, print, modify, mret, io_ret.
  cbn [fst snd].
  set (w2 := with_stdout (Skipped title :: stdout w1) w1).
  destruct (enrich_loop_stops E rest enriched (skipped + 1) w2)
    as (w' & Hrun & Hsent & Hexec & Hdb & _ & Hflag'); [exact Hflag1|].
  exists w'. split; [exact Hrun|].
  rewrite Hsent, Hexec, Hdb. unfold w2. cbn [sent executed db with_stdout].
  by rewrite Hsent1, Hexec1, Hdb1.
Qed.

Lemma rate_limit_ends_the_batch_witness :
  let w := Samples.fresh Samples.two_movies in
  exists w',
    Enrich.enrich_loop Samples.limited_env false
      [(2, "Toy Story", Some 1995); (1, "Heat", Some 1995)] 0 0 w
    = (Ok (0, 0 + 1), w')
    /\ sent w' = ByTitle "Toy Story" (year_param (Some 1995)) :: sent w
    /\ executed w' = executed w
    /\ db w' = db w
    /\ OMDB_RATE_LIMITED w' = true.
Proof.
  cbv zeta.
  apply (rate_limit_ends_the_batch Samples.limited_env 2 "Toy Story"
           (Some 1995) [(1, "Heat", Some 1995)] 0 0
           (Samples.fresh Samples.two_movies)
           [("Response", JStr "False");
            ("Error", JStr "Request limit reached!")]
           "request limit reached!"); reflexivity.
Defined.

End BatchEnds.

(** ** The row cap of the full load *)

Section RowCap.

(** X21: the rows that the full load processes are the first rows of the
    movies file.  Without [--limit], or with a limit of 0, they are all
    the rows; with a positive limit [n] they are the first [n] rows, or
    all of them when the file has fewer. *)
Theorem apply_limit_takes_first_rows {A} (limit : option Z) (rows : list A) :
  (exists rest, rows = (Etl.apply_limit limit rows ++ rest)%list)
  /\ (limit = None \/ limit = Some 0 -> Etl.apply_limit limit rows = rows)
  /\ (forall n, limit = Some n -> 0 < n ->
        Etl.apply_limit limit rows = take (Z.to_nat n) rows
        /\ length (Etl.apply_limit limit rows)
           = Nat.min (Z.to_nat n) (length rows)).
Proof.
  split_and!.
  - unfold Etl.apply_limit. destruct limit as [n|].
    + destruct (n =? 0); [exists []; by rewrite app_nil_r|].
      destruct (0 <? n); eexists; symmetry; apply take_drop.
    + exists []. by rewrite app_nil_r.
  - by intros [->| ->].
  - intros n -> Hn. unfold Etl.apply_limit.
    destruct (Z.eqb_spec n 0); [lia|]. destruct (Z.ltb_spec 0 n); [|lia].
    split; [reflexivity|apply length_take].
Qed.

End RowCap.

(** ** The markers of the two scripts *)

Section Markers.

Implicit Types (p q s a b : string).

Lemma startswith_spec p s :
  startswith s p = true <-> exists b, s = p +:+ b.
Proof.
  revert s. induction p as [|c p IH]; intros s.
  - destruct s; cbn; split; eauto.
  - destruct s as [|c' s]; cbn [startswith].
    + split; [discriminate|]. intros [b Hb]. by rewrite app_cons in Hb.
    + rewrite andb_true_iff, IH. split.
      * intros [Hc [b ->]]. apply Ascii.eqb_eq in Hc as ->.
        exists b. by rewrite app_cons.
      * intros [b Hb]. rewrite app_cons in Hb. injection Hb as -> ->.
        split; [apply Ascii.eqb_refl|by exists b].
Qed.

Lemma str_in_spec p s :
  str_in p s = true <-> exists a b, s = a +:+ p +:+ b.
Proof.
  split.
  - induction s as [|c s IH]; cbn [str_in].
    + rewrite orb_false_r. intros [b Hb]%startswith_spec. by exists "", b.
    + intros [[b Hb]%startswith_spec|Hin]%orb_prop.
      * by exists "", b.
      * destruct (IH Hin) as (a & b & ->). exists (String c a), b.
        by rewrite app_cons.
  - intros (a & b & ->). induction a as [|c a IH].
    + rewrite app_empty_l.
      assert (Hstart : startswith (p +:+ b) p = true)
        by (apply startswith_spec; by exists b).
      destruct (p +:+ b); cbn [str_in]; by rewrite Hstart.
    + rewrite app_cons. cbn [str_in]. rewrite IH. apply orb_true_r.
Qed.

Lemma str_in_trans q p s :
  str_in q p = true -> str_in p s = true -> str_in q s = true.
Proof.
  intros (a' & b' & ->)%str_in_spec (a & b & ->)%str_in_spec.
  apply str_in_spec. exists (a +:+ a'), (b' +:+ b).
  by rewrite !app_assoc_string.
Qed.

(** X22: every error text in which the enrichment recognises a rate
    limit or a refused key is one in which the full load recognises it
    too. *)
Theorem enrichment_markers_are_full_load_markers (err : string) :
  Enrich.is_rate_limit err = true -> Etl.is_rate_limit err = true.
Proof.
  unfold Enrich.is_rate_limit, Etl.is_rate_limit.
  intros [[H|H]%orb_prop|H]%orb_prop.
  - by rewrite (str_in_trans "limit" "request limit" err eq_refl H).
  - by rewrite (str_in_trans "limit" "limit reached" err eq_refl H).
  - rewrite H. apply orb_true_r.
Qed.

Lemma enrichment_markers_are_full_load_markers_witness :
  Enrich.is_rate_limit "request limit reached!" = true
  /\ Etl.is_rate_limit "request limit reached!" = true.
Proof.
  split; [reflexivity|].
  exact (enrichment_markers_are_full_load_markers "request limit reached!"
           eq_refl).
Defined.

Lemma lower_char_digit_or_dash (c : ascii) :
  Text.digit_or_dash c = true -> lower_char c = c.
Proof.
  destruct c as [[] [] [] [] [] [] [] []]; try reflexivity; discriminate.
Qed.

Lemma lower_decimal (z : Z) : lower (pretty z) = pretty z.
Proof.
  pose proof (pretty_Z_chars z) as H.
  induction (pretty z) as [|c s IH]; [reflexivity|].
  cbn [Text.all_chars] in H. apply andb_prop in H as [Hc Hs].
  cbn [lower]. by rewrite (lower_char_digit_or_dash c Hc), (IH Hs).
Qed.

Lemma lower_app s b : lower (s +:+ b) = lower s +:+ lower b.
Proof.
  induction s as [|c s IH]; [reflexivity|].
  rewrite app_cons. cbn [lower]. by rewrite app_cons, IH.
Qed.

Lemma status_text_has_no_marker (z : Z) :
  Enrich.is_rate_limit (lower ("HTTP " +:+ pretty z)) = false.
Proof.
  rewrite lower_app, lower_decimal.
  assert (Hnot : forall c,
             (forall x, Text.digit_or_dash x = true -> Text.is_not c x = true) ->
             Text.all_chars (Text.is_not c) (lower "HTTP ") = true ->
             forall t, str_in (String c t) (lower "HTTP " +:+ pretty z) = false).
  { intros c Hc Hhttp t. apply str_in_first_char.
    rewrite all_chars_app, Hhttp. cbn [andb].
    eapply all_chars_impl; [exact Hc|apply pretty_Z_chars]. }
  unfold Enrich.is_rate_limit. rewrite !Hnot; try reflexivity.
  all: intros x; destruct x as [[] [] [] [] [] [] [] []];
    try reflexivity; discriminate.
Qed.

(** X23: in the enrichment, a reply whose body is not JSON never
    triggers the degraded mode.  The failure document carrying the HTTP
    status is cached and returned, and the rate-limit flag stays
    unset. *)
Theorem not_json_reply_keeps_flag (E : env) (title : string)
    (year : option Z) (w : world) (status_code : Z) (why : string) :
  cache w !! cache_key title year = None ->
  OMDB_RATE_LIMITED w = false ->
  no_api_key E = false ->
  http E (sent w) (ByTitle title (year_param year))
  = NotJson status_code why ->
  let data := failure (JStr ("HTTP " +:+ pretty status_code)) in
  exists w',
    Enrich.query_omdb E title year false w = (Ok data, w')
    /\ OMDB_RATE_LIMITED w' = false
    /\ cache w' = <[cache_key title year := data]> (cache w)
    /\ sent w' = ByTitle title (year_param year) :: sent w.
Proof.
  intros Hmiss Hflag Hkey Hreply data.
  unfold Enrich.query_omdb. io_unfold.
  rewrite Hmiss, Hflag, Hkey. cbn [orb]. rewrite Hreply.
  cbn [Enrich.document]. fold data.
  assert (Herr : error_text data
                 = Ok (lower ("HTTP " +:+ pretty status_code))).
  { unfold data, failure, error_text. cbn [get dict_get assoc mbind result_bind].
    cbn [String.eqb Ascii.eqb Bool.eqb default truthy].
    by destruct ("HTTP " +:+ pretty status_code) eqn:Hs. }
  rewrite Herr, status_text_has_no_marker.
  eexists. split; [reflexivity|]. by cbn.
Qed.

Lemma not_json_reply_keeps_flag_witness :
  let E := {| OMDB_API_KEY := Some "k";
              http := fun _ _ => NotJson 503 "Expecting value";
              strptime_iso := Normalizer.strptime_reference;
              duplicate_rating := Samples.same_user_and_movie |} in
  let w := Samples.fresh Samples.two_movies in
  exists w',
    Enrich.query_omdb E "Heat" (Some 1995) false w
    = (Ok (failure (JStr ("HTTP " +:+ pretty 503))), w')
    /\ OMDB_RATE_LIMITED w' = false
    /\ cache w'
       = <["Heat||1995" := failure (JStr ("HTTP " +:+ pretty 503))]> (cache w)
    /\ sent w' = ByTitle "Heat" (year_param (Some 1995)) :: sent w.
Proof.
  cbv zeta.
  apply (not_json_reply_keeps_flag
           {| OMDB_API_KEY := Some "k";
              http := fun _ _ => NotJson 503 "Expecting value";
              strptime_iso := Normalizer.strptime_reference;
              duplicate_rating := Samples.same_user_and_movie |}
           "Heat" (Some 1995) (Samples.fresh Samples.two_movies) 503
           "Expecting value"); reflexivity.
Defined.

End Markers.

(** ** The constraints of the tables across a run *)

Section TableConstraints.

Import Frame.

Lemma replace_keeps_unique_imdb (d : Sql.store) (old row : Sql.movie) :
  Sql.unique_imdb d ->
  Sql.id row = Sql.id old ->
  (forall b, In b (Sql.movies d) -> Sql.id b <> Sql.id row ->
     Sql.imdb_id row = Sql.imdb_id b -> Sql.imdb_id row <> Sql.Null -> False) ->
  Sql.unique_imdb (Sql.with_movies (Sql.replace_row row (Sql.movies d)) d).
Proof.
  unfold Sql.unique_imdb. cbn [Sql.movies Sql.with_movies].
  intros Himdb Hrow Hother a b Ha Hb Heq Hnn.
  apply replace_row_in in Ha as [->|[Ha Hida]];
    apply replace_row_in in Hb as [->|[Hb Hidb]]; try reflexivity.
  - destruct (Z.eq_dec (Sql.id row) (Sql.id b)) as [|Hne]; [assumption|].
    exfalso. apply (Hother b Hb); auto.
  - destruct (Z.eq_dec (Sql.id a) (Sql.id row)) as [|Hne]; [assumption|].
    exfalso. apply (Hother a Ha); auto; congruence.
  - by apply Himdb.
Qed.

Lemma set_columns_keep_imdb (bound : list (Sql.column * Sql.value))
    (m : Sql.movie) :
  existsb (fun cv => Sql.is_imdb_column (fst cv)) bound = false ->
  Sql.imdb_id (fold_left Sql.set_column bound m) = Sql.imdb_id m.
Proof.
  revert m. induction bound as [|[c v] bound IH]; intros m; [reflexivity|].
  cbn [existsb fold_left fst]. intros [Hc Hrest]%orb_false_elim.
  rewrite (IH _ Hrest). by destruct c.
Qed.

Lemma update_keeps_constraints (i : Z) (sets : list (Sql.column * json))
    (d d' : Sql.store) :
  Sql.unique_ids d -> Sql.unique_imdb d ->
  Sql.update i sets d = Ok d' ->
  Sql.unique_ids d' /\ Sql.unique_imdb d'.
Proof.
  intros Hids Himdb. unfold Sql.update.
  destruct (Sql.bind_int i) as [i'|]; cbn [mbind result_bind]; [|discriminate].
  destruct (Sql.bind_all sets) as [bound|]; cbn [mbind result_bind];
    [|discriminate].
  unfold Sql.find_movie.
  destruct (find _ (Sql.movies d)) as [old|] eqn:Hfind.
  2: { by intros [= <-]. }
  assert (Hold := find_row_id _ _ _ Hfind).
  assert (Hin_old : In old (Sql.movies d))
    by exact (proj1 (find_some _ _ Hfind)).
  set (row := fold_left Sql.set_column bound old).
  assert (Hrow : Sql.id row = Sql.id old) by apply set_columns_id.
  destruct (existsb _ bound && _) eqn:Hcheck; [discriminate|].
  intros [= <-]. split.
  - unfold Sql.unique_ids. cbn [Sql.movies Sql.with_movies].
    by rewrite replace_row_ids.
  - apply (replace_keeps_unique_imdb d old row Himdb Hrow).
    intros b Hb Hne Heq Hnn. apply Hne.
    apply andb_false_iff in Hcheck as [Hnone|Hfree].
    + rewrite Hrow. symmetry. apply Himdb; auto.
      * by rewrite <- (set_columns_keep_imdb bound old Hnone).
      * by rewrite <- (set_columns_keep_imdb bound old Hnone).
    + rewrite Hrow, Hold.
      by apply (imdb_free d _ (Sql.imdb_id row) b).
Qed.

Lemma genre_ids_below (gs : list (Z * string)) (i : Z) :
  In i (map fst gs) -> i < Sql.next_genre_id gs.
Proof.
  unfold Sql.next_genre_id. induction gs as [|[j name] gs IH]; cbn; [tauto|].
  intros [->|Hi]; [lia|]. specialize (IH Hi). lia.
Qed.

Lemma insert_genre_consistent (name : string) (d : Sql.store) :
  consistent d -> consistent (Sql.insert_genre name d).
Proof.
  intros (Hids & Himdb & Hnames & Hgids & Hmg). unfold Sql.insert_genre.
  destruct (existsb _ (Sql.genres d)) eqn:Hex; [by repeat split|].
  unfold consistent. cbn [Sql.genres Sql.movie_genres Sql.with_genres].
  split; [exact Hids|]. split; [exact Himdb|].
  rewrite !map_app. cbn [map fst snd]. split_and!; [| |exact Hmg].
  - apply NoDup_app. split; [exact Hnames|]. split; [|apply NoDup_singleton].
    intros x Hx ->%list_elem_of_singleton.
    apply list_elem_of_In, in_map_iff in Hx as (g & Hg & Hin).
    apply not_true_iff_false in Hex. apply Hex, existsb_exists.
    exists g. split; [exact Hin|]. by apply String.eqb_eq.
  - apply NoDup_app. split; [exact Hgids|]. split; [|apply NoDup_singleton].
    intros x Hx ->%list_elem_of_singleton.
    apply list_elem_of_In, genre_ids_below in Hx. lia.
Qed.

Lemma insert_movie_genre_consistent (m g : Z) (d : Sql.store) :
  consistent d -> consistent (Sql.insert_movie_genre m g d).
Proof.
  intros (Hids & Himdb & Hnames & Hgids & Hmg). unfold Sql.insert_movie_genre.
  destruct (existsb _ (Sql.movie_genres d)) eqn:Hex; [by repeat split|].
  unfold consistent. cbn [Sql.genres Sql.movie_genres Sql.with_movie_genres].
  split_and!; try done.
  apply NoDup_app. split; [exact Hmg|]. split; [|apply NoDup_singleton].
  intros x Hx ->%list_elem_of_singleton. apply list_elem_of_In in Hx.
  apply not_true_iff_false in Hex. apply Hex, existsb_exists.
  exists (m, g). split; [exact Hx|]. cbn. by rewrite !Z.eqb_refl.
Qed.

Lemma upsert_other_tables (b : bool) (p : Sql.upsert_params)
    (d d' : Sql.store) :
  Sql.upsert b p d = Ok d' ->
  Sql.genres d' = Sql.genres d /\ Sql.movie_genres d' = Sql.movie_genres d.
Proof.
  unfold Sql.upsert.
  destruct (Sql.excluded_row p); cbn [mbind result_bind]; [|discriminate].
  destruct (Sql.find_movie _ d).
  - destruct (_ && _); [discriminate|]. by intros [= <-].
  - destruct (Sql.imdb_taken _ _ _); [discriminate|]. by intros [= <-].
Qed.

Lemma insert_rating_other_tables (dup : Sql.rating -> Sql.rating -> bool)
    (r : Sql.rating) (d d' : Sql.store) :
  Sql.insert_rating dup r d = Ok d' ->
  Sql.movies d' = Sql.movies d /\ Sql.genres d' = Sql.genres d
  /\ Sql.movie_genres d' = Sql.movie_genres d.
Proof.
  unfold Sql.insert_rating.
  destruct (Sql.bind_int (Sql.user_id r)); cbn [mbind result_bind];
    [|discriminate].
  destruct (Sql.bind_int (Sql.movie_id r)); cbn [mbind result_bind];
    [|discriminate].
  destruct (Sql.bind_opt_int (Sql.timestamp r)); cbn [mbind result_bind];
    [|discriminate].
  by destruct (existsb _ _); intros [= <-].
Qed.

Lemma consistent_movies (d d' : Sql.store) :
  Sql.genres d' = Sql.genres d ->
  Sql.movie_genres d' = Sql.movie_genres d ->
  (Sql.unique_ids d -> Sql.unique_imdb d ->
   Sql.unique_ids d' /\ Sql.unique_imdb d') ->
  consistent d -> consistent d'.
Proof.
  intros Hg Hmg Hkeep (Hids & Himdb & Hnames & Hgids & Hpairs).
  unfold consistent. rewrite Hg, Hmg.
  destruct (Hkeep Hids Himdb) as [Hids' Himdb']. by split_and!.
Qed.

(** X24: no run of either script breaks a constraint of the tables.  If
    the movie identifiers are unique, no external ID but NULL is held
    twice, the genre names and identifiers are unique and no
    association is stored twice before the run, then all of this holds
    after it, however the run ends. *)
Theorem runs_keep_constraints (E : env) (fast : bool) (limit : option Z)
    (movies_csv : list Etl.movie_row) (ratings_csv : list Sql.rating)
    (batch : Z) (w : world) :
  consistent (db w) ->
  consistent (db (snd (Etl.main E limit fast movies_csv ratings_csv w)))
  /\ consistent (db (snd (Enrich.main E batch fast w))).
Proof.
  intros Hw.
  set (Q := fun d d' : Sql.store => consistent d -> consistent d').
  destruct (on_store_runs Q E fast) with (limit := limit)
    (movies_csv := movies_csv) (ratings_csv := ratings_csv) (batch := batch)
    as [Hetl Henrich].
  - intros d Hd. exact Hd.
  - intros a b c Hab Hbc Ha. by apply Hbc, Hab.
  - intros b p d d' Hup. unfold Q.
    destruct (upsert_other_tables b p d d' Hup) as [Hg Hmg].
    apply consistent_movies; [exact Hg|exact Hmg|].
    intros Hids Himdb. by apply (upsert_keeps_constraints b p d d').
  - intros name d. exact (insert_genre_consistent name d).
  - intros m g d. exact (insert_movie_genre_consistent m g d).
  - intros r d d' Hins. unfold Q.
    destruct (insert_rating_other_tables _ r d d' Hins) as (Hm & Hg & Hmg).
    apply consistent_movies; [exact Hg|exact Hmg|].
    unfold Sql.unique_ids, Sql.unique_imdb. by rewrite Hm.
  - intros i sets d d' Hup. unfold Q.
    destruct (update_keeps_rows i sets d d' Hup) as (_ & _ & Hg & Hmg).
    apply consistent_movies; [exact Hg|exact Hmg|].
    intros Hids Himdb. by apply (update_keeps_constraints i sets d d').
  - split; [by apply Hetl|by apply Henrich].
Qed.

Lemma runs_keep_constraints_witness :
  let w := Samples.fresh Samples.two_movies in
  consistent (db w)
  /\ consistent (db (snd (Etl.main Samples.toy_story_env None false
                            [Samples.second_copy] [Samples.rating_of 7 2] w)))
  /\ consistent (db (snd (Enrich.main Samples.toy_story_env 500 false w))).
Proof.
  cbv zeta.
  assert (Hw : consistent (db (Samples.fresh Samples.two_movies))).
  { unfold consistent, Sql.unique_ids, Sql.unique_imdb. cbn.
    split_and!; try by apply (bool_decide_unpack _).
    intros a b [<-|[<-|[]]] [<-|[<-|[]]]; cbn; congruence. }
  split; [exact Hw|].
  exact (runs_keep_constraints Samples.toy_story_env false None
           [Samples.second_copy] [Samples.rating_of 7 2] 500
           (Samples.fresh Samples.two_movies) Hw).
Defined.

End TableConstraints.
